(** * MyAgedCareScraper: a shallow embedding of [main.py]

    The scraper walks a provider directory: for every location and search
    type it loads a results page, waits until results are visible, harvests
    the detail links of the result cards, scrapes every detail page into a
    [ProviderData] record, drops records whose telephone was seen before and
    appends the rest to [output/output.csv] after each location.

    Modelling conventions.
    - A Python [str] is a [string]; a character is read as the Unicode code
      point below 256 with the same number.  Whitespace, digits, word
      characters, [isupper], [islower] and [lower] follow CPython on that
      range.  [upper] leaves the range on U+00B5, U+00DF and U+00FF; it is
      modelled on the other characters, and a text that holds one of those
      three is outside the model wherever [upper] is applied to it.
    - The browser is an external collaborator.  A page is a snapshot record
      holding what each DOM query of the source returns on it; a query that
      raises is a value of the snapshot as well, because the source catches
      it at a definite place.
    - [self.results], [self.existing_telephones] and the CSV file are the
      fields of an explicit [Scraper] state that every method threads. *)

From Stdlib Require Import Ascii String List ZArith Lia Bool DecimalString DecimalZ.
From stdpp Require Import base strings gmap.

Set Default Proof Using "Type".

(* ================================================================== *)
(** ** Python strings *)
(* ================================================================== *)

Module Py.

Definition code (c : ascii) : N := N_of_ascii c.

Definition between (lo hi : N) (c : ascii) : bool :=
  ((lo <=? code c) && (code c <=? hi))%N.

(** [str.isspace], and the class [\s] of [re] on [str] patterns. *)
Definition isspace (c : ascii) : bool :=
  between 9 13 c || between 28 32 c || between 133 133 c || between 160 160 c.

(** The class [\d]. *)
Definition isdigit (c : ascii) : bool := between 48 57 c.

(** [str.isupper] and [str.islower] of one character. *)
Definition isupper_char (c : ascii) : bool :=
  between 65 90 c || between 192 214 c || between 216 222 c.

Definition islower_char (c : ascii) : bool :=
  between 97 122 c || between 170 170 c || between 181 181 c
  || between 186 186 c || between 223 246 c || between 248 255 c.

(** The class [\w]: alphanumeric characters and the underscore. *)
Definition isword (c : ascii) : bool :=
  between 48 57 c || between 65 90 c || between 95 95 c || between 97 122 c
  || between 170 170 c || between 178 179 c || between 181 181 c
  || between 185 186 c || between 188 190 c || between 192 214 c
  || between 216 246 c || between 248 255 c.

Definition lower_char (c : ascii) : ascii :=
  if isupper_char c then ascii_of_N (code c + 32) else c.

Definition upper_char (c : ascii) : ascii :=
  if between 97 122 c || between 224 246 c || between 248 254 c
  then ascii_of_N (code c - 32) else c.

Fixpoint map_str (f : ascii -> ascii) (s : string) : string :=
  match s with
  | EmptyString => EmptyString
  | String c s' => String (f c) (map_str f s')
  end.

Fixpoint all_str (p : ascii -> bool) (s : string) : bool :=
  match s with
  | EmptyString => true
  | String c s' => p c && all_str p s'
  end.

Fixpoint any_str (p : ascii -> bool) (s : string) : bool :=
  match s with
  | EmptyString => false
  | String c s' => p c || any_str p s'
  end.

Definition upper (s : string) : string := map_str upper_char s.
Definition lower (s : string) : string := map_str lower_char s.

(** [s.isupper()]: no lowercase character and at least one uppercase one. *)
Definition isupper (s : string) : bool :=
  all_str (fun c => negb (islower_char c)) s && any_str isupper_char s.

(** [s.istitle()]: uppercase characters only after uncased ones, lowercase
    characters only after cased ones, and at least one cased character. *)
Fixpoint istitle_from (prev_cased seen : bool) (s : string) : bool :=
  match s with
  | EmptyString => seen
  | String c s' =>
      if isupper_char c then
        if prev_cased then false else istitle_from true true s'
      else if islower_char c then
        if prev_cased then istitle_from true true s' else false
      else istitle_from false seen s'
  end.

Definition istitle (s : string) : bool := istitle_from false false s.

(** Truth value of a string: [if s:]. *)
Definition truthy (s : string) : bool :=
  match s with EmptyString => false | String _ _ => true end.

Definition len (s : string) : nat := String.length s.

Fixpoint lstrip (s : string) : string :=
  match s with
  | EmptyString => EmptyString
  | String c s' => if isspace c then lstrip s' else s
  end.

Fixpoint rstrip (s : string) : string :=
  match s with
  | EmptyString => EmptyString
  | String c s' =>
      match rstrip s' with
      | EmptyString => if isspace c then EmptyString else String c EmptyString
      | r => String c r
      end
  end.

(** [s.strip()]. *)
Definition strip (s : string) : string := rstrip (lstrip s).

(** [s.startswith(p)]. *)
Definition startswith (p s : string) : bool := String.prefix p s.

(** [needle in s]. *)
Fixpoint contains (needle s : string) : bool :=
  String.prefix needle s ||
  match s with
  | EmptyString => false
  | String _ s' => contains needle s'
  end.

(** [s.split()]: the maximal runs of non-whitespace characters. [tok] is
    the run being read. *)
Fixpoint split_ws_from (tok s : string) : list string :=
  match s with
  | EmptyString => if truthy tok then [tok] else []
  | String c s' =>
      if isspace c
      then (if truthy tok then tok :: split_ws_from "" s' else split_ws_from "" s')
      else split_ws_from (tok +:+ String c "") s'
  end.

Definition split_ws (s : string) : list string := split_ws_from "" s.

(** [s.split(sep)] for a one-character separator: never empty. *)
Fixpoint split_on_from (sep : ascii) (tok s : string) : list string :=
  match s with
  | EmptyString => [tok]
  | String c s' =>
      if Ascii.eqb c sep
      then tok :: split_on_from sep "" s'
      else split_on_from sep (tok +:+ String c "") s'
  end.

Definition split_on (sep : ascii) (s : string) : list string :=
  split_on_from sep "" s.

Definition newline : ascii := ascii_of_N 10.

(** [s[:n]]. *)
Fixpoint take_str (n : nat) (s : string) : string :=
  match n, s with
  | S n', String c s' => String c (take_str n' s')
  | _, _ => EmptyString
  end.

(** [sep.join(l)]. *)
Fixpoint join (sep : string) (l : list string) : string :=
  match l with
  | [] => ""
  | [x] => x
  | x :: rest => x +:+ sep +:+ join sep rest
  end.

(** [x in l] for a list of strings. *)
Definition in_list (x : string) (l : list string) : bool :=
  existsb (String.eqb x) l.

End Py.

(* ================================================================== *)
(** ** The fragment of [re] the scraper uses *)
(* ================================================================== *)

Module Re.

(** Patterns: a character class, the assertion [\b], concatenation, ordered
    alternation and greedy bounded repetition. *)
Inductive regex : Type :=
| Eps
| Cls (p : ascii -> bool)
| WordB
| Cat (r1 r2 : regex)
| Or (r1 r2 : regex)
| Rep (r : regex) (lo : nat) (hi : option nat).

(** The strings of a pattern, [\b] set aside: what a match can be. *)
Inductive matches : regex -> string -> Prop :=
| m_eps : matches Eps ""
| m_cls (p : ascii -> bool) (c : ascii) :
    p c = true -> matches (Cls p) (String c "")
| m_wordb : matches WordB ""
| m_cat (r1 r2 : regex) (a b : string) :
    matches r1 a -> matches r2 b -> matches (Cat r1 r2) (a +:+ b)
| m_or_l (r1 r2 : regex) (a : string) :
    matches r1 a -> matches (Or r1 r2) a
| m_or_r (r1 r2 : regex) (a : string) :
    matches r2 a -> matches (Or r1 r2) a
| m_rep (r : regex) (lo : nat) (hi : option nat) (n : nat) (a : string) :
    repeats r n a -> lo <= n ->
    match hi with Some h => n <= h | None => True end ->
    matches (Rep r lo hi) a
with repeats : regex -> nat -> string -> Prop :=
| r_zero (r : regex) : repeats r 0 ""
| r_more (r : regex) (n : nat) (a b : string) :
    repeats r n a -> matches r b -> repeats r (S n) (a +:+ b).

Definition below (n : nat) (hi : option nat) : bool :=
  match hi with
  | None => true
  | Some h => n <? h
  end.

(** [\b] between the previous character and the rest of the input. *)
Definition at_boundary (prev : option ascii) (s : string) : bool :=
  xorb (match prev with Some c => Py.isword c | None => false end)
       (match s with String c _ => Py.isword c | EmptyString => false end).

(** Backtracking matcher.  [k] is what remains to be matched; the result
    is the input left after the first successful way to match, alternatives
    being tried in the order of [re]: left branch first, one more
    repetition before stopping.  A repetition whose body consumed nothing
    is not continued, so the input length bounds the number of rounds. *)
Fixpoint run (r : regex) (prev : option ascii) (s : string)
    (k : option ascii -> string -> option string) {struct r} : option string :=
  match r with
  | Eps => k prev s
  | Cls p =>
      match s with
      | String c s' => if p c then k (Some c) s' else None
      | EmptyString => None
      end
  | WordB => if at_boundary prev s then k prev s else None
  | Cat r1 r2 => run r1 prev s (fun prev' s' => run r2 prev' s' k)
  | Or r1 r2 =>
      match run r1 prev s k with
      | Some rest => Some rest
      | None => run r2 prev s k
      end
  | Rep body lo hi =>
      (fix rounds (fuel n : nat) (prev : option ascii) (s : string)
           {struct fuel} : option string :=
         let stop := if lo <=? n then k prev s else None in
         match fuel with
         | O => stop
         | S fuel' =>
             let more :=
               if below n hi then
                 run body prev s (fun prev' s' =>
                   if String.length s' <? String.length s
                   then rounds fuel' (S n) prev' s' else None)
               else None in
             match more with
             | Some rest => Some rest
             | None => stop
             end
         end) (String.length s) 0 prev s
  end.

(** The text matched at the current position, if the pattern matches there. *)
Definition match_here (r : regex) (prev : option ascii) (s : string)
    : option string :=
  match run r prev s (fun _ rest => Some rest) with
  | Some rest => Some (Py.take_str (String.length s - String.length rest) s)
  | None => None
  end.

(** [re.search(r, s).group(0)]: the leftmost match. *)
Fixpoint search_from (r : regex) (prev : option ascii) (s : string)
    : option string :=
  match match_here r prev s with
  | Some m => Some m
  | None =>
      match s with
      | String c s' => search_from r (Some c) s'
      | EmptyString => None
      end
  end.

Definition search (r : regex) (s : string) : option string :=
  search_from r None s.

(** [re.findall(r, s)] for a pattern without groups: the matches from left
    to right, each search starting where the previous match ended. [skip]
    counts the characters of the last match that are still to be passed. *)
Fixpoint findall_from (r : regex) (skip : nat) (prev : option ascii)
    (s : string) : list string :=
  match s with
  | EmptyString =>
      match skip, match_here r prev s with
      | O, Some m => [m]
      | _, _ => []
      end
  | String c s' =>
      match skip with
      | S n => findall_from r n (Some c) s'
      | O =>
          match match_here r prev s with
          | Some m => m :: findall_from r (String.length m - 1) (Some c) s'
          | None => findall_from r 0 (Some c) s'
          end
      end
  end.

Definition findall (r : regex) (s : string) : list string :=
  findall_from r 0 None s.

(** Pattern syntax. *)
Definition chr (c : ascii) : regex := Cls (Ascii.eqb c).
Definition oneof (s : string) (c : ascii) : bool := Py.any_str (Ascii.eqb c) s.
Definition range (lo hi : ascii) (c : ascii) : bool :=
  Py.between (Py.code lo) (Py.code hi) c.
Definition plus (r : regex) : regex := Rep r 1 None.
Definition star (r : regex) : regex := Rep r 0 None.
Definition opt (r : regex) : regex := Rep r 0 (Some 1).
Definition times (n : nat) (r : regex) : regex := Rep r n (Some n).
Definition seq (rs : list regex) : regex := fold_right Cat Eps rs.

Fixpoint lit (s : string) : regex :=
  match s with
  | EmptyString => Eps
  | String c s' => Cat (chr c) (lit s')
  end.

Definition alt (rs : list regex) : regex :=
  match rs with
  | [] => Eps
  | r :: rs' => fold_left Or rs' r
  end.

Definition digit : regex := Cls Py.isdigit.
Definition az (c : ascii) : bool := range "a" "z" c.
Definition AZ (c : ascii) : bool := range "A" "Z" c.

End Re.


(* ================================================================== *)
(** ** [urllib.parse.quote_plus] and [str] of an integer *)
(* ================================================================== *)

Module Urllib.

(** The unreserved characters: letters, digits and [_.-~]. *)
Definition always_safe (c : ascii) : bool :=
  Py.between 65 90 c || Py.between 97 122 c || Py.between 48 57 c
  || Py.any_str (Ascii.eqb c) "_.-~".

Definition hex_digit (n : N) : ascii :=
  ascii_of_N (if (n <? 10)%N then 48 + n else 55 + n).

(** ['%{:02X}'.format(b)]. *)
Definition percent (b : N) : string :=
  String "%" (String (hex_digit (b / 16)) (String (hex_digit (b mod 16)) "")).

(** The UTF-8 bytes of a code point below 256. *)
Definition utf8 (c : ascii) : list N :=
  if (Py.code c <? 128)%N then [Py.code c]
  else [(192 + Py.code c / 64)%N; (128 + Py.code c mod 64)%N].

(** What [quote_plus] makes of one character: a blank becomes [+], an
    unreserved character stays, every other byte is percent-encoded. *)
Definition quote_char (c : ascii) : string :=
  if Ascii.eqb c " " then "+"
  else if always_safe c then String c ""
  else fold_right (fun b s => percent b +:+ s) "" (utf8 c).

Fixpoint quote_plus (s : string) : string :=
  match s with
  | EmptyString => EmptyString
  | String c s' => quote_char c +:+ quote_plus s'
  end.

(** One character of an encoded string, decoded; used to state and prove
    that the encoding loses nothing. *)
Definition hex_value (c : ascii) : option N :=
  if Py.between 48 57 c then Some (Py.code c - 48)%N
  else if Py.between 65 70 c then Some (Py.code c - 55)%N
  else None.

Definition unquote_byte (s : string) : option (N * string) :=
  match s with
  | String p (String h (String l rest)) =>
      if Ascii.eqb p "%" then
        match hex_value h, hex_value l with
        | Some a, Some b => Some ((16 * a + b)%N, rest)
        | _, _ => None
        end
      else None
  | _ => None
  end.

Definition unquote_head (s : string) : option (ascii * string) :=
  match s with
  | EmptyString => None
  | String c rest =>
      if Ascii.eqb c "+" then Some (" "%char, rest)
      else if always_safe c then Some (c, rest)
      else
        match unquote_byte s with
        | Some (b, rest1) =>
            if (b <? 128)%N then Some (ascii_of_N b, rest1)
            else
              match unquote_byte rest1 with
              | Some (b2, rest2) =>
                  Some (ascii_of_N ((b - 192) * 64 + (b2 - 128)), rest2)
              | None => None
              end
        | None => None
        end
  end.

(** [str(n)] for an integer. *)
Definition str_of_int (n : Z) : string :=
  DecimalString.NilZero.string_of_int (Z.to_int n).

End Urllib.
(* ================================================================== *)
(** ** class MyAgedCareScraper *)
(* ================================================================== *)

Module MyAgedCareScraper.
Import Re.

(** *** Field extractors of the detail-page parser *)

(** The six patterns of [_extract_telephone], in the order of the source. *)
Definition tel_patterns : list regex :=
  [ seq [WordB; times 2 digit; chr " "; times 4 digit; chr " "; times 4 digit; WordB];
    seq [WordB; times 4 digit; chr " "; times 3 digit; chr " "; times 3 digit; WordB];
    seq [WordB; times 2 digit; chr "-"; times 4 digit; chr "-"; times 4 digit; WordB];
    seq [WordB; times 4 digit; chr "-"; times 3 digit; chr "-"; times 3 digit; WordB];
    seq [WordB; times 8 digit; WordB];
    seq [WordB; times 10 digit; WordB] ].

(** [not match.startswith('2025') and not match.startswith('2024')]. *)
Definition not_a_year (m : string) : bool :=
  negb (Py.startswith "2025" m) && negb (Py.startswith "2024" m).

(** The inner loop: the first match of one pattern that is not a year. *)
Fixpoint first_phone (matches : list string) : option string :=
  match matches with
  | [] => None
  | m :: rest => if not_a_year m then Some (Py.strip m) else first_phone rest
  end.

(** The outer loop over the patterns; a pattern whose matches are all
    years falls through to the next pattern. *)
Fixpoint telephone_loop (patterns : list regex) (text : string) : string :=
  match patterns with
  | [] => ""
  | p :: rest =>
      match findall p text with
      | [] => telephone_loop rest text
      | matches =>
          match first_phone matches with
          | Some m => m
          | None => telephone_loop rest text
          end
      end
  end.

Definition _extract_telephone (text : string) : string :=
  telephone_loop tel_patterns text.

(** [\b[A-Za-z0-9._%+-]+@[A-Za-z0-9.-]+\.[A-Z|a-z]{2,}\b] *)
Definition email_pattern : regex :=
  seq [ WordB;
        plus (Cls (fun c => AZ c || az c || Py.isdigit c || oneof "._%+-" c));
        chr "@";
        plus (Cls (fun c => AZ c || az c || Py.isdigit c || oneof ".-" c));
        chr ".";
        Rep (Cls (fun c => AZ c || oneof "|" c || az c)) 2 None;
        WordB ].

Definition _extract_email (text : string) : string :=
  match search email_pattern text with
  | Some m => Py.strip m
  | None => ""
  end.

Definition hexdigit (c : ascii) : bool :=
  Py.isdigit c || range "a" "f" c || range "A" "F" c.

(** [https?://(?:[-\w.]|(?:%[\da-fA-F]{2}))+[/\w\.-]*\??[/\w\.-=&%]*];
    in the last class [\.-=] is the range from [.] to [=]. *)
Definition website_pattern : regex :=
  seq [ lit "http"; opt (chr "s"); lit "://";
        plus (Or (Cls (fun c => oneof "-." c || Py.isword c))
                 (Cat (chr "%") (times 2 (Cls hexdigit))));
        star (Cls (fun c => oneof "/.-" c || Py.isword c));
        opt (chr "?");
        star (Cls (fun c => oneof "/&%" c || Py.isword c || range "." "=" c)) ].

(** The loop over [re.findall(website_pattern, text)]. *)
Fixpoint first_external (matches : list string) : string :=
  match matches with
  | [] => ""
  | m :: rest =>
      if negb (Py.contains "myagedcare.gov.au" m)
         && negb (Py.contains "bot.sannysoft.com" m)
      then Py.strip m else first_external rest
  end.

Definition _extract_website (text : string) : string :=
  first_external (findall website_pattern text).

Definition states : regex :=
  alt [lit "ACT"; lit "NSW"; lit "NT"; lit "QLD"; lit "SA"; lit "TAS";
       lit "VIC"; lit "WA"].

Definition space : regex := Cls Py.isspace.

(** [(\d+[\sA-Za-z]+,?\s+[A-Z\s]+\s+\d{4}\s+(?:ACT|NSW|NT|QLD|SA|TAS|VIC|WA))] *)
Definition address_pattern : regex :=
  seq [ plus digit;
        plus (Cls (fun c => Py.isspace c || AZ c || az c));
        opt (chr ","); plus space;
        plus (Cls (fun c => AZ c || Py.isspace c));
        plus space; times 4 digit; plus space; states ].

(** The same pattern without the optional comma. *)
Definition address_pattern2 : regex :=
  seq [ plus digit;
        plus (Cls (fun c => Py.isspace c || AZ c || az c));
        plus space;
        plus (Cls (fun c => AZ c || Py.isspace c));
        plus space; times 4 digit; plus space; states ].

Definition _extract_address (text : string) : string :=
  match search address_pattern (Py.upper text) with
  | Some m => Py.strip m
  | None =>
      match search address_pattern2 (Py.upper text) with
      | Some m => Py.strip m
      | None => ""
      end
  end.

(** [any(keyword in line.lower() for keyword in [...])] *)
Definition nav_keywords : list string :=
  ["home"; "find a provider"; "search"; "print"; "share"].

Definition has_nav_keyword (line : string) : bool :=
  existsb (fun keyword => Py.contains keyword (Py.lower line)) nav_keywords.

(** [any(word[0].isupper() for word in line.split() if word)] *)
Definition word_starts_upper (word : string) : bool :=
  match word with
  | String c _ => Py.isupper_char c
  | EmptyString => false
  end.

Definition some_word_capitalised (line : string) : bool :=
  existsb word_starts_upper (Py.split_ws line).

(** The test applied to one stripped line. *)
Definition name_like (line : string) : bool :=
  (3 <? Py.len line) && (Py.len line <? 100)
  && ((Py.isupper line || some_word_capitalised line)
      && negb (has_nav_keyword line)).

Fixpoint name_loop (lines : list string) : string :=
  match lines with
  | [] => ""
  | line :: rest =>
      let line := Py.strip line in
      if name_like line then line else name_loop rest
  end.

Definition _extract_company_name_from_text (text : string) : string :=
  name_loop (Py.split_on Py.newline text).

(** *** Configuration and data *)

Definition SEARCH_TYPES : list string := ["aged-care-homes"; "help-at-home"].

(** [LINK_PER_SEARCH]: [None], zero or a negative number lift the cap. *)
Definition LINK_PER_SEARCH : option Z := Some 2%Z.

Record ProviderData : Type := {
  company_name : string;
  address : string;
  suburb : string;
  state : string;
  postcode : string;
  telephone : string;
  email : string;
  website : string;
  search_type : string;
  search_location : string;
  result_url : string
}.

(** [dataclasses.asdict]. *)
Definition asdict (p : ProviderData) : gmap string string :=
  list_to_map
    [ ("company_name", company_name p); ("address", address p);
      ("suburb", suburb p); ("state", state p); ("postcode", postcode p);
      ("telephone", telephone p); ("email", email p); ("website", website p);
      ("search_type", search_type p); ("search_location", search_location p);
      ("result_url", result_url p) ].

(** [d.get(key, '')]. *)
Definition get (d : gmap string string) (key : string) : string :=
  default "" (d !! key).

(** One line of [output/output.csv]: the cells before quoting. *)
Definition Row : Type := list string.

(** The object state together with the file it owns: [self.results],
    [self.existing_telephones], and [output/output.csv], which is [None]
    as long as the file does not exist. *)
Record Scraper : Type := {
  results : list (gmap string string);
  existing_telephones : gset string;
  output_csv : option (list Row)
}.

(** *** The telephone set *)

Fixpoint remove_chars (p : ascii -> bool) (s : string) : string :=
  match s with
  | EmptyString => EmptyString
  | String c s' => if p c then remove_chars p s' else String c (remove_chars p s')
  end.

(** [re.sub(r'[\s\-\(\)]', '', telephone.strip())] *)
Definition clean_telephone (telephone : string) : string :=
  if negb (Py.truthy telephone) then ""
  else remove_chars (fun c => Py.isspace c || oneof "-()" c) (Py.strip telephone).

Definition is_duplicate_telephone (self : Scraper) (telephone : string) : bool :=
  if negb (Py.truthy telephone) then false
  else bool_decide (clean_telephone telephone ∈ existing_telephones self).

Definition add_telephone_to_memory (self : Scraper) (telephone : string) : Scraper :=
  if Py.truthy telephone then
    let clean_tel := clean_telephone telephone in
    if Py.truthy clean_tel then
      {| results := results self;
         existing_telephones := {[clean_tel]} ∪ existing_telephones self;
         output_csv := output_csv self |}
    else self
  else self.

(** *** Search query *)

(** A location of [postcodes.json] with the three keys present. *)
Definition location_of (locality state postcode : string) : gmap string string :=
  list_to_map [("locality", locality); ("state", state); ("postcode", postcode)].

Definition construct_search_query (location : gmap string string) : string :=
  let locality := Py.upper (get location "locality") in
  let state := Py.upper (get location "state") in
  let postcode := get location "postcode" in
  Py.strip (locality +:+ " " +:+ state +:+ " " +:+ postcode).

Definition _parse_search_location (search_location : string)
    : string * string * string :=
  match Py.split_ws (Py.upper search_location) with
  | suburb :: state :: postcode :: _ => (suburb, state, postcode)
  | _ => ("", "", "")
  end.

(** *** Results page: popup, no-results check, readiness *)

(** What the results page answers at one instant.  [shown sel] says that
    [page.locator(sel)] has a match and [is_visible()] returns true,
    [first_visible sel] the same for [locator.first], [clicked sel] that
    [click()] on it succeeds; a query that raises answers false, which is
    what the handlers of the source make of it. *)
Record Snapshot : Type := {
  shown : string -> bool;
  first_visible : string -> bool;
  clicked : string -> bool;
  current_url : string
}.

(** The page over time: the snapshot seen after so many milliseconds of
    [wait_for_timeout]. *)
Definition Timeline : Type := nat -> Snapshot.

(** What the detector did so far: the time waited, the durations of the
    [wait_for_timeout] calls and the number of [check_no_results] calls. *)
Record Clock : Type := {
  now : nat;
  sleeps : list nat;
  checks : nat
}.

Definition start : Clock := {| now := 0; sleeps := []; checks := 0 |}.

Definition wait_for_timeout (ms : nat) (c : Clock) : Clock :=
  {| now := now c + ms; sleeps := sleeps c ++ [ms]; checks := checks c |}.

Definition popup_selectors : list string :=
  [ "button:has-text('Got it')"; "button:has-text('GOT IT')";
    "[aria-label*='Got it']"; ".popover button:has-text('Got it')";
    "button >> text=Got it" ].

Fixpoint popup_loop (selectors : list string) (page : Timeline) (c : Clock)
    : bool * Clock :=
  match selectors with
  | [] => (false, c)
  | selector :: rest =>
      if shown (page (now c)) selector && clicked (page (now c)) selector
      then (true, wait_for_timeout 1500 c)
      else popup_loop rest page c
  end.

Definition handle_popup (page : Timeline) (c : Clock) : bool * Clock :=
  popup_loop popup_selectors page c.

Definition no_results_indicators : list string :=
  [ "text=No providers found"; "text=No results found";
    "text=Try adjusting your search"; "text=We couldn't find any providers";
    "text=0 results"; "[data-testid*='no-results']"; ".no-results";
    "[class*='no-results']" ].

(** The "no results" signal of a snapshot. *)
Definition no_results_signal (snap : Snapshot) : bool :=
  existsb (shown snap) no_results_indicators
  || (Py.contains "/find-a-provider/search" (current_url snap)
      && negb (Py.contains "results" (current_url snap))).

Definition check_no_results (page : Timeline) (c : Clock) : bool * Clock :=
  (no_results_signal (page (now c)),
   {| now := now c; sleeps := sleeps c; checks := S (checks c) |}).

Definition result_selectors : list string :=
  [ "article"; "li[role='article']"; "[data-testid*='result']";
    "[class*='result']"; "[class*='card']"; "h2" ].

(** The "results" signal: some result selector has a visible first match. *)
Definition results_signal (snap : Snapshot) : bool :=
  existsb (first_visible snap) result_selectors.

(** The [return] statement by which [wait_for_results] leaves: [Found]
    returns [True]; [NoResults] and [Unknown] both return [False], the
    latter after printing that it could not tell. *)
Inductive Exit : Type := Found | NoResults | Unknown.

Definition returned (e : Exit) : bool :=
  match e with
  | Found => true
  | NoResults | Unknown => false
  end.

(** [for attempt in range(attempts)] and the code after the loop. *)
Fixpoint poll (attempts : nat) (page : Timeline) (c : Clock) : Exit * Clock :=
  match attempts with
  | O =>
      let '(none, c) := check_no_results page c in
      if none then (NoResults, c) else (Unknown, c)
  | S attempts' =>
      let '(_, c) := handle_popup page c in
      let '(none, c) := check_no_results page c in
      if none then (NoResults, c)
      else if results_signal (page (now c)) then (Found, c)
      else poll attempts' page (wait_for_timeout 500 c)
  end.

Definition wait_for_results_from (page : Timeline) (c : Clock) : Exit * Clock :=
  let '(_, c) := handle_popup page c in
  let '(none, c) := check_no_results page c in
  if none then (NoResults, c) else poll 30 page c.

Definition wait_for_results (page : Timeline) : bool :=
  returned (fst (wait_for_results_from page start)).

(** *** Results page: link harvesting *)

(** A result card: for a link selector, the [href] attributes of the
    anchors it matches inside the card, in DOM order ([None] for an anchor
    without the attribute or whose read raises); [None] for the selector
    when counting its matches raises. *)
Record Card : Type := {
  hrefs_of : string -> option (list (option string))
}.

(** The loaded results page: the cards a card selector matches ([None]
    when counting them raises) and the [href]s of the page-wide anchors
    [a[href*='/find-a-provider/']]. *)
Record ResultsPage : Type := {
  cards_of : string -> option (list Card);
  provider_anchors : list (option string)
}.

Definition card_selectors : list string :=
  [ "div.flex.w-full.content-center.bg-neutral-00"; "article";
    "li[role='article']"; "[data-testid*='result']"; "[class*='card']";
    "div[class*='flex'][class*='w-full'][class*='bg-neutral-00']" ].

Definition link_selectors : list string :=
  [ "a[href*='/find-a-provider/']"; "a[href*='search/']";
    "a:has-text('Show details')"; "h3 a"; "a" ].

(** [href if href.startswith('http') else f"https://www.myagedcare.gov.au{href}"] *)
Definition full_url_of (href : string) : string :=
  if Py.startswith "http" href then href
  else "https://www.myagedcare.gov.au" +:+ href.

(** ['/find-a-provider/' in full_url and 'results' not in full_url
     and full_url not in links] *)
Definition is_new_detail_link (full_url : string) (links : list string) : bool :=
  Py.contains "/find-a-provider/" full_url
  && negb (Py.contains "results" full_url)
  && negb (Py.in_list full_url links).

(** [for j in range(link_count)]: append the first [href] that passes the
    filter and [break]. *)
Fixpoint first_link (hrefs : list (option string)) (links : list string)
    : list string :=
  match hrefs with
  | [] => links
  | Some href :: rest =>
      if Py.truthy href && is_new_detail_link (full_url_of href) links
      then links ++ [full_url_of href]
      else first_link rest links
  | None :: rest => first_link rest links
  end.

(** [for link_selector in link_selectors] on card number [i]: the loop
    is left as soon as [links] has more than [i] entries. *)
Fixpoint link_selector_loop (selectors : list string) (card : Card) (i : nat)
    (links : list string) : list string :=
  match selectors with
  | [] => links
  | link_selector :: rest =>
      match hrefs_of card link_selector with
      | None => link_selector_loop rest card i links
      | Some hrefs =>
          let links := first_link hrefs links in
          if i <? length links then links
          else link_selector_loop rest card i links
      end
  end.

(** [for i in range(card_count)]. *)
Fixpoint card_loop (cards : list Card) (i : nat) (links : list string)
    : list string :=
  match cards with
  | [] => links
  | card :: rest =>
      card_loop rest (S i) (link_selector_loop link_selectors card i links)
  end.

(** [for card_selector in card_selectors]: every selector is visited. *)
Fixpoint card_selector_loop (selectors : list string) (page : ResultsPage)
    (links : list string) : list string :=
  match selectors with
  | [] => links
  | card_selector :: rest =>
      match cards_of page card_selector with
      | None => card_selector_loop rest page links
      | Some cards => card_selector_loop rest page (card_loop cards 0 links)
      end
  end.

(** The page-wide scan, run when the cards gave nothing: no [break]. *)
Fixpoint broad_loop (hrefs : list (option string)) (links : list string)
    : list string :=
  match hrefs with
  | [] => links
  | Some href :: rest =>
      if Py.truthy href && is_new_detail_link (full_url_of href) links
      then broad_loop rest (links ++ [full_url_of href])
      else broad_loop rest links
  | None :: rest => broad_loop rest links
  end.

(** The links found before the post-filter and the cap. *)
Definition harvested (page : ResultsPage) : list string :=
  let links := card_selector_loop card_selectors page [] in
  match links with
  | [] => broad_loop (provider_anchors page) links
  | _ => links
  end.

(** [links[:n]] under [if LINK_PER_SEARCH and LINK_PER_SEARCH > 0]. *)
Definition apply_cap (cap : option Z) (links : list string) : list string :=
  match cap with
  | Some n => if (0 <? n)%Z then firstn (Z.to_nat n) links else links
  | None => links
  end.

(** [extract_all_links_from_cards] with the configured cap as argument. *)
Definition extract_all_links_from_cards_with (cap : option Z)
    (page : ResultsPage) : list string :=
  let links := harvested page in
  let links := List.filter (fun link => negb (Py.contains "results" link)) links in
  apply_cap cap links.

Definition extract_all_links_from_cards (page : ResultsPage) : list string :=
  extract_all_links_from_cards_with LINK_PER_SEARCH page.

(** *** Detail page *)

(** The answer of [inner_text()] on a locator: the text, or the message
    of the exception raised (no element to read, or several). *)
Inductive InnerText : Type :=
| Text (s : string)
| Raises (msg : string).

(** A loaded detail page: title, final URL, HTML source, and the inner
    text of each content selector and of the first match of each name
    selector. *)
Record DetailPage : Type := {
  title : string;
  url : string;
  content : string;
  inner_text : string -> InnerText;
  first_inner_text : string -> InnerText
}.

Definition content_selectors : list string :=
  [ "main"; "[role='main']"; ".main-content"; "article"; ".content";
    "#content"; ".provider-details"; "[data-testid*='details']"; "body" ].

Fixpoint text_loop (selectors : list string) (page : DetailPage) : option string :=
  match selectors with
  | [] => None
  | selector :: rest =>
      match inner_text page selector with
      | Text text =>
          if Py.truthy text && (100 <? Py.len (Py.strip text))
          then Some (Py.strip text) else text_loop rest page
      | Raises _ => text_loop rest page
      end
  end.

Definition extract_all_text_from_page (page : DetailPage) : string :=
  match text_loop content_selectors page with
  | Some text => text
  | None =>
      match inner_text page "body" with
      | Text body_text => Py.strip body_text
      | Raises msg => "Error extracting text: " +:+ msg
      end
  end.

Definition name_selectors : list string :=
  [ "h1"; "h1[data-testid*='name']"; ".provider-name"; "header h1";
    "[data-testid*='provider-name']"; "h2:first-of-type" ].

(** [text.strip().split('\n')[0]] *)
Definition first_line (s : string) : string :=
  hd "" (Py.split_on Py.newline s).

Fixpoint element_name_loop (selectors : list string) (page : DetailPage) : string :=
  match selectors with
  | [] => ""
  | selector :: rest =>
      match first_inner_text page selector with
      | Text text =>
          if Py.truthy text && (0 <? Py.len (Py.strip text)) then
            let clean_text := first_line (Py.strip text) in
            if Py.len clean_text <? 100 then clean_text
            else element_name_loop rest page
          else element_name_loop rest page
      | Raises _ => element_name_loop rest page
      end
  end.

Definition _extract_company_name_from_elements (page : DetailPage) : string :=
  element_name_loop name_selectors page.

Definition not_found_text : string := "Sorry, we can't find".
Definition landing_copy : string := "Find aged care providers to support your needs".

(** The fields read from the page once it passed the gates. *)
Record Candidate : Type := {
  c_company_name : string;
  c_telephone : string;
  c_email : string;
  c_website : string;
  c_address : string
}.

(** The gates of [scrape_detail_page] up to the duplicate check: the URL
    test, the 404 test, the text gates and the company-name gate. *)
Definition candidate (page : DetailPage) : option Candidate :=
  if Py.contains "results" (url page)
     || (Py.contains "/find-a-provider/search" (url page)
         && negb (Py.contains "/find-a-provider/search/" (url page)))
  then None
  else if Py.contains not_found_text (title page)
          || Py.contains "404" (title page)
          || Py.contains "Page not found" (content page)
  then None
  else
    let raw_text := extract_all_text_from_page page in
    if (Py.len (Py.strip raw_text) <? 100) || Py.contains not_found_text raw_text
    then None
    else if Py.contains landing_copy raw_text then None
    else
      let company_name := _extract_company_name_from_elements page in
      let telephone := _extract_telephone raw_text in
      let email := _extract_email raw_text in
      let website := _extract_website raw_text in
      let address := _extract_address raw_text in
      let company_name :=
        if negb (Py.truthy company_name)
        then _extract_company_name_from_text raw_text else company_name in
      if negb (Py.truthy company_name) || String.eqb company_name landing_copy
      then None
      else Some {| c_company_name := company_name; c_telephone := telephone;
                   c_email := email; c_website := website;
                   c_address := address |}.

(** [scrape_detail_page]; [nav] is [None] when [page.goto] raises. *)
Definition scrape_detail_page (self : Scraper) (nav : option DetailPage)
    (link search_type search_location : string) : option ProviderData :=
  match nav with
  | None => None
  | Some page =>
      match candidate page with
      | None => None
      | Some c =>
          if Py.truthy (c_telephone c)
             && is_duplicate_telephone self (c_telephone c)
          then None
          else
            let '(suburb, state, postcode) :=
              _parse_search_location search_location in
            Some {| company_name := c_company_name c;
                    address := c_address c;
                    suburb := suburb;
                    state := state;
                    postcode := postcode;
                    telephone := c_telephone c;
                    email := c_email c;
                    website := c_website c;
                    search_type := search_type;
                    search_location := search_location;
                    result_url := link |}
      end
  end.

(** *** Persistence *)

Definition fieldnames : list string :=
  [ "company_name"; "address"; "suburb"; "state"; "postcode";
    "telephone"; "email"; "website" ].

(** The company name as written: cut at the first line break. *)
Definition written_name (company_name : string) : string :=
  if Py.truthy company_name && Py.contains (String Py.newline "") company_name
  then Py.strip (first_line company_name)
  else company_name.

(** The loop body of [save_to_csv]: the dictionary [csv_row] is filled
    field by field, its company name is cleaned, and
    [writer.writerow(csv_row)] writes its values in the order of
    [fieldnames]. *)
Definition csv_row (row : gmap string string) : Row :=
  let csv_row : gmap string string :=
    fold_left (fun d field => <[field := get row field]> d) fieldnames ∅ in
  let csv_row :=
    <["company_name" := written_name (get csv_row "company_name")]> csv_row in
  map (get csv_row) fieldnames.

Definition save_to_csv (self : Scraper) : Scraper :=
  match results self with
  | [] => self
  | _ =>
      let old :=
        match output_csv self with
        | Some lines => lines
        | None => [fieldnames]
        end in
      {| results := [];
         existing_telephones := existing_telephones self;
         output_csv := Some (old ++ map csv_row (results self)) |}
  end.

(** *** The crawl *)

(** What the site answers for one (location, search type) pair:
    whether [goto_with_retry] gets through, the results page over time and
    once loaded, and the page behind each detail link. *)
Record Pair : Type := {
  reachable : bool;
  timeline : Timeline;
  results_page : ResultsPage;
  detail_page : string -> option DetailPage
}.

(** The body of the innermost loop; the flag is [if provider_data:]. *)
Definition scrape_link (self : Scraper) (pair : Pair)
    (search_type search_query link : string) : Scraper * bool :=
  match scrape_detail_page self (detail_page pair link) link search_type
          search_query with
  | Some provider_data =>
      let self := add_telephone_to_memory self (telephone provider_data) in
      ({| results := results self ++ [asdict provider_data];
          existing_telephones := existing_telephones self;
          output_csv := output_csv self |}, true)
  | None => (self, false)
  end.

(** [for i, link in enumerate(detail_links, 1)], with the counter
    [successful_scrapes]. *)
Fixpoint scrape_links (self : Scraper) (pair : Pair)
    (search_type search_query : string) (links : list string)
    (successful_scrapes : nat) : Scraper * nat :=
  match links with
  | [] => (self, successful_scrapes)
  | link :: rest =>
      let '(self, ok) := scrape_link self pair search_type search_query link in
      scrape_links self pair search_type search_query rest
        (if ok then S successful_scrapes else successful_scrapes)
  end.

(** One (location, search type) pair; the number is [successful_scrapes],
    zero for a pair that is skipped. *)
Definition scrape_pair (self : Scraper) (pair : Pair)
    (search_type search_query : string) : Scraper * nat :=
  if negb (reachable pair) then (self, 0)
  else if negb (wait_for_results (timeline pair)) then (self, 0)
  else
    match extract_all_links_from_cards (results_page pair) with
    | [] => (self, 0)
    | detail_links =>
        scrape_links self pair search_type search_query detail_links 0
    end.

(** [for search_type in SEARCH_TYPES]. *)
Fixpoint scrape_types (self : Scraper) (site : string -> Pair)
    (search_query : string) (types : list string) : Scraper * nat :=
  match types with
  | [] => (self, 0)
  | search_type :: rest =>
      let '(self, n) := scrape_pair self (site search_type) search_type search_query in
      let '(self, m) := scrape_types self site search_query rest in
      (self, n + m)
  end.

(** [for location in self.locations], saving after each location.  The
    site is indexed by the position of the location and the search type. *)
Fixpoint scrape_locations (self : Scraper) (site : nat -> string -> Pair)
    (index : nat) (locations : list (gmap string string)) : Scraper * nat :=
  match locations with
  | [] => (self, 0)
  | location :: rest =>
      let search_query := construct_search_query location in
      let '(self, n) := scrape_types self (site index) search_query SEARCH_TYPES in
      let self := save_to_csv self in
      let '(self, m) := scrape_locations self site (S index) rest in
      (self, n + m)
  end.

(** [run]: the final state and the number of records accepted, the sum
    of the [successful_scrapes] counters. *)
Definition run (self : Scraper) (site : nat -> string -> Pair)
    (locations : list (gmap string string)) : Scraper * nat :=
  scrape_locations self site 0 locations.

(** *** Search URL *)

Definition BASE_URL : string :=
  "https://www.myagedcare.gov.au/find-a-provider/search/results".

Definition HELP_AT_HOME_SERVICES : list string :=
  [ "Assistive technology prescription and clinical support";
    "Client advisory services";
    "Community and centre-based respite";
    "Mobility products";
    "Self-care products" ].

Definition DISTANCE : string := "250".

(** [construct_search_url] with the distance filter as argument. *)
Definition construct_search_url_with (distance search_type location_query : string)
    (page : Z) : string :=
  let base_url :=
    BASE_URL +:+ "?searchType=" +:+ search_type +:+ "&location="
    +:+ Urllib.quote_plus location_query +:+ "&sort=relevance" in
  let base_url :=
    if Py.truthy distance && Py.truthy (Py.strip distance)
    then base_url +:+ "&distance=" +:+ distance else base_url in
  let base_url :=
    if String.eqb search_type "help-at-home"
    then base_url +:+ "&services="
         +:+ Urllib.quote_plus (Py.join "|" HELP_AT_HOME_SERVICES)
    else base_url in
  base_url +:+ "&page=" +:+ Urllib.str_of_int page +:+ "&hasSearched=true".

Definition construct_search_url (search_type location_query : string)
    (page : Z) : string :=
  construct_search_url_with DISTANCE search_type location_query page.

(** *** Navigation with retries *)

Definition NAV_RETRIES : nat := 3.

(** [for attempt in range(NAV_RETRIES)], from attempt number [attempt] on
    with [remaining] attempts to go.  [loads k] says that the try block of
    attempt [k] gets through; [None] is the exception raised after the
    last attempt; the flag is the value returned. *)
Fixpoint goto_loop (remaining attempt : nat) (loads : nat -> bool)
    (page : Timeline) (c : Clock) : option (bool * Clock) :=
  match remaining with
  | O => Some (false, c)
  | S remaining' =>
      if loads attempt then
        let c := wait_for_timeout 2000 c in
        let '(_, c) := handle_popup page c in
        Some (true, c)
      else if attempt =? NAV_RETRIES - 1 then None
      else goto_loop remaining' (S attempt) loads page
             (wait_for_timeout (1000 * (attempt + 1)) c)
  end.

Definition goto_with_retry (loads : nat -> bool) (page : Timeline) (c : Clock)
    : option (bool * Clock) :=
  goto_loop NAV_RETRIES 0 loads page c.

(** *** Start-up: the telephones of an earlier run *)

(** The dictionary [csv.DictReader] makes of one row: the cells under the
    field names, a later cell of the same name replacing an earlier one,
    and [None] under the names a short row does not reach. *)
Definition dict_of_row (fieldnames row : list string)
    : gmap string (option string) :=
  let d :=
    fold_left (fun d kv => <[fst kv := Some (snd kv)]> d)
      (combine fieldnames row) ∅ in
  fold_left (fun d key => <[key := None]> d)
    (skipn (length row) fieldnames) d.

(** The loop body of [load_existing_telephones]. *)
Definition load_row (fieldnames : list string) (telephones : gset string)
    (row : Row) : gset string :=
  match row with
  | [] => telephones
  | _ =>
      match dict_of_row fieldnames row !! "telephone" with
      | Some (Some telephone) =>
          if Py.truthy telephone && Py.truthy (Py.strip telephone) then
            let clean_tel := clean_telephone telephone in
            if Py.truthy clean_tel then {[clean_tel]} ∪ telephones
            else telephones
          else telephones
      | _ => telephones
      end
  end.

(** [load_existing_telephones] on the rows [csv.reader] yields for the
    file; the first row gives the field names, empty rows are passed
    over. *)
Definition load_existing_telephones (file : option (list Row)) : gset string :=
  match file with
  | None => ∅
  | Some [] => ∅
  | Some (fieldnames :: rows) => fold_left (load_row fieldnames) rows ∅
  end.

(** [__init__], given the file found at start-up. *)
Definition init (file : option (list Row)) : Scraper :=
  {| results := [];
     existing_telephones := load_existing_telephones file;
     output_csv := file |}.

End MyAgedCareScraper.

Import MyAgedCareScraper.

(* ================================================================== *)
(** ** Vocabulary of the statements, and fixtures *)
(* ================================================================== *)

(** A token: a non-empty string without whitespace. *)
Definition token (s : string) : Prop :=
  Py.truthy s = true /\ Py.any_str Py.isspace s = false.

(** The company name the parser settles on: the heading, else the text. *)
Definition derived_name (page : DetailPage) : string :=
  if Py.truthy (_extract_company_name_from_elements page)
  then _extract_company_name_from_elements page
  else _extract_company_name_from_text (extract_all_text_from_page page).

(** A run of exactly [n] digits. *)
Definition digits (n : nat) (s : string) : Prop :=
  String.length s = n /\ Py.all_str Py.isdigit s = true.

(** Three runs of digits with a separator between them. *)
Definition grouped (a b c : nat) (sep : ascii) (m : string) : Prop :=
  exists x y z : string,
    digits a x /\ digits b y /\ digits c z
    /\ m = x +:+ String sep (y +:+ String sep z).

(** The shapes of the six telephone patterns, in their order. *)
Definition phone_shapes : list (string -> Prop) :=
  [ grouped 2 4 4 " "; grouped 4 3 3 " "; grouped 2 4 4 "-";
    grouped 4 3 3 "-"; digits 8; digits 10 ].

Definition lines (l : list string) : string :=
  Py.join (String Py.newline "") l.

(** A scraper that has seen nothing, with no output file yet. *)
Definition fresh : Scraper :=
  {| results := []; existing_telephones := ∅; output_csv := None |}.

(** The text of a provider page with a name, a phone and an email, and
    neither address nor website. *)
Definition sunshine_text : string :=
  lines [ "SUNSHINE AGED CARE";
          "Phone: 02 8388 8000";
          "Email: info@example.com.au";
          "We provide residential aged care and respite services for older Australians in a friendly setting." ].

(** A detail page whose main element holds [text]; it has no heading
    element, so the company name comes from the text. *)
Definition page_with_text (text : string) : DetailPage :=
  {| title := "Provider details | My Aged Care";
     url := "https://www.myagedcare.gov.au/find-a-provider/aged-care-homes/1234";
     content := "<html><body><main>provider</main></body></html>";
     inner_text := fun selector =>
       if String.eqb selector "main" then Text text
       else if String.eqb selector "body" then Text text
       else Raises "no element";
     first_inner_text := fun _ => Raises "no element" |}.

Definition sunshine_page : DetailPage := page_with_text sunshine_text.

Definition sunshine_candidate : Candidate :=
  {| c_company_name := "SUNSHINE AGED CARE";
     c_telephone := "02 8388 8000";
     c_email := "info@example.com.au";
     c_website := "";
     c_address := "" |}.

Definition sunshine_link : string :=
  "https://www.myagedcare.gov.au/find-a-provider/aged-care-homes/1234".

(** A results page without cards or anchors, and a page that shows
    nothing at all at any time. *)
Definition empty_results_page : ResultsPage :=
  {| cards_of := fun _ => Some []; provider_anchors := [] |}.

Definition blank : Snapshot :=
  {| shown := fun _ => false; first_visible := fun _ => false;
     clicked := fun _ => false;
     current_url := "https://www.myagedcare.gov.au/find-a-provider/search/results" |}.

(** A pair whose every detail link leads to the Sunshine page. *)
Definition sunshine_pair : Pair :=
  {| reachable := true;
     timeline := fun _ => blank;
     results_page := empty_results_page;
     detail_page := fun _ => Some sunshine_page |}.

(** A results page that never shows a "no results" signal nor a
    "results" signal. *)
Definition never_resolves (page : Timeline) : Prop :=
  forall t : nat,
    no_results_signal (page t) = false /\ results_signal (page t) = false.

(** The number of 500 ms waits among the waits of the detector. *)
Definition polls (c : Clock) : nat := count_occ Nat.eq_dec (sleeps c) 500.


(** A site on which no page can be reached. *)
Definition dead_site : nat -> string -> Pair :=
  fun _ _ =>
    {| reachable := false; timeline := fun _ => blank;
       results_page := empty_results_page; detail_page := fun _ => None |}.

(** The shape of a detail link: the provider path and no "results". *)
Definition detail_shaped (full_url : string) : bool :=
  Py.contains "/find-a-provider/" full_url
  && negb (Py.contains "results" full_url).

(** The test of one anchor in the harvesting loops. *)
Definition passes (links : list string) (href : string) : bool :=
  Py.truthy href && is_new_detail_link (full_url_of href) links.

(** [href] is the attribute of an anchor the harvester can see: inside a
    card of one of the card selectors, under one of the link selectors,
    or among the page-wide provider anchors. *)
Definition on_page (page : ResultsPage) (href : string) : Prop :=
  (exists (card_selector link_selector : string) (cards : list Card)
          (card : Card) (hrefs : list (option string)),
      In card_selector card_selectors
      /\ cards_of page card_selector = Some cards
      /\ In card cards
      /\ In link_selector link_selectors
      /\ hrefs_of card link_selector = Some hrefs
      /\ In (Some href) hrefs)
  \/ In (Some href) (provider_anchors page).

(** What the harvesting loops keep true of the links collected so far:
    no link twice, and every link the absolute form of a non-empty href
    of the page, of detail shape. *)
Definition collected_on (page : ResultsPage) (links : list string) : Prop :=
  List.NoDup links
  /\ forall link, In link links ->
       exists href, on_page page href /\ Py.truthy href = true
                    /\ detail_shaped link = true /\ link = full_url_of href.

(** [more] extends [links] at its end. *)
Definition extends (links more : list string) : Prop :=
  exists added, more = links ++ added.

(** A card with the given anchors: every anchor under the selectors
    [a[href*='/find-a-provider/']] and [a], the anchors of [details]
    under [a:has-text('Show details')], those of [heading] under [h3 a]. *)
Definition card_with (anchors details heading : list string) : Card :=
  {| hrefs_of := fun link_selector =>
       if String.eqb link_selector "a[href*='/find-a-provider/']"
       then Some (map Some anchors)
       else if String.eqb link_selector "a:has-text('Show details')"
       then Some (map Some details)
       else if String.eqb link_selector "h3 a"
       then Some (map Some heading)
       else if String.eqb link_selector "a"
       then Some (map Some anchors)
       else Some [] |}.

Definition href_a : string := "/find-a-provider/aged-care-homes/a".
Definition href_b : string := "/find-a-provider/aged-care-homes/b".

Definition card_a : Card := card_with [href_a] [] [href_a].
Definition card_b : Card := card_with [href_b] [] [href_b].

(** The first card selector matches one card, [article] another one. *)
Definition page_two_selectors : ResultsPage :=
  {| cards_of := fun card_selector =>
       if String.eqb card_selector "div.flex.w-full.content-center.bg-neutral-00"
       then Some [card_a]
       else if String.eqb card_selector "article" then Some [card_b]
       else Some [];
     provider_anchors := [Some href_a; Some href_b] |}.


(* ================================================================== *)
(** ** Vocabulary of the further statements *)
(* ================================================================== *)

(** The characters [clean_telephone] removes. *)
Definition separator (c : ascii) : bool :=
  Py.isspace c || Re.oneof "-()" c.

(** A telephone set holds keys only: non-empty strings that cleaning
    leaves alone. *)
Definition normalized (telephones : gset string) : Prop :=
  forall key : string,
    key ∈ telephones -> key <> "" /\ clean_telephone key = key.

(** [part] occurs in [whole]. *)
Definition infix (part whole : string) : Prop :=
  exists before after : string, whole = before +:+ part +:+ after.

(** Every character class of the pattern lies inside [allowed]. *)
Fixpoint classes_in (allowed : ascii -> bool) (r : Re.regex) : Prop :=
  match r with
  | Re.Eps | Re.WordB => True
  | Re.Cls p => forall c, p c = true -> allowed c = true
  | Re.Cat r1 r2 | Re.Or r1 r2 =>
      classes_in allowed r1 /\ classes_in allowed r2
  | Re.Rep body _ _ => classes_in allowed body
  end.

Definition not_space (c : ascii) : bool := negb (Py.isspace c).

(** The character classes of the email pattern. *)
Definition email_local_char (c : ascii) : bool :=
  Re.AZ c || Re.az c || Py.isdigit c || Re.oneof "._%+-" c.
Definition email_domain_char (c : ascii) : bool :=
  Re.AZ c || Re.az c || Py.isdigit c || Re.oneof ".-" c.
Definition email_tld_char (c : ascii) : bool :=
  Re.AZ c || Re.oneof "|" c || Re.az c.

(** [local@domain.tld], the last part of two characters or more. *)
Definition email_shaped (e : string) : Prop :=
  exists local domain tld : string,
    e = local +:+ "@" +:+ domain +:+ "." +:+ tld
    /\ local <> "" /\ domain <> "" /\ 2 <= String.length tld
    /\ Py.all_str email_local_char local = true
    /\ Py.all_str email_domain_char domain = true
    /\ Py.all_str email_tld_char tld = true.

(** [http://host...] or [https://host...], without whitespace. *)
Definition website_shaped (w : string) : Prop :=
  exists rest : string,
    (w = "http://" +:+ rest \/ w = "https://" +:+ rest)
    /\ rest <> "" /\ Py.any_str Py.isspace w = false.

Definition state_codes : list string :=
  ["ACT"; "NSW"; "NT"; "QLD"; "SA"; "TAS"; "VIC"; "WA"].

(** A street number in front, and at the end four digits, whitespace and
    a state code. *)
Definition address_shaped (a : string) : Prop :=
  exists (d : ascii) (middle postcode gap code : string),
    a = String d middle +:+ postcode +:+ gap +:+ code
    /\ Py.isdigit d = true
    /\ digits 4 postcode
    /\ gap <> "" /\ Py.all_str Py.isspace gap = true
    /\ In code state_codes.

(** The file after [rows] have been appended to [file] by flushes: a
    file that did not exist gets the header first. *)
Definition appended (file : option (list Row)) (rows : list Row)
    : option (list Row) :=
  match file, rows with
  | None, [] => None
  | None, _ => Some (fieldnames :: rows)
  | Some old, _ => Some (old ++ rows)
  end.

(** The telephone column of a written row. *)
Definition telephone_cell (row : Row) : string := nth 5 row "".

(** The keys of the telephones that have one. *)
Definition has_key (telephone : string) : bool :=
  Py.truthy (clean_telephone telephone).

Definition keys (telephones : list string) : list string :=
  map clean_telephone (List.filter has_key telephones).

(** The telephones of the batch not flushed yet. *)
Definition pending (self : Scraper) : list string :=
  map (fun row => get row "telephone") (results self).

(** A file as the scraper writes it: the header, then rows of eight
    cells. *)
Definition scraper_file (file : option (list Row)) : Prop :=
  match file with
  | None => True
  | Some [] => False
  | Some (header :: rows) =>
      header = fieldnames /\ Forall (fun row => length row = 8) rows
  end.

(** Where a run stands after [n] accepted records, having started with
    the telephone set [seen] and the file [file]: the rows appended so
    far together with the batch are the accepted records, and their keys
    are new, distinct and exactly what the set has gained. *)
Definition progress (seen : gset string) (file : option (list Row)) (n : nat)
    (self : Scraper) : Prop :=
  exists rows : list Row,
    output_csv self = appended file rows
    /\ Forall (fun row => length row = 8) rows
    /\ length rows + length (results self) = n
    /\ existing_telephones self
       = seen ∪ list_to_set (keys (map telephone_cell rows ++ pending self))
    /\ List.NoDup (keys (map telephone_cell rows ++ pending self))
    /\ (forall key, In key (keys (map telephone_cell rows ++ pending self)) ->
                    key ∉ seen).

(** The waits after [failed] failed navigation attempts. *)
Definition backoff (failed : nat) : list nat :=
  map (fun attempt => 1000 * (attempt + 1)) (seq 0 failed).

(** The characters an encoded query is made of. *)
Definition url_char (c : ascii) : bool :=
  Urllib.always_safe c || Re.oneof "+%" c.

(** What a name has that [scrape_detail_page] can accept. *)
Definition one_line_name (name : string) : Prop :=
  name <> "" /\ Py.len name < 100
  /\ Py.contains (String Py.newline "") name = false.

(** [selector] does not give the page text: it cannot be read, or what
    it holds has at most 100 characters once stripped. *)
Definition too_short (page : DetailPage) (selector : string) : Prop :=
  match inner_text page selector with
  | Text text => Py.len (Py.strip text) <= 100
  | Raises _ => True
  end.

#[local] Arguments String.append !_ _ : simpl nomatch.

(* ================================================================== *)
(** ** Facts about strings *)
(* ================================================================== *)

Section StringFacts.

Local Ltac by_cases_on c :=
  destruct c as [[] [] [] [] [] [] [] []]; vm_compute; reflexivity.

Lemma isspace_upper_char (c : ascii) :
  Py.isspace (Py.upper_char c) = Py.isspace c.
Proof. by_cases_on c. Qed.

Lemma upper_char_idem (c : ascii) :
  Py.upper_char (Py.upper_char c) = Py.upper_char c.
Proof. by_cases_on c. Qed.

Lemma append_nil_r (s : string) : s +:+ "" = s.
Proof. induction s as [|c s IH]; simpl; [reflexivity | by rewrite IH]. Qed.

Lemma append_assoc (a b c : string) : (a +:+ b) +:+ c = a +:+ (b +:+ c).
Proof. induction a as [|x a IH]; simpl; [reflexivity | by rewrite IH]. Qed.

Lemma map_str_append (f : ascii -> ascii) (a b : string) :
  Py.map_str f (a +:+ b) = Py.map_str f a +:+ Py.map_str f b.
Proof. induction a as [|x a IH]; simpl; [reflexivity | by rewrite IH]. Qed.

Lemma upper_idem (s : string) : Py.upper (Py.upper s) = Py.upper s.
Proof.
  unfold Py.upper. induction s as [|c s IH]; simpl; [reflexivity|].
  by rewrite upper_char_idem, IH.
Qed.

Lemma truthy_append_r (a b : string) :
  Py.truthy b = true -> Py.truthy (a +:+ b) = true.
Proof. by destruct a. Qed.

Lemma token_upper (s : string) : token s -> token (Py.upper s).
Proof.
  intros [Hne Hws]. split.
  - by destruct s.
  - clear Hne. unfold Py.upper. induction s as [|c s IH]; simpl in *; [done|].
    apply orb_false_iff in Hws as [Hc Hs].
    by rewrite isspace_upper_char, Hc, IH.
Qed.

Lemma lstrip_token (t rest : string) : token t -> Py.lstrip (t +:+ rest) = t +:+ rest.
Proof.
  intros [Hne Hws]. destruct t as [|c t]; [done|]. simpl in *.
  apply orb_false_iff in Hws as [Hc _]. by rewrite Hc.
Qed.

Lemma rstrip_token (t : string) : token t -> Py.rstrip t = t.
Proof.
  intros [Hne Hws]. induction t as [|c t IH]; [done|]. simpl in *.
  apply orb_false_iff in Hws as [Hc Hs].
  destruct t as [|d t]; [by simpl; rewrite Hc|].
  rewrite IH by done. reflexivity.
Qed.

Lemma rstrip_append_token (a t : string) :
  token t -> Py.rstrip (a +:+ t) = a +:+ t.
Proof.
  intros Ht. induction a as [|c a IH]; simpl; [by apply rstrip_token|].
  rewrite IH. destruct (a +:+ t) eqn:E; [|reflexivity].
  destruct Ht as [Hne _]. apply (truthy_append_r a) in Hne. by rewrite E in Hne.
Qed.

(** Reading a token moves it into the run being read. *)
Lemma split_ws_from_token (tok t rest : string) :
  Py.any_str Py.isspace t = false ->
  Py.split_ws_from tok (t +:+ rest) = Py.split_ws_from (tok +:+ t) rest.
Proof.
  revert tok. induction t as [|c t IH]; intros tok Hws; simpl in *.
  - by rewrite append_nil_r.
  - apply orb_false_iff in Hws as [Hc Hs]. rewrite Hc, IH by done.
    by rewrite append_assoc.
Qed.

Lemma split_ws_three (a b c : string) :
  token a -> token b -> token c ->
  Py.split_ws (a +:+ " " +:+ b +:+ " " +:+ c) = [a; b; c].
Proof.
  intros [Ha Hwa] [Hb Hwb] [Hc Hwc]. unfold Py.split_ws.
  rewrite split_ws_from_token by done. simpl. rewrite Ha.
  rewrite split_ws_from_token by done. simpl. rewrite Hb.
  rewrite <- (append_nil_r c) at 1.
  rewrite split_ws_from_token by done. simpl. by rewrite Hc.
Qed.

(** Uppercasing maps tokens to tokens, one by one. *)
Lemma split_ws_from_upper (tok s : string) :
  Py.split_ws_from (Py.upper tok) (Py.upper s)
  = map Py.upper (Py.split_ws_from tok s).
Proof.
  revert tok. induction s as [|c s IH]; intros tok; simpl.
  - by destruct tok.
  - rewrite isspace_upper_char. destruct (Py.isspace c).
    + destruct tok; simpl; by rewrite <- (IH "").
    + rewrite <- IH. unfold Py.upper. by rewrite map_str_append.
Qed.

Lemma split_ws_upper (s : string) :
  Py.split_ws (Py.upper s) = map Py.upper (Py.split_ws s).
Proof. apply (split_ws_from_upper "" s). Qed.

End StringFacts.

(* ================================================================== *)
(** ** The search query and its parse *)
(* ================================================================== *)

Section SearchQuery.

Lemma location_of_fields (locality state postcode : string) :
  get (location_of locality state postcode) "locality" = locality
  /\ get (location_of locality state postcode) "state" = state
  /\ get (location_of locality state postcode) "postcode" = postcode.
Proof.
  unfold get, location_of. simpl.
  repeat split; by simplify_map_eq.
Qed.

Lemma construct_search_query_tokens (locality state postcode : string) :
  token locality -> token postcode ->
  construct_search_query (location_of locality state postcode)
  = Py.upper locality +:+ " " +:+ Py.upper state +:+ " " +:+ postcode.
Proof.
  intros Hl Hp. unfold construct_search_query.
  destruct (location_of_fields locality state postcode) as (-> & -> & ->).
  unfold Py.strip. rewrite lstrip_token by by apply token_upper.
  rewrite <- !append_assoc. rewrite rstrip_append_token by done.
  by rewrite !append_assoc.
Qed.

(** Where the parse does invert the construction: when locality, state
    and postcode are single tokens (non-empty, no whitespace), parsing
    the constructed query gives the uppercased locality, the uppercased
    state and the uppercased postcode; and a query with fewer than three
    whitespace-separated tokens parses to three empty strings. *)
Lemma parse_inverts_construct_on_tokens :
  (forall locality state postcode : string,
      token locality -> token state -> token postcode ->
      _parse_search_location
        (construct_search_query (location_of locality state postcode))
      = (Py.upper locality, Py.upper state, Py.upper postcode)
      /\ (Py.upper postcode = postcode ->
          _parse_search_location
            (construct_search_query (location_of locality state postcode))
          = (Py.upper locality, Py.upper state, postcode)))
  /\ (forall query : string,
        length (Py.split_ws query) < 3 ->
        _parse_search_location query = ("", "", "")).
Proof.
  split.
  - intros locality state postcode Hl Hs Hp.
    assert (H : _parse_search_location
                  (construct_search_query (location_of locality state postcode))
                = (Py.upper locality, Py.upper state, Py.upper postcode)).
    { rewrite construct_search_query_tokens by done.
      unfold _parse_search_location.
      change (Py.upper ?s) with (Py.map_str Py.upper_char s) at 1.
      rewrite !map_str_append. fold (Py.upper (Py.upper locality)).
      fold (Py.upper (Py.upper state)). fold (Py.upper postcode).
      rewrite !upper_idem.
      change (Py.map_str Py.upper_char " ") with " ".
      rewrite split_ws_three; auto using token_upper. }
    split; [exact H|]. intros Hup. by rewrite H, Hup.
  - intros query Hlen. unfold _parse_search_location.
    rewrite split_ws_upper.
    destruct (Py.split_ws query) as [|a [|b [|c rest]]]; simpl in *;
      try reflexivity; lia.
Qed.

Lemma parse_inverts_construct_witness :
  _parse_search_location
    (construct_search_query (location_of "Sydney" "nsw" "2000"))
  = ("SYDNEY", "NSW", "2000")
  /\ _parse_search_location "SYDNEY 2000" = ("", "", "").
Proof.
  split.
  - apply (proj1 parse_inverts_construct_on_tokens "Sydney" "nsw" "2000");
      by vm_compute.
  - apply (proj2 parse_inverts_construct_on_tokens "SYDNEY 2000").
    vm_compute. lia.
Defined.

(** C2.  The code breaks the claim on a locality of two words.  For
    the location Rose Bay, NSW, 2029 the query built is
    [ROSE BAY NSW 2029]; the parse takes the first three
    whitespace-separated words as suburb, state and postcode and returns
    (ROSE, BAY, NSW), where the claim and the comments of the parse
    require (ROSE BAY, NSW, 2029). *)
Theorem parse_shifts_the_fields_of_a_two_word_locality :
  construct_search_query (location_of "Rose Bay" "NSW" "2029")
  = "ROSE BAY NSW 2029"
  /\ _parse_search_location
       (construct_search_query (location_of "Rose Bay" "NSW" "2029"))
     = ("ROSE", "BAY", "NSW")
  /\ (Py.upper "Rose Bay", Py.upper "NSW", "2029") = ("ROSE BAY", "NSW", "2029")
  /\ _parse_search_location
       (construct_search_query (location_of "Rose Bay" "NSW" "2029"))
     <> (Py.upper "Rose Bay", Py.upper "NSW", "2029").
Proof. repeat split; by vm_compute. Qed.

End SearchQuery.

(* ================================================================== *)
(** ** The telephone set *)
(* ================================================================== *)

Section TelephoneSet.

Implicit Types (self : Scraper) (pair : Pair).

Lemma add_telephone_grows self (telephone : string) :
  existing_telephones self
  ⊆ existing_telephones (add_telephone_to_memory self telephone).
Proof.
  unfold add_telephone_to_memory.
  destruct (Py.truthy telephone); [|done].
  destruct (Py.truthy (clean_telephone telephone)); [|done].
  simpl. set_solver.
Qed.

Lemma add_telephone_keeps_rest self (telephone : string) :
  results (add_telephone_to_memory self telephone) = results self
  /\ output_csv (add_telephone_to_memory self telephone) = output_csv self.
Proof.
  unfold add_telephone_to_memory.
  destruct (Py.truthy telephone); [|done].
  by destruct (Py.truthy (clean_telephone telephone)).
Qed.

Lemma save_keeps_telephones self :
  existing_telephones (save_to_csv self) = existing_telephones self.
Proof. unfold save_to_csv. by destruct (results self). Qed.

Lemma scrape_link_grows self pair (search_type search_query link : string) :
  existing_telephones self
  ⊆ existing_telephones
      (fst (scrape_link self pair search_type search_query link)).
Proof.
  unfold scrape_link.
  destruct (scrape_detail_page _ _ _ _ _); simpl; [|done].
  apply add_telephone_grows.
Qed.

Lemma scrape_links_grows pair (search_type search_query : string)
    (links : list string) :
  forall self (n : nat),
    existing_telephones self
    ⊆ existing_telephones
        (fst (scrape_links self pair search_type search_query links n)).
Proof.
  induction links as [|link rest IH]; intros self n; simpl; [done|].
  pose proof (scrape_link_grows self pair search_type search_query link) as H.
  destruct (scrape_link self pair search_type search_query link) as [self1 ok].
  simpl in H. etrans; [exact H | apply IH].
Qed.

Lemma scrape_pair_grows self pair (search_type search_query : string) :
  existing_telephones self
  ⊆ existing_telephones (fst (scrape_pair self pair search_type search_query)).
Proof.
  unfold scrape_pair.
  destruct (negb (reachable pair)); [done|].
  destruct (negb (wait_for_results (timeline pair))); [done|].
  destruct (extract_all_links_from_cards (results_page pair)) eqn:E; [done|].
  apply scrape_links_grows.
Qed.

Lemma scrape_types_grows (site : string -> Pair) (search_query : string)
    (types : list string) :
  forall self,
    existing_telephones self
    ⊆ existing_telephones (fst (scrape_types self site search_query types)).
Proof.
  induction types as [|t rest IH]; intros self; simpl; [done|].
  pose proof (scrape_pair_grows self (site t) t search_query) as H.
  destruct (scrape_pair self (site t) t search_query) as [self1 n].
  specialize (IH self1).
  destruct (scrape_types self1 site search_query rest) as [self2 m].
  simpl in *. by etrans.
Qed.

Lemma scrape_locations_grows (site : nat -> string -> Pair)
    (locations : list (gmap string string)) :
  forall self (index : nat),
    existing_telephones self
    ⊆ existing_telephones (fst (scrape_locations self site index locations)).
Proof.
  induction locations as [|location rest IH]; intros self index;
    cbn [scrape_locations]; [done|].
  pose proof (scrape_types_grows (site index)
                (construct_search_query location) SEARCH_TYPES self) as H.
  destruct (scrape_types self (site index) _ SEARCH_TYPES) as [self1 n].
  specialize (IH (save_to_csv self1) (S index)).
  destruct (scrape_locations (save_to_csv self1) site (S index) rest)
    as [self2 m].
  rewrite save_keeps_telephones in IH. simpl in *. by etrans.
Qed.

(** C1. A page that passes the validity gates is accepted exactly when its
    telephone is empty or its cleaned telephone is not in the set; an
    accepted record is appended to the results, a rejected one leaves
    them alone; and no operation of a run takes an element out of the
    set. *)
Theorem telephone_gate self pair (search_type search_query link : string)
    (page : DetailPage) (c : Candidate) :
  detail_page pair link = Some page ->
  candidate page = Some c ->
  let after := scrape_link self pair search_type search_query link in
  (snd after = true
   <-> c_telephone c = ""
       \/ clean_telephone (c_telephone c) ∉ existing_telephones self)
  /\ (snd after = true ->
      exists record : ProviderData,
        telephone record = c_telephone c
        /\ company_name record = c_company_name c
        /\ results (fst after) = results self ++ [asdict record])
  /\ (snd after = false -> fst after = self)
  /\ existing_telephones self ⊆ existing_telephones (fst after)
  /\ (forall telephone : string,
        existing_telephones self
        ⊆ existing_telephones (add_telephone_to_memory self telephone))
  /\ existing_telephones (save_to_csv self) = existing_telephones self
  /\ (forall (site : nat -> string -> Pair)
             (locations : list (gmap string string)),
        existing_telephones self
        ⊆ existing_telephones (fst (run self site locations))).
Proof.
  intros Hpage Hcand after.
  assert (Hgate :
    (Py.truthy (c_telephone c) && is_duplicate_telephone self (c_telephone c)
     = false)
    <-> c_telephone c = ""
        \/ clean_telephone (c_telephone c) ∉ existing_telephones self).
  { unfold is_duplicate_telephone.
    destruct (c_telephone c) as [|ch tel] eqn:Etel; simpl.
    - split; [by left | done].
    - rewrite bool_decide_eq_false. split; [by right | by intros [|]]. }
  assert (Hops :
    (forall telephone : string,
        existing_telephones self
        ⊆ existing_telephones (add_telephone_to_memory self telephone))
    /\ existing_telephones (save_to_csv self) = existing_telephones self
    /\ (forall (site : nat -> string -> Pair)
               (locations : list (gmap string string)),
          existing_telephones self
          ⊆ existing_telephones (fst (run self site locations)))).
  { split; [apply add_telephone_grows|].
    split; [apply save_keeps_telephones|].
    intros site locations. apply scrape_locations_grows. }
  subst after. unfold scrape_link, scrape_detail_page.
  rewrite Hpage, Hcand.
  destruct (Py.truthy (c_telephone c)
            && is_duplicate_telephone self (c_telephone c)) eqn:Edup.
  - simpl. split; [|split; [|split; [|split]]]; try done.
    split; [done|]. intros H. apply Hgate in H. congruence.
  - destruct (_parse_search_location search_query) as [[sub st] pc]. simpl.
    split; [|split; [|split; [|split]]]; try done.
    + split; [intros _; by apply Hgate | done].
    + intros _. eexists. split; [|split]; cycle 2.
      { destruct (add_telephone_keeps_rest self (c_telephone c)) as [-> _].
        reflexivity. }
      all: reflexivity.
    + apply add_telephone_grows.
Qed.

Lemma telephone_gate_witness :
  detail_page sunshine_pair sunshine_link = Some sunshine_page
  /\ candidate sunshine_page = Some sunshine_candidate
  /\ (snd (scrape_link fresh sunshine_pair "aged-care-homes" "SYDNEY NSW 2000"
             sunshine_link) = true
      <-> c_telephone sunshine_candidate = ""
          \/ clean_telephone (c_telephone sunshine_candidate)
              ∉ existing_telephones fresh).
Proof.
  assert (H1 : detail_page sunshine_pair sunshine_link = Some sunshine_page)
    by reflexivity.
  assert (H2 : candidate sunshine_page = Some sunshine_candidate)
    by (vm_compute; reflexivity).
  split; [exact H1|]. split; [exact H2|].
  exact (proj1 (telephone_gate fresh sunshine_pair "aged-care-homes"
                  "SYDNEY NSW 2000" sunshine_link sunshine_page
                  sunshine_candidate H1 H2)).
Defined.

End TelephoneSet.

(* ================================================================== *)
(** ** What the matcher returns is a match *)
(* ================================================================== *)

Section Matcher.

Import Re.

Lemma repeats_append (r : regex) (n j : nat) (a b : string) :
  repeats r n a -> repeats r j b -> repeats r (n + j) (a +:+ b).
Proof.
  intros Ha Hb. revert a Ha. induction Hb as [|r j b c Hb IH Hc]; intros a Ha.
  - by rewrite append_nil_r, Nat.add_0_r.
  - rewrite <- append_assoc, Nat.add_succ_r. constructor; [by apply IH | done].
Qed.

(** The rounds of a repetition: [n] rounds done, the rest of the input
    splits into further rounds and what the continuation takes. *)
Lemma rounds_sound (body : regex) (lo : nat) (hi : option nat)
    (k : option ascii -> string -> option string) (out : string)
    (IHbody : forall prev s k', run body prev s k' = Some out ->
       exists m prev' s', s = m +:+ s' /\ matches body m
                          /\ k' prev' s' = Some out) :
  forall (fuel n : nat) (prev : option ascii) (s : string),
    (fix rounds (fuel n : nat) (prev : option ascii) (s : string)
         {struct fuel} : option string :=
       let stop := if lo <=? n then k prev s else None in
       match fuel with
       | O => stop
       | S fuel' =>
           let more :=
             if below n hi then
               run body prev s (fun prev' s' =>
                 if String.length s' <? String.length s
                 then rounds fuel' (S n) prev' s' else None)
             else None in
           match more with
           | Some rest => Some rest
           | None => stop
           end
       end) fuel n prev s = Some out ->
    n = 0 \/ below (Nat.pred n) hi = true ->
    exists (j : nat) (m : string) (prev' : option ascii) (s' : string),
      s = m +:+ s' /\ repeats body j m /\ lo <= n + j
      /\ match hi with Some h => n + j <= h | None => True end
      /\ k prev' s' = Some out.
Proof.
  assert (Hstop : forall n prev s,
    (if lo <=? n then k prev s else None) = Some out ->
    (n = 0 \/ below (Nat.pred n) hi = true) ->
    exists (j : nat) (m : string) (prev' : option ascii) (s' : string),
      s = m +:+ s' /\ repeats body j m /\ lo <= n + j
      /\ match hi with Some h => n + j <= h | None => True end
      /\ k prev' s' = Some out).
  { intros n prev s H Hn. destruct (Nat.leb_spec lo n) as [Hlo|]; [|done].
    exists 0, "", prev, s. split; [reflexivity|]. split; [constructor|].
    split; [lia|]. split; [|exact H].
    destruct hi as [h|]; [|done].
    destruct Hn as [->|Hn]; [lia|].
    unfold below in Hn. apply Nat.ltb_lt in Hn. lia. }
  induction fuel as [|fuel IH]; intros n prev s H Hn;
    cbv fix beta iota zeta in H.
  - by apply (Hstop n prev s).
  - destruct (below n hi) eqn:Hb.
    + match type of H with
      | match ?e with _ => _ end = _ => destruct e as [rest|] eqn:E
      end; [|by apply (Hstop n prev s)].
      injection H as ->.
      apply IHbody in E as (m & prev' & s' & -> & Hm & Hk).
      destruct (String.length s' <? String.length (m +:+ s')); [|done].
      apply IH in Hk as (j & m' & prev'' & s'' & -> & Hrep & Hlo & Hhi & Hk);
        [|right; exact Hb].
      exists (S j), (m +:+ m'), prev'', s''.
      rewrite append_assoc. split; [reflexivity|].
      split.
      * change (S j) with (1 + j).
        apply repeats_append; [|exact Hrep].
        change m with ("" +:+ m). by repeat constructor.
      * split; [lia|]. split; [|exact Hk]. destruct hi; [lia | done].
    + by apply (Hstop n prev s).
Qed.

Lemma run_sound (r : regex) :
  forall (prev : option ascii) (s : string)
         (k : option ascii -> string -> option string) (out : string),
    run r prev s k = Some out ->
    exists (m : string) (prev' : option ascii) (s' : string),
      s = m +:+ s' /\ matches r m /\ k prev' s' = Some out.
Proof.
  induction r as [|p| |r1 IH1 r2 IH2|r1 IH1 r2 IH2|body IH lo hi];
    intros prev s k out H; cbn [run] in H.
  - exists "", prev, s. by repeat split; [constructor|].
  - destruct s as [|c s]; [done|]. destruct (p c) eqn:E; [|done].
    exists (String c ""), (Some c), s. by repeat split; [constructor|].
  - destruct (at_boundary prev s); [|done].
    exists "", prev, s. by repeat split; [constructor|].
  - apply IH1 in H as (m1 & prev1 & s1 & -> & Hm1 & H).
    apply IH2 in H as (m2 & prev2 & s2 & -> & Hm2 & H).
    exists (m1 +:+ m2), prev2, s2. rewrite append_assoc.
    by repeat split; [constructor|].
  - destruct (run r1 prev s k) as [rest|] eqn:E.
    + injection H as ->. apply IH1 in E as (m & prev' & s' & -> & Hm & Hk).
      exists m, prev', s'. by repeat split; [apply m_or_l|].
    + apply IH2 in H as (m & prev' & s' & -> & Hm & Hk).
      exists m, prev', s'. by repeat split; [apply m_or_r|].
  - apply (rounds_sound body lo hi k out) in H
      as (j & m & prev' & s' & -> & Hrep & Hlo & Hhi & Hk).
    + exists m, prev', s'. split; [reflexivity|]. split; [|exact Hk].
      by apply (m_rep body lo hi j).
    + intros prev0 s0 k'. apply IH.
    + by left.
Qed.

Lemma take_str_append (m rest : string) :
  Py.take_str (String.length (m +:+ rest) - String.length rest) (m +:+ rest) = m.
Proof.
  assert (Hlen : forall a b, String.length (a +:+ b)
                             = String.length a + String.length b).
  { intros a b. induction a as [|c a IHa]; simpl; [reflexivity | by rewrite IHa]. }
  rewrite Hlen. replace (_ + _ - _) with (String.length m) by lia.
  induction m as [|c m IH]; simpl; [by destruct rest | by rewrite IH].
Qed.

Lemma match_here_sound (r : regex) (prev : option ascii) (s m : string) :
  match_here r prev s = Some m -> matches r m.
Proof.
  unfold match_here.
  destruct (run r prev s _) as [rest|] eqn:E; [|done].
  apply run_sound in E as (m' & _ & s' & -> & Hm & [= ->]).
  rewrite take_str_append. by intros [= <-].
Qed.

Lemma findall_from_sound (r : regex) (m : string) (s : string) :
  forall (skip : nat) (prev : option ascii),
    In m (findall_from r skip prev s) -> matches r m.
Proof.
  induction s as [|c s IH]; intros skip prev; cbn [findall_from].
  - destruct skip; [|done].
    destruct (match_here r prev "") as [m'|] eqn:E; [|done].
    intros [<-|[]]. by apply match_here_sound in E.
  - destruct skip as [|n]; [|apply IH].
    destruct (match_here r prev (String c s)) as [m'|] eqn:E; [|apply IH].
    intros [<-|Hin]; [by apply match_here_sound in E | by apply IH in Hin].
Qed.

Lemma findall_sound (r : regex) (text m : string) :
  In m (findall r text) -> matches r m.
Proof. apply findall_from_sound. Qed.

Lemma repeats_cls (p : ascii -> bool) (n : nat) (m : string) :
  repeats (Cls p) n m -> String.length m = n /\ Py.all_str p m = true.
Proof.
  assert (Hlen : forall a b, String.length (a +:+ b)
                             = String.length a + String.length b).
  { intros a b. induction a as [|c a IHa]; simpl; [reflexivity | by rewrite IHa]. }
  assert (Hall : forall a b, Py.all_str p (a +:+ b)
                             = Py.all_str p a && Py.all_str p b).
  { intros a b. induction a as [|c a IHa]; simpl; [reflexivity|].
    by rewrite IHa, andb_assoc. }
  revert m. induction n as [|n IH]; intros m H; inversion H; subst.
  - by split.
  - match goal with H1 : repeats _ n _, H2 : matches _ _ |- _ =>
      apply IH in H1 as [Hl Ha]; inversion H2; subst end.
    rewrite Hlen, Hall, Ha. simpl. split; [lia|].
    match goal with Hp : p _ = true |- _ => by rewrite Hp end.
Qed.

Lemma matches_digits (n : nat) (m : string) :
  matches (times n digit) m -> digits n m.
Proof.
  unfold times, digit. intros H. inversion H as [| | | | | |? ? ? j ? Hrep Hlo Hhi]; subst.
  assert (j = n) as -> by lia. by apply repeats_cls.
Qed.

Lemma matches_grouped (a b c : nat) (sep : ascii) (m : string) :
  matches (seq [WordB; times a digit; chr sep; times b digit; chr sep;
                times c digit; WordB]) m ->
  grouped a b c sep m.
Proof.
  unfold seq, chr. cbn [fold_right]. intros H.
  repeat match goal with
         | H : matches (Cat _ _) _ |- _ => inversion H; clear H; subst
         | H : matches WordB _ |- _ => inversion H; clear H; subst
         | H : matches Eps _ |- _ => inversion H; clear H; subst
         | H : matches (Cls (Ascii.eqb _)) _ |- _ =>
             inversion H as [|? ? Heq| | | | |]; clear H; subst;
             apply Ascii.eqb_eq in Heq; subst
         | H : matches (times _ digit) _ |- _ => apply matches_digits in H
         end.
  match goal with
  | Hx : digits a ?x, Hy : digits b ?y, Hz : digits c ?z |- _ =>
      exists x, y, z; split; [exact Hx|]; split; [exact Hy|];
      split; [exact Hz|]
  end.
  simpl. by rewrite !append_nil_r.
Qed.

Lemma matches_bare (n : nat) (m : string) :
  matches (seq [WordB; times n digit; WordB]) m -> digits n m.
Proof.
  unfold seq. cbn [fold_right]. intros H.
  repeat match goal with
         | H : matches (Cat _ _) _ |- _ => inversion H; clear H; subst
         | H : matches WordB _ |- _ => inversion H; clear H; subst
         | H : matches Eps _ |- _ => inversion H; clear H; subst
         | H : matches (times _ digit) _ |- _ => apply matches_digits in H
         end.
  cbn [String.append]. by rewrite !append_nil_r.
Qed.

(** Every match of the [i]-th telephone pattern has the [i]-th shape. *)
Lemma tel_patterns_shaped (text : string) :
  Forall2 (fun p shape => forall m, In m (findall p text) -> shape m)
    tel_patterns phone_shapes.
Proof.
  unfold tel_patterns, phone_shapes.
  repeat (apply List.Forall2_cons;
          [intros m Hin; apply findall_sound in Hin;
           first [by apply matches_grouped | by apply matches_bare] |]).
  apply List.Forall2_nil.
Qed.

Lemma digits_token (n : nat) (m : string) : digits (S n) m -> token m.
Proof.
  intros [Hlen Hall]. split; [by destruct m|]. clear Hlen.
  induction m as [|x m IH]; simpl in *; [done|].
  apply andb_true_iff in Hall as [Hx Hm]. rewrite (IH Hm), orb_false_r.
  destruct x as [[] [] [] [] [] [] [] []]; vm_compute in Hx |- *; congruence.
Qed.

Lemma digits_strip (n : nat) (m : string) : digits (S n) m -> Py.strip m = m.
Proof.
  intros H. apply digits_token in H as Ht.
  unfold Py.strip. rewrite <- (append_nil_r m) at 1.
  rewrite lstrip_token, append_nil_r by exact Ht. by apply rstrip_token.
Qed.

Lemma grouped_strip (a b c : nat) (sep : ascii) (m : string) :
  grouped (S a) b (S c) sep m -> Py.strip m = m.
Proof.
  intros (x & y & z & Hx & _ & Hz & ->).
  apply digits_token in Hx, Hz. unfold Py.strip.
  rewrite lstrip_token by exact Hx.
  change (x +:+ String sep (y +:+ String sep z))
    with (x +:+ String sep "" +:+ y +:+ String sep "" +:+ z).
  rewrite <- !append_assoc. rewrite rstrip_append_token by exact Hz.
  reflexivity.
Qed.

(** [match.strip()] returns the match. *)
Lemma tel_match_strip (text : string) (p : regex) (m : string) :
  In p tel_patterns -> In m (findall p text) -> Py.strip m = m.
Proof.
  intros Hp Hm. apply findall_sound in Hm.
  unfold tel_patterns in Hp. cbn [In] in Hp.
  destruct Hp as [<-|[<-|[<-|[<-|[<-|[<-|[]]]]]]];
    first [ apply matches_grouped in Hm; by apply grouped_strip in Hm
          | apply matches_bare in Hm; by apply digits_strip in Hm ].
Qed.

End Matcher.

(* ================================================================== *)
(** ** Telephone and company name from the page text *)
(* ================================================================== *)

Section TextExtractors.

Lemma find_app {A : Type} (p : A -> bool) (l1 l2 : list A) :
  List.find p (l1 ++ l2)
  = match List.find p l1 with
    | Some x => Some x
    | None => List.find p l2
    end.
Proof.
  induction l1 as [|x l1 IH]; simpl; [reflexivity|].
  by destruct (p x).
Qed.

Lemma find_none_iff {A : Type} (p : A -> bool) (l : list A) :
  List.find p l = None <-> (forall x, In x l -> p x = false).
Proof.
  induction l as [|x l IH]; simpl.
  - split; [by intros _ ? [] | done].
  - destruct (p x) eqn:E.
    + split; [done|]. intros H. rewrite (H x) in E by by left. done.
    + rewrite IH. split.
      * intros H y [<-|Hy]; auto.
      * intros H y Hy. apply H. by right.
Qed.

Lemma find_first {A : Type} (p : A -> bool) (l1 l2 : list A) (x : A) :
  (forall y, In y l1 -> p y = false) -> p x = true ->
  List.find p (l1 ++ x :: l2) = Some x.
Proof.
  intros Hbefore Hx. rewrite find_app.
  apply find_none_iff in Hbefore. rewrite Hbefore. simpl. by rewrite Hx.
Qed.

Lemma first_phone_find (matches : list string) :
  first_phone matches = option_map Py.strip (List.find not_a_year matches).
Proof.
  induction matches as [|m rest IH]; simpl; [reflexivity|].
  by destruct (not_a_year m).
Qed.

Lemma telephone_loop_find (patterns : list Re.regex) (text : string) :
  telephone_loop patterns text
  = match List.find not_a_year
            (concat (map (fun p => Re.findall p text) patterns)) with
    | Some m => Py.strip m
    | None => ""
    end.
Proof.
  induction patterns as [|p rest IH]; [reflexivity|].
  cbn [telephone_loop map concat]. rewrite find_app.
  destruct (Re.findall p text) as [|m ms] eqn:E; [exact IH|].
  rewrite first_phone_find.
  destruct (List.find not_a_year (m :: ms)); [reflexivity | exact IH].
Qed.

(** C5, as amended.  The six patterns are tried in their order, and each
    finds only strings of its own shape: two, four and four digits or
    four, three and three digits, with blanks or with hyphens, and bare
    runs of eight or ten digits.  The telephone is the first match that
    does not start with 2024 or 2025, the matches being taken pattern by
    pattern and, inside a pattern, from left to right: a later match of
    a pattern is taken when its earlier ones are years, and a pattern
    whose matches are all years is passed over for the next one.
    Stripping does not change the match; when no pattern has such a
    match the result is the empty string. *)
Theorem telephone_is_first_acceptable_match (text : string) :
  let matches_of := fun p => Re.findall p text in
  Forall2 (fun p shape => forall m, In m (matches_of p) -> shape m)
    tel_patterns
    [ grouped 2 4 4 " "; grouped 4 3 3 " "; grouped 2 4 4 "-";
      grouped 4 3 3 "-"; digits 8; digits 10 ]
  /\ _extract_telephone text
     = match List.find not_a_year (concat (map matches_of tel_patterns)) with
       | Some m => m
       | None => ""
       end
  /\ (forall (before after : list Re.regex) (p : Re.regex)
             (earlier later : list string) (m : string),
        tel_patterns = before ++ p :: after ->
        (forall q m', In q before -> In m' (matches_of q) ->
                      not_a_year m' = false) ->
        matches_of p = earlier ++ m :: later ->
        (forall m', In m' earlier -> not_a_year m' = false) ->
        not_a_year m = true ->
        _extract_telephone text = m)
  /\ ((forall p m, In p tel_patterns -> In m (matches_of p) ->
                   not_a_year m = false) ->
      _extract_telephone text = "")
  /\ (forall m : string,
        not_a_year m = true
        <-> Py.startswith "2024" m = false /\ Py.startswith "2025" m = false).
Proof.
  intros matches_of. split; [exact (tel_patterns_shaped text)|].
  assert (Hfind :
    _extract_telephone text
    = match List.find not_a_year (concat (map matches_of tel_patterns)) with
      | Some m => m
      | None => ""
      end).
  { unfold _extract_telephone. rewrite telephone_loop_find. fold matches_of.
    destruct (List.find not_a_year (concat (map matches_of tel_patterns)))
      as [m|] eqn:E; [|reflexivity].
    apply find_some in E as [Hin _].
    apply in_concat in Hin as (ms & Hms & Hin).
    apply in_map_iff in Hms as (p & <- & Hp).
    by apply (tel_match_strip text p). }
  split; [exact Hfind|]. split; [|split].
  - intros before after p earlier later m Hpat Hbefore Hp Hearlier Hm.
    rewrite Hfind, Hpat, map_app, concat_app. simpl.
    rewrite Hp, <- !app_assoc, app_assoc. simpl.
    rewrite find_first; [reflexivity| |exact Hm].
    intros y Hy. apply in_app_or in Hy as [Hy|Hy]; [|by apply Hearlier].
    apply in_concat in Hy as (ms & Hms & Hy).
    apply in_map_iff in Hms as (q & <- & Hq). by apply (Hbefore q).
  - intros Hnone. rewrite Hfind.
    assert (List.find not_a_year (concat (map matches_of tel_patterns)) = None)
      as ->; [|reflexivity].
    apply find_none_iff. intros m Hm.
    apply in_concat in Hm as (ms & Hms & Hm).
    apply in_map_iff in Hms as (q & <- & Hq). by apply (Hnone q).
  - intros m. unfold not_a_year. rewrite andb_true_iff, !negb_true_iff. tauto.
Qed.

Lemma telephone_is_first_acceptable_match_witness :
  _extract_telephone "Updated 2024 123 456, call 1800 864 846 or 02 8388 8000"
  = "02 8388 8000"
  /\ _extract_telephone "Updated 2024 123 456, call 1800 864 846"
     = "1800 864 846"
  /\ _extract_telephone "Updated 20250131" = "".
Proof.
  split; [|split].
  - by rewrite (proj1 (proj2 (telephone_is_first_acceptable_match _))).
  - apply (proj1 (proj2 (proj2 (telephone_is_first_acceptable_match _)))
             [hd Re.Eps tel_patterns] (tl (tl tel_patterns))
             (nth 1 tel_patterns Re.Eps) ["2024 123 456"] []).
    + reflexivity.
    + intros q m' [<-|[]]. by vm_compute.
    + by vm_compute.
    + intros m' [<-|[]]. reflexivity.
    + reflexivity.
  - apply (proj1 (proj2 (proj2 (proj2 (telephone_is_first_acceptable_match _))))).
    intros p m Hp.
    repeat (destruct Hp as [<-|Hp];
            [vm_compute; intros H;
             repeat (destruct H as [<-|H]; [reflexivity|]); destruct H |]).
    destruct Hp.
Defined.

(** C5 as stated fails: the telephone need not be the first match of
    the first pattern that has a match.  In the first text only the
    fifth pattern matches; its first match starts with 2024 and the
    second one is returned, not the empty string.  In the second text
    the first pattern with a match is the second one; its only match
    starts with 2025, and the telephone comes from the sixth pattern. *)
Lemma telephone_need_not_come_from_the_first_matching_pattern :
  map (fun p => Re.findall p "20241234 and 12345678") tel_patterns
  = [ []; []; []; []; ["20241234"; "12345678"]; [] ]
  /\ not_a_year "20241234" = false
  /\ _extract_telephone "20241234 and 12345678" = "12345678"
  /\ _extract_telephone "20241234 and 12345678" <> "20241234"
  /\ _extract_telephone "20241234 and 12345678" <> ""
  /\ map (fun p => Re.findall p "2025 111 222 2024-111-222 0412345678")
         tel_patterns
     = [ []; ["2025 111 222"]; []; ["2024-111-222"]; []; ["0412345678"] ]
  /\ _extract_telephone "2025 111 222 2024-111-222 0412345678" = "0412345678"
  /\ _extract_telephone "2025 111 222 2024-111-222 0412345678" <> "".
Proof. repeat split; by vm_compute. Qed.

(** Each pattern on a text of its own shape and on the other shapes. *)
Example tel_patterns_shapes :
  map (fun p => Re.findall p
         "02 8388 8000, 1800 864 846, 02-8388-8000, 1800-864-846, 83888000, 0283888000")
      tel_patterns
  = [ ["02 8388 8000"]; ["1800 864 846"]; ["02-8388-8000"]; ["1800-864-846"];
      ["83888000"]; ["0283888000"] ].
Proof. by vm_compute. Qed.

Lemma name_like_iff (line : string) :
  name_like line = true
  <-> 4 <= Py.len line <= 99
      /\ (Py.isupper line = true
          \/ exists (c : ascii) (rest : string),
               In (String c rest) (Py.split_ws line)
               /\ Py.isupper_char c = true)
      /\ (forall keyword, In keyword nav_keywords ->
                          Py.contains keyword (Py.lower line) = false).
Proof.
  unfold name_like, some_word_capitalised, has_nav_keyword.
  rewrite !andb_true_iff, orb_true_iff, negb_true_iff.
  rewrite !Nat.ltb_lt, existsb_exists.
  split.
  - intros [[Hlo Hhi] [Hshape Hkw]]. split; [lia|]. split.
    + destruct Hshape as [Hup|(word & Hin & Hword)]; [by left|right].
      destruct word as [|c rest]; [done|]. by exists c, rest.
    + intros keyword Hin. destruct (Py.contains keyword (Py.lower line)) eqn:E;
        [|reflexivity].
      assert (existsb (fun k => Py.contains k (Py.lower line)) nav_keywords
              = true) as Hex by (apply existsb_exists; eauto).
      congruence.
  - intros [Hlen [Hshape Hkw]]. split; [lia|]. split.
    + destruct Hshape as [Hup|(c & rest & Hin & Hc)]; [by left|right].
      by exists (String c rest).
    + destruct (existsb _ nav_keywords) eqn:E; [|reflexivity].
      apply existsb_exists in E as (k & Hin & Hk).
      rewrite (Hkw k Hin) in Hk. done.
Qed.

Lemma name_loop_first (rows : list string) :
  (forall before after line,
      map Py.strip rows = before ++ line :: after ->
      (forall l, In l before -> name_like l = false) ->
      name_like line = true ->
      name_loop rows = line)
  /\ ((forall l, In l (map Py.strip rows) -> name_like l = false) ->
      name_loop rows = "").
Proof.
  induction rows as [|row rest [IH1 IH2]]; simpl.
  - split; [|done]. intros [] ? ? ?; done.
  - split.
    + intros before after line Heq Hbefore Hline.
      destruct before as [|b before]; simpl in Heq; inversion Heq; subst.
      * by rewrite Hline.
      * rewrite (Hbefore (Py.strip row)) by by left.
        apply (IH1 before after); auto. intros l Hl. apply Hbefore. by right.
    + intros Hnone. rewrite (Hnone (Py.strip row)) by by left.
      apply IH2. intros l Hl. apply Hnone. by right.
Qed.

(** C9, as amended.  The fallback walks the lines of the text (split at
    line feeds, each stripped of surrounding whitespace) and returns the
    first stripped line of 4 to 99 characters that is all-uppercase or
    has a word beginning with an uppercase letter, and that contains
    none of the navigation keywords once lowercased; without such a line
    it returns the empty string. *)
Theorem company_name_is_first_name_like_line (text : string) :
  let stripped := map Py.strip (Py.split_on Py.newline text) in
  (forall before after line,
      stripped = before ++ line :: after ->
      (forall l, In l before -> name_like l = false) ->
      name_like line = true ->
      _extract_company_name_from_text text = line)
  /\ ((forall l, In l stripped -> name_like l = false) ->
      _extract_company_name_from_text text = "")
  /\ (forall line,
        name_like line = true
        <-> 4 <= Py.len line <= 99
            /\ (Py.isupper line = true
                \/ exists (c : ascii) (rest : string),
                     In (String c rest) (Py.split_ws line)
                     /\ Py.isupper_char c = true)
            /\ (forall keyword, In keyword nav_keywords ->
                                Py.contains keyword (Py.lower line) = false))
  /\ nav_keywords = ["home"; "find a provider"; "search"; "print"; "share"].
Proof.
  intros stripped. unfold _extract_company_name_from_text.
  destruct (name_loop_first (Py.split_on Py.newline text)) as [H1 H2].
  split; [exact H1|]. split; [exact H2|]. split; [exact name_like_iff|].
  reflexivity.
Qed.

Lemma company_name_is_first_name_like_line_witness :
  _extract_company_name_from_text
    (lines ["Home"; "  Call the Manager now  "; "SUNSHINE AGED CARE"])
  = "Call the Manager now".
Proof.
  apply (proj1 (company_name_is_first_name_like_line _)
           ["Home"] ["SUNSHINE AGED CARE"]).
  - by vm_compute.
  - intros l [<-|[]]. by vm_compute.
  - by vm_compute.
Defined.

(** C9 as stated fails: the line returned here is neither all-uppercase
    nor title-cased; one capitalised word is enough. *)
Lemma company_name_need_not_be_title_cased :
  _extract_company_name_from_text "call the Manager now"
  = "call the Manager now"
  /\ Py.isupper "call the Manager now" = false
  /\ Py.istitle "call the Manager now" = false.
Proof. repeat split; by vm_compute. Qed.

End TextExtractors.

(* ================================================================== *)
(** ** The validity gate of the detail-page parser *)
(* ================================================================== *)

Section ValidityGate.

Implicit Types (page : DetailPage) (self : Scraper).




Lemma candidate_fields page (c : Candidate) :
  candidate page = Some c ->
  let raw_text := extract_all_text_from_page page in
  c_company_name c = derived_name page
  /\ c_telephone c = _extract_telephone raw_text
  /\ c_email c = _extract_email raw_text
  /\ c_website c = _extract_website raw_text
  /\ c_address c = _extract_address raw_text.
Proof.
  intros H raw_text. unfold candidate in H. unfold derived_name.
  fold raw_text in H |- *.
  do 4 (match type of H with
        | (if ?b then None else _) = Some _ => destruct b; [discriminate H|]
        end).
  destruct (Py.truthy (_extract_company_name_from_elements page));
    simpl in H;
    (match type of H with
     | (if ?b then None else _) = Some _ => destruct b; [discriminate H|]
     end);
    injection H as <-; by simpl.
Qed.



End ValidityGate.

(* ================================================================== *)
(** ** Readiness detection *)
(* ================================================================== *)

Section Readiness.

Variable page : Timeline.

Lemma polls_wait (ms : nat) (c : Clock) :
  polls (wait_for_timeout ms c) = polls c + (if Nat.eq_dec ms 500 then 1 else 0).
Proof.
  unfold polls, wait_for_timeout. cbn [sleeps]. rewrite count_occ_app.
  cbn [count_occ]. by destruct (Nat.eq_dec ms 500).
Qed.

Lemma polls_check (c : Clock) :
  polls (snd (check_no_results page c)) = polls c.
Proof. reflexivity. Qed.

Lemma popup_loop_clock (selectors : list string) (c : Clock) :
  snd (popup_loop selectors page c) = c
  \/ snd (popup_loop selectors page c) = wait_for_timeout 1500 c.
Proof.
  induction selectors as [|s rest IH]; cbn [popup_loop]; [by left|].
  destruct (_ && _); [by right | exact IH].
Qed.

Lemma handle_popup_clock (c : Clock) :
  polls (snd (handle_popup page c)) = polls c
  /\ checks (snd (handle_popup page c)) = checks c
  /\ now (snd (handle_popup page c)) <= now c + 1500.
Proof.
  unfold handle_popup.
  destruct (popup_loop_clock popup_selectors c) as [-> | ->].
  - repeat split; lia.
  - rewrite polls_wait. cbn [wait_for_timeout checks now].
    destruct (Nat.eq_dec 1500 500) as [E|_]; [discriminate E|].
    repeat split; lia.
Qed.

(** One round of the loop, seen from the clock that enters it. *)
Lemma poll_step (n : nat) (c : Clock) :
  exists c1 : Clock,
    polls c1 = polls c /\ checks c1 = S (checks c)
    /\ now c1 <= now c + 1500
    /\ poll (S n) page c
       = if no_results_signal (page (now c1)) then (NoResults, c1)
         else if results_signal (page (now c1)) then (Found, c1)
         else poll n page (wait_for_timeout 500 c1).
Proof.
  destruct (handle_popup_clock c) as (Hp & Hc & Hn).
  cbn [poll]. destruct (handle_popup page c) as [b c0].
  cbn [snd] in Hp, Hc, Hn.
  exists (snd (check_no_results page c0)).
  rewrite polls_check. cbn [check_no_results snd checks now].
  repeat split; [exact Hp | by rewrite Hc | exact Hn].
Qed.

Lemma poll_bounded (attempts : nat) :
  forall c : Clock,
    polls (snd (poll attempts page c)) <= polls c + attempts
    /\ checks (snd (poll attempts page c)) <= checks c + attempts + 1
    /\ now (snd (poll attempts page c)) <= now c + attempts * 2000.
Proof.
  induction attempts as [|n IH]; intros c.
  - cbn [poll check_no_results].
    destruct (no_results_signal _); rewrite ?polls_check;
      unfold polls; cbn [snd sleeps checks now]; lia.
  - destruct (poll_step n c) as (c1 & Hp & Hc & Hn & ->).
    destruct (no_results_signal _); [cbn [snd]; lia|].
    destruct (results_signal _); [cbn [snd]; lia|].
    destruct (IH (wait_for_timeout 500 c1)) as (IHp & IHc & IHn).
    rewrite polls_wait in IHp. cbn [wait_for_timeout checks now] in IHc, IHn.
    destruct (Nat.eq_dec 500 500) as [_|E]; [|done]. lia.
Qed.

Lemma poll_unresolved (attempts : nat) :
  never_resolves page ->
  forall c : Clock,
    fst (poll attempts page c) = Unknown
    /\ polls (snd (poll attempts page c)) = polls c + attempts
    /\ checks (snd (poll attempts page c)) = checks c + attempts + 1.
Proof.
  intros Hnever. induction attempts as [|n IH]; intros c.
  - cbn [poll check_no_results]. destruct (Hnever (now c)) as [-> _].
    unfold polls; cbn [fst snd sleeps checks]. repeat split; lia.
  - destruct (poll_step n c) as (c1 & Hp & Hc & Hn & ->).
    destruct (Hnever (now c1)) as [-> ->].
    destruct (IH (wait_for_timeout 500 c1)) as (IHe & IHp & IHc).
    rewrite polls_wait in IHp. cbn [wait_for_timeout checks] in IHc.
    destruct (Nat.eq_dec 500 500) as [_|E]; [|done].
    repeat split; [exact IHe | lia | lia].
Qed.

(** The detector itself, seen from the start. *)
Lemma wait_for_results_from_step :
  exists c1 : Clock,
    polls c1 = 0 /\ checks c1 = 1 /\ now c1 <= 1500
    /\ wait_for_results_from page start
       = if no_results_signal (page (now c1)) then (NoResults, c1)
         else poll 30 page c1.
Proof.
  destruct (handle_popup_clock start) as (Hp & Hc & Hn).
  unfold wait_for_results_from. destruct (handle_popup page start) as [b c0].
  cbn [snd] in Hp, Hc, Hn.
  exists (snd (check_no_results page c0)).
  rewrite polls_check. cbn [check_no_results snd checks now].
  repeat split; [exact Hp | by rewrite Hc | exact Hn].
Qed.

(** C7. On every results page the detector returns after at most 30
    waits of 500 ms, at most 32 no-results checks and a bounded time on
    its clock.  On a page that never shows either signal it makes the 30
    attempts, checks once more for "no results" and leaves by the
    inconclusive exit, which returns [False]; the orchestrator then skips
    the pair and scrapes nothing. *)
Theorem readiness_detection_is_bounded :
  let exit := fst (wait_for_results_from page start) in
  let clock := snd (wait_for_results_from page start) in
  polls clock <= 30
  /\ checks clock <= 32
  /\ now clock <= 30 * 500 + 31 * 1500
  /\ (never_resolves page ->
      exit = Unknown
      /\ polls clock = 30
      /\ checks clock = 32
      /\ wait_for_results page = false
      /\ forall (self : Scraper) (pair : Pair) (search_type search_query : string),
           timeline pair = page ->
           scrape_pair self pair search_type search_query = (self, 0)).
Proof.
  intros exit clock. subst exit clock. unfold wait_for_results.
  destruct wait_for_results_from_step as (c1 & Hp & Hc & Hn & ->).
  destruct (poll_bounded 30 c1) as (Bp & Bc & Bn).
  pose proof (poll_unresolved 30) as U.
  destruct (no_results_signal (page (now c1))) eqn:Hsig.
  - cbn [fst snd]. split; [lia|]. split; [lia|]. split; [lia|].
    intros Hnever. destruct (Hnever (now c1)) as [H _]. congruence.
  - split; [lia|]. split; [lia|]. split; [lia|].
    intros Hnever. destruct (U Hnever c1) as (Ue & Up & Uc).
    split; [exact Ue|]. split; [lia|]. split; [lia|].
    split; [by rewrite Ue|].
    intros self pair search_type search_query Htl.
    unfold scrape_pair, wait_for_results. rewrite Htl.
    destruct wait_for_results_from_step as (c2 & _ & _ & _ & ->).
    destruct (Hnever (now c2)) as [-> _].
    destruct (poll_unresolved 30 Hnever c2) as (-> & _).
    by destruct (reachable pair).
Qed.

End Readiness.

Lemma readiness_detection_is_bounded_witness :
  never_resolves (fun _ => blank)
  /\ fst (wait_for_results_from (fun _ => blank) start) = Unknown
  /\ polls (snd (wait_for_results_from (fun _ => blank) start)) = 30.
Proof.
  assert (H : never_resolves (fun _ => blank)) by (intros t; by vm_compute).
  split; [exact H|].
  pose proof (proj2 (proj2 (proj2
    (readiness_detection_is_bounded (fun _ => blank)))) H) as (He & Hp & _).
  split; [exact He | exact Hp].
Defined.

(* ================================================================== *)
(** ** Persistence *)
(* ================================================================== *)

Section Persistence.

Implicit Types (self : Scraper) (row : gmap string string).

Lemma csv_row_cells row :
  csv_row row
  = [ written_name (get row "company_name"); get row "address";
      get row "suburb"; get row "state"; get row "postcode";
      get row "telephone"; get row "email"; get row "website" ].
Proof.
  unfold csv_row, fieldnames, get. cbn [fold_left map].
  repeat f_equal; by simplify_map_eq.
Qed.

Lemma asdict_fields (p : ProviderData) :
  get (asdict p) "company_name" = company_name p
  /\ get (asdict p) "address" = address p
  /\ get (asdict p) "suburb" = suburb p
  /\ get (asdict p) "state" = state p
  /\ get (asdict p) "postcode" = postcode p
  /\ get (asdict p) "telephone" = telephone p
  /\ get (asdict p) "email" = email p
  /\ get (asdict p) "website" = website p.
Proof.
  unfold get, asdict. cbn [list_to_map foldr fst snd].
  repeat split; by simplify_map_eq.
Qed.

Lemma contains_char (c : ascii) (s : string) :
  Py.contains (String c "") s = Py.any_str (Ascii.eqb c) s.
Proof.
  induction s as [|x s IH]; [reflexivity|].
  cbn [Py.contains Py.any_str String.prefix]. rewrite IH.
  destruct (Ascii.ascii_dec c x) as [->|Hne].
  - rewrite Ascii.eqb_refl. by destruct s.
  - apply Ascii.eqb_neq in Hne. by rewrite Hne.
Qed.

(** The first piece of a split is what precedes the first separator. *)
Lemma split_on_from_first (sep : ascii) (s : string) :
  forall tok : string,
    exists before : string,
      hd "" (Py.split_on_from sep tok s) = tok +:+ before
      /\ Py.any_str (Ascii.eqb sep) before = false
      /\ (s = before \/ exists rest, s = before +:+ String sep rest).
Proof.
  induction s as [|x s IH]; intros tok; cbn [Py.split_on_from].
  - exists "". rewrite append_nil_r.
    split; [reflexivity|]. split; [reflexivity | by left].
  - destruct (Ascii.eqb x sep) eqn:E.
    + apply Ascii.eqb_eq in E as ->. exists "". rewrite append_nil_r.
      split; [reflexivity|]. split; [reflexivity|]. right. by exists s.
    + destruct (IH (tok +:+ String x "")) as (before & Hhd & Hno & Hs).
      exists (String x before). rewrite Hhd, append_assoc.
      split; [reflexivity|]. split.
      * cbn [Py.any_str]. rewrite Ascii.eqb_sym, E. exact Hno.
      * destruct Hs as [->|[rest ->]]; [by left|]. right. by exists rest.
Qed.

Lemma written_name_cut (name : string) :
  (Py.contains (String Py.newline "") name = true ->
   exists before rest : string,
     name = before +:+ String Py.newline rest
     /\ Py.contains (String Py.newline "") before = false
     /\ written_name name = Py.strip before)
  /\ (Py.contains (String Py.newline "") name = false ->
      written_name name = name).
Proof.
  unfold written_name, first_line, Py.split_on. split; intros H; rewrite H.
  - assert (Py.truthy name = true) as -> by (by destruct name).
    cbn [andb].
    destruct (split_on_from_first Py.newline name "")
      as (before & -> & Hno & Hs).
    rewrite <- contains_char in Hno.
    destruct Hs as [->|[rest ->]]; [congruence|].
    by exists before, rest.
  - by rewrite andb_false_r.
Qed.




Lemma scrape_links_count (pair : Pair) (search_type search_query : string)
    (links : list string) :
  forall self (n : nat),
    n <= snd (scrape_links self pair search_type search_query links n)
    /\ (snd (scrape_links self pair search_type search_query links n) = n ->
        fst (scrape_links self pair search_type search_query links n) = self).
Proof.
  induction links as [|link rest IH]; intros self n; cbn [scrape_links].
  - split; [cbn [snd]; lia | reflexivity].
  - unfold scrape_link.
    destruct (scrape_detail_page self (detail_page pair link) link
                search_type search_query) as [record|].
    + match goal with |- context [scrape_links ?s _ _ _ _ _] =>
        destruct (IH s (S n)) as [Hle _] end.
      split; lia.
    + apply IH.
Qed.

Lemma scrape_pair_nothing self (pair : Pair) (search_type search_query : string) :
  snd (scrape_pair self pair search_type search_query) = 0 ->
  fst (scrape_pair self pair search_type search_query) = self.
Proof.
  unfold scrape_pair.
  destruct (negb (reachable pair)); [done|].
  destruct (negb (wait_for_results (timeline pair))); [done|].
  destruct (extract_all_links_from_cards (results_page pair)); [done|].
  apply scrape_links_count.
Qed.

Lemma scrape_types_nothing (site : string -> Pair) (search_query : string)
    (types : list string) :
  forall self,
    snd (scrape_types self site search_query types) = 0 ->
    fst (scrape_types self site search_query types) = self.
Proof.
  induction types as [|t rest IH]; intros self; cbn [scrape_types]; [done|].
  pose proof (scrape_pair_nothing self (site t) t search_query) as H.
  destruct (scrape_pair self (site t) t search_query) as [self1 n].
  specialize (IH self1).
  destruct (scrape_types self1 site search_query rest) as [self2 m].
  cbn [fst snd] in *. intros Hsum.
  rewrite IH by lia. apply H. lia.
Qed.

Lemma scrape_locations_nothing (site : nat -> string -> Pair)
    (locations : list (gmap string string)) :
  forall self (index : nat),
    results self = [] ->
    snd (scrape_locations self site index locations) = 0 ->
    fst (scrape_locations self site index locations) = self.
Proof.
  induction locations as [|location rest IH]; intros self index Hres;
    cbn [scrape_locations]; [done|].
  pose proof (scrape_types_nothing (site index)
                (construct_search_query location) SEARCH_TYPES self) as H.
  destruct (scrape_types self (site index) _ SEARCH_TYPES) as [self1 n].
  cbn [fst snd] in H.
  destruct (scrape_locations (save_to_csv self1) site (S index) rest)
    as [self2 m] eqn:E.
  cbn [fst snd]. intros Hsum.
  assert (self1 = self) as -> by (apply H; lia).
  assert (Hsave : save_to_csv self = self)
    by (unfold save_to_csv; by rewrite Hres).
  rewrite Hsave in E.
  specialize (IH self (S index) Hres). rewrite E in IH. apply IH.
  cbn [snd]. lia.
Qed.

(** C10. Flushing an empty batch changes nothing: the scraper and its
    file are returned as they were, so a file that does not exist is not
    created and no header is written; and a run that starts with an
    empty batch and accepts no record leaves the file as it found it. *)
Theorem empty_flush_is_a_no_op self :
  results self = [] ->
  save_to_csv self = self
  /\ output_csv (save_to_csv self) = output_csv self
  /\ (forall (site : nat -> string -> Pair)
             (locations : list (gmap string string)),
        snd (run self site locations) = 0 ->
        fst (run self site locations) = self
        /\ output_csv (fst (run self site locations)) = output_csv self).
Proof.
  intros Hres.
  assert (Hsave : save_to_csv self = self)
    by (unfold save_to_csv; by rewrite Hres).
  split; [exact Hsave|]. split; [by rewrite Hsave|].
  intros site locations Hzero.
  assert (fst (run self site locations) = self) as Hrun
    by (by apply scrape_locations_nothing).
  split; [exact Hrun | by rewrite Hrun].
Qed.

Lemma empty_flush_is_a_no_op_witness :
  results fresh = []
  /\ save_to_csv fresh = fresh
  /\ output_csv
       (fst (run fresh dead_site [location_of "Sydney" "NSW" "2000"]))
     = None.
Proof.
  assert (H : results fresh = []) by reflexivity.
  split; [exact H|].
  split; [exact (proj1 (empty_flush_is_a_no_op fresh H))|].
  apply (proj2 (proj2 (empty_flush_is_a_no_op fresh H))). reflexivity.
Defined.

End Persistence.

(* ================================================================== *)
(** ** Link harvesting *)
(* ================================================================== *)

Section Harvest.

Variable page : ResultsPage.

Implicit Types (links : list string) (hrefs : list (option string)).

Lemma in_firstn (n : nat) (x : string) links :
  In x (firstn n links) -> In x links.
Proof.
  revert n. induction links as [|y links IH]; intros [|n] H; simpl in *;
    try done.
  destruct H as [->|H]; [by left | right; by apply (IH n)].
Qed.

Lemma in_list_iff (x : string) links : Py.in_list x links = true <-> In x links.
Proof.
  unfold Py.in_list. rewrite existsb_exists. split.
  - intros (y & Hy & Heq). apply String.eqb_eq in Heq. by subst.
  - intros H. exists x. split; [exact H | apply String.eqb_refl].
Qed.

Lemma passes_iff links (href : string) :
  passes links href = true
  <-> Py.truthy href = true
      /\ detail_shaped (full_url_of href) = true
      /\ ~ In (full_url_of href) links.
Proof.
  unfold passes, is_new_detail_link, detail_shaped.
  rewrite !andb_true_iff, !negb_true_iff, <- in_list_iff.
  destruct (Py.in_list (full_url_of href) links); intuition congruence.
Qed.

Lemma nodup_snoc (x : string) links :
  List.NoDup links -> ~ In x links -> List.NoDup (links ++ [x]).
Proof.
  induction links as [|y links IH]; intros Hnd Hx; simpl.
  - constructor; [by intros [] | constructor].
  - inversion Hnd as [|? ? Hy Hnd']; subst. constructor.
    + rewrite in_app_iff. intros [H|[->|[]]]; [done|]. apply Hx. by left.
    + apply IH; [done|]. intros H. apply Hx. by right.
Qed.

Lemma nodup_firstn (n : nat) links :
  List.NoDup links -> List.NoDup (firstn n links).
Proof.
  revert n. induction links as [|y links IH]; intros [|n] Hnd; simpl;
    try constructor.
  - inversion Hnd; subst. intros H. by apply in_firstn in H.
  - inversion Hnd; subst. by apply IH.
Qed.

(** The inner loop adds nothing, or the first anchor that passes. *)
Lemma first_link_cases hrefs links :
  (first_link hrefs links = links
   /\ forall h, In (Some h) hrefs -> passes links h = false)
  \/ (exists before after href,
        hrefs = before ++ Some href :: after
        /\ (forall h, In (Some h) before -> passes links h = false)
        /\ passes links href = true
        /\ first_link hrefs links = links ++ [full_url_of href]).
Proof.
  induction hrefs as [|[h|] rest IH]; cbn [first_link].
  - left. split; [reflexivity | by intros ? []].
  - fold (passes links h). destruct (passes links h) eqn:E.
    + right. exists [], rest, h. repeat split; [by intros ? [] | exact E].
    + destruct IH as [[Heq Hnone] | (before & after & href & -> & Hb & Hp & Heq)].
      * left. split; [exact Heq|]. intros h' [[= <-]|Hin]; auto.
      * right. exists (Some h :: before), after, href.
        split; [reflexivity|]. split; [|by split].
        intros h' [[= <-]|Hin]; auto.
  - destruct IH as [[Heq Hnone] | (before & after & href & -> & Hb & Hp & Heq)].
    + left. split; [exact Heq|]. intros h' [[=]|Hin]; auto.
    + right. exists (None :: before), after, href.
      split; [reflexivity|]. split; [|by split].
      intros h' [[=]|Hin]; auto.
Qed.

Lemma extends_refl links : extends links links.
Proof. exists []. by rewrite app_nil_r. Qed.

Lemma extends_trans (a b c : list string) :
  extends a b -> extends b c -> extends a c.
Proof. intros [x ->] [y ->]. exists (x ++ y). by rewrite app_assoc. Qed.

Lemma collected_snoc links (href : string) :
  collected_on page links -> on_page page href -> passes links href = true ->
  collected_on page (links ++ [full_url_of href]).
Proof.
  intros [Hnd Hall] Hon Hp. apply passes_iff in Hp as (Ht & Hs & Hnew).
  split; [by apply nodup_snoc|].
  intros link Hin. apply in_app_or in Hin as [Hin|[<-|[]]]; [by apply Hall|].
  by exists href.
Qed.

Lemma first_link_keeps hrefs links :
  (forall h, In (Some h) hrefs -> on_page page h) ->
  collected_on page links ->
  collected_on page (first_link hrefs links)
  /\ extends links (first_link hrefs links).
Proof.
  intros Hon Hc.
  destruct (first_link_cases hrefs links)
    as [[-> _] | (before & after & href & Heq & _ & Hp & ->)].
  - split; [exact Hc | apply extends_refl].
  - split; [|by eexists]. apply collected_snoc; [exact Hc| |exact Hp].
    apply Hon. rewrite Heq. apply in_or_app. right. by left.
Qed.

Lemma link_selector_loop_keeps (card : Card) (i : nat)
    (selectors : list string) :
  (forall sel hrefs h, In sel selectors -> hrefs_of card sel = Some hrefs ->
                       In (Some h) hrefs -> on_page page h) ->
  forall links,
    collected_on page links ->
    collected_on page (link_selector_loop selectors card i links)
    /\ extends links (link_selector_loop selectors card i links).
Proof.
  induction selectors as [|sel rest IH]; intros Hon links Hc;
    cbn [link_selector_loop].
  - split; [exact Hc | apply extends_refl].
  - assert (Hrest : forall sel' hrefs h, In sel' rest ->
              hrefs_of card sel' = Some hrefs -> In (Some h) hrefs ->
              on_page page h)
      by (intros ? ? ? ?; apply Hon; by right).
    destruct (hrefs_of card sel) as [hrefs|] eqn:E; [|by apply IH].
    destruct (first_link_keeps hrefs links) as [Hc' He']; [|exact Hc|].
    { intros h Hin. apply (Hon sel hrefs); [by left | exact E | exact Hin]. }
    destruct (i <? length (first_link hrefs links)); [by split|].
    destruct (IH Hrest _ Hc') as [Hc'' He'']. split; [exact Hc''|].
    by apply (extends_trans _ _ _ He').
Qed.

Lemma card_loop_keeps (cards : list Card) :
  (forall card sel hrefs h, In card cards -> In sel link_selectors ->
      hrefs_of card sel = Some hrefs -> In (Some h) hrefs -> on_page page h) ->
  forall (i : nat) links,
    collected_on page links ->
    collected_on page (card_loop cards i links)
    /\ extends links (card_loop cards i links).
Proof.
  induction cards as [|card rest IH]; intros Hon i links Hc; cbn [card_loop].
  - split; [exact Hc | apply extends_refl].
  - destruct (link_selector_loop_keeps card i link_selectors) with (links := links)
      as [Hc' He']; [|exact Hc|].
    { intros sel hrefs h Hsel. apply (Hon card); [by left | exact Hsel]. }
    destruct (IH (fun c s hs h Hin => Hon c s hs h (or_intror Hin)) (S i) _ Hc')
      as [Hc'' He''].
    split; [exact Hc''|]. by apply (extends_trans _ _ _ He').
Qed.

Lemma cards_on_page (card_selector : string) (cards : list Card) :
  In card_selector card_selectors ->
  cards_of page card_selector = Some cards ->
  forall card sel hrefs h, In card cards -> In sel link_selectors ->
    hrefs_of card sel = Some hrefs -> In (Some h) hrefs -> on_page page h.
Proof.
  intros Hsel Hcards card sel hrefs h Hcard Hlsel Hhrefs Hin. left.
  by exists card_selector, sel, cards, card, hrefs.
Qed.

Lemma card_selector_loop_keeps (selectors : list string) :
  (forall sel, In sel selectors -> In sel card_selectors) ->
  forall links,
    collected_on page links ->
    collected_on page (card_selector_loop selectors page links)
    /\ extends links (card_selector_loop selectors page links).
Proof.
  induction selectors as [|sel rest IH]; intros Hsub links Hc;
    cbn [card_selector_loop].
  - split; [exact Hc | apply extends_refl].
  - assert (Hrest : forall s, In s rest -> In s card_selectors)
      by (intros s Hs; apply Hsub; by right).
    destruct (cards_of page sel) as [cards|] eqn:E; [|by apply IH].
    destruct (card_loop_keeps cards) with (i := 0) (links := links)
      as [Hc' He']; [|exact Hc|].
    { apply (cards_on_page sel); [apply Hsub; by left | exact E]. }
    destruct (IH Hrest _ Hc') as [Hc'' He'']. split; [exact Hc''|].
    by apply (extends_trans _ _ _ He').
Qed.

Lemma broad_loop_keeps hrefs :
  (forall h, In (Some h) hrefs -> on_page page h) ->
  forall links,
    collected_on page links -> collected_on page (broad_loop hrefs links).
Proof.
  induction hrefs as [|[h|] rest IH]; intros Hon links Hc; cbn [broad_loop].
  - exact Hc.
  - assert (Hrest : forall h', In (Some h') rest -> on_page page h')
      by (intros h' Hin; apply Hon; by right).
    fold (passes links h). destruct (passes links h) eqn:E.
    + apply IH; [exact Hrest|]. apply collected_snoc; [exact Hc| |exact E].
      apply Hon. by left.
    + by apply IH.
  - apply IH; [|exact Hc]. intros h' Hin. apply Hon. by right.
Qed.

Lemma collected_nil : collected_on page [].
Proof. split; [constructor | by intros ? []]. Qed.

Lemma harvested_collected : collected_on page (harvested page).
Proof.
  unfold harvested.
  destruct (card_selector_loop_keeps card_selectors (fun _ H => H) []
              collected_nil) as [Hc _].
  destruct (card_selector_loop card_selectors page []) eqn:E; [|exact Hc].
  apply broad_loop_keeps; [|exact collected_nil].
  intros h Hin. by right.
Qed.









(** C4. With a cap [c > 0] the harvester returns the first [min k c] of
    the [k] links it found, in the order of discovery, without a
    duplicate and without a link that holds "results"; the post-filter
    removes nothing; and a page without links gives the empty list. *)
Theorem cap_keeps_first_links (c : Z) :
  (0 < c)%Z ->
  let found := harvested page in
  let out := extract_all_links_from_cards_with (Some c) page in
  out = firstn (Nat.min (length found) (Z.to_nat c)) found
  /\ length out = Nat.min (length found) (Z.to_nat c)
  /\ List.NoDup out
  /\ (forall link, In link out -> Py.contains "results" link = false)
  /\ (found = [] -> out = [])
  /\ extract_all_links_from_cards page = firstn 2 found.
Proof.
  intros Hc found out.
  destruct harvested_collected as [Hnd Hall]. fold found in Hnd, Hall.
  assert (Hfilter :
    List.filter (fun link => negb (Py.contains "results" link)) found = found).
  { apply forallb_filter_id. apply forallb_forall. intros link Hin.
    destruct (Hall link Hin) as (href & _ & _ & Hs & _).
    unfold detail_shaped in Hs. by apply andb_true_iff in Hs as [_ ->]. }
  assert (Hout : out = firstn (Z.to_nat c) found).
  { subst out. unfold extract_all_links_from_cards_with, apply_cap.
    fold found. rewrite Hfilter.
    by destruct (Z.ltb_spec 0 c) as [_|H]; [|lia]. }
  assert (Hmin : firstn (Nat.min (length found) (Z.to_nat c)) found
                 = firstn (Z.to_nat c) found).
  { destruct (Nat.le_ge_cases (length found) (Z.to_nat c)) as [H|H].
    - rewrite Nat.min_l by exact H.
      rewrite firstn_all. symmetry. by apply firstn_all2.
    - by rewrite Nat.min_r by exact H. }
  split; [by rewrite Hmin|]. split; [|split; [|split; [|split]]].
  - rewrite Hout, length_firstn. lia.
  - rewrite Hout. by apply nodup_firstn.
  - intros link Hin. rewrite Hout in Hin. apply in_firstn in Hin.
    destruct (Hall link Hin) as (href & _ & _ & Hs & _).
    unfold detail_shaped in Hs. apply andb_true_iff in Hs as [_ Hs].
    by apply negb_true_iff in Hs.
  - intros Hnil. rewrite Hout, Hnil. by destruct (Z.to_nat c).
  - unfold extract_all_links_from_cards, extract_all_links_from_cards_with,
      LINK_PER_SEARCH, apply_cap. fold found. by rewrite Hfilter.
Qed.

End Harvest.


Lemma cap_keeps_first_links_witness :
  (0 < 1)%Z
  /\ extract_all_links_from_cards_with (Some 1%Z) page_two_selectors
     = firstn (Nat.min (length (harvested page_two_selectors)) (Z.to_nat 1))
         (harvested page_two_selectors).
Proof.
  assert (H : (0 < 1)%Z) by lia.
  split; [exact H|].
  exact (proj1 (cap_keeps_first_links page_two_selectors 1%Z H)).
Defined.


(* ================================================================== *)
(** ** Further properties: telephone keys *)
(* ================================================================== *)

Section TelephoneKeys.

Implicit Types (self : Scraper) (t : string).

Lemma remove_chars_append (p : ascii -> bool) (a b : string) :
  remove_chars p (a +:+ b) = remove_chars p a +:+ remove_chars p b.
Proof.
  induction a as [|c a IH]; simpl; [reflexivity|].
  destruct (p c); simpl; by rewrite IH.
Qed.

Lemma remove_chars_none (p : ascii -> bool) (s : string) :
  Py.any_str p (remove_chars p s) = false.
Proof.
  induction s as [|c s IH]; simpl; [reflexivity|].
  destruct (p c) eqn:E; simpl; [exact IH | by rewrite E, IH].
Qed.

Lemma remove_chars_id (p : ascii -> bool) (s : string) :
  Py.any_str p s = false -> remove_chars p s = s.
Proof.
  induction s as [|c s IH]; simpl; [reflexivity|].
  intros H. apply orb_false_iff in H as [-> Hs]. by rewrite IH.
Qed.

Lemma remove_chars_lstrip (p : ascii -> bool) (s : string) :
  (forall c, Py.isspace c = true -> p c = true) ->
  remove_chars p (Py.lstrip s) = remove_chars p s.
Proof.
  intros Hp. induction s as [|c s IH]; simpl; [reflexivity|].
  destruct (Py.isspace c) eqn:E; [|reflexivity].
  by rewrite (Hp c E).
Qed.

Lemma remove_chars_rstrip (p : ascii -> bool) (s : string) :
  (forall c, Py.isspace c = true -> p c = true) ->
  remove_chars p (Py.rstrip s) = remove_chars p s.
Proof.
  intros Hp. induction s as [|c s IH]; simpl; [reflexivity|].
  destruct (Py.rstrip s) as [|d r] eqn:E.
  - simpl in IH. destruct (Py.isspace c) eqn:Ec.
    + rewrite (Hp c Ec). exact IH.
    + simpl. by rewrite <- IH.
  - cbn [remove_chars]. by rewrite <- IH.
Qed.

Lemma clean_telephone_filter t :
  clean_telephone t = remove_chars separator t.
Proof.
  unfold clean_telephone. destruct t as [|c t]; [reflexivity|].
  cbn [Py.truthy negb]. unfold Py.strip.
  change (fun c0 => Py.isspace c0 || Re.oneof "-()" c0) with separator.
  assert (Hp : forall x, Py.isspace x = true -> separator x = true)
    by (intros x Hx; unfold separator; by rewrite Hx).
  by rewrite remove_chars_rstrip, remove_chars_lstrip.
Qed.

Lemma clean_telephone_append (a b : string) :
  clean_telephone (a +:+ b) = clean_telephone a +:+ clean_telephone b.
Proof. rewrite !clean_telephone_filter. apply remove_chars_append. Qed.

Lemma clean_telephone_no_separator t :
  Py.any_str separator (clean_telephone t) = false.
Proof. rewrite clean_telephone_filter. apply remove_chars_none. Qed.

Lemma clean_telephone_idem t :
  clean_telephone (clean_telephone t) = clean_telephone t.
Proof.
  rewrite !clean_telephone_filter. apply remove_chars_id, remove_chars_none.
Qed.

(** X1. The key of a telephone is the telephone without its whitespace,
    hyphens and parentheses, wherever they stand: the key of a
    concatenation is the concatenation of the keys, a key holds none of
    these characters, and cleaning a key gives the key again. *)
Theorem clean_telephone_is_a_normal_form t :
  clean_telephone t = remove_chars separator t
  /\ (forall a b : string,
        clean_telephone (a +:+ b) = clean_telephone a +:+ clean_telephone b)
  /\ Py.any_str separator (clean_telephone t) = false
  /\ clean_telephone (clean_telephone t) = clean_telephone t.
Proof.
  split; [apply clean_telephone_filter|]. split; [|split].
  - apply clean_telephone_append.
  - apply clean_telephone_no_separator.
  - apply clean_telephone_idem.
Qed.

Lemma clean_nonempty_truthy t :
  Py.truthy (clean_telephone t) = true -> Py.truthy t = true.
Proof. by destruct t. Qed.

(** X2. Once a telephone with a non-empty key is added, every telephone
    with the same key is a duplicate, however it is written; telephones
    with another key are duplicates exactly as before. *)
Theorem added_telephone_is_a_duplicate self t (t' : string) :
  Py.truthy (clean_telephone t) = true ->
  (clean_telephone t' = clean_telephone t ->
   is_duplicate_telephone (add_telephone_to_memory self t) t' = true)
  /\ (clean_telephone t' <> clean_telephone t ->
      is_duplicate_telephone (add_telephone_to_memory self t) t'
      = is_duplicate_telephone self t').
Proof.
  intros Hkey. pose proof (clean_nonempty_truthy t Hkey) as Ht.
  unfold add_telephone_to_memory. rewrite Ht, Hkey.
  unfold is_duplicate_telephone. cbn [existing_telephones]. split.
  - intros Heq. assert (Py.truthy t' = true) as ->
      by (apply clean_nonempty_truthy; by rewrite Heq).
    cbn [negb]. apply bool_decide_eq_true. rewrite Heq.
    apply elem_of_union. left. by apply elem_of_singleton.
  - intros Hne. destruct (Py.truthy t'); [|reflexivity]. cbn [negb].
    apply bool_decide_ext. rewrite elem_of_union, elem_of_singleton.
    split; [by intros [?|?] | by right].
Qed.

Lemma added_telephone_is_a_duplicate_witness :
  Py.truthy (clean_telephone "02 8388 8000") = true
  /\ is_duplicate_telephone (add_telephone_to_memory fresh "02 8388 8000")
       "(02) 8388-8000" = true.
Proof.
  assert (H : Py.truthy (clean_telephone "02 8388 8000") = true)
    by (vm_compute; reflexivity).
  split; [exact H|].
  apply (proj1 (added_telephone_is_a_duplicate fresh "02 8388 8000"
                  "(02) 8388-8000" H)).
  vm_compute. reflexivity.
Defined.

End TelephoneKeys.

(* ================================================================== *)
(** ** Further properties: what the extractors return *)
(* ================================================================== *)

Section ExtractorResults.

Import Re.

Lemma infix_refl (s : string) : infix s s.
Proof. exists "", "". by rewrite append_nil_r. Qed.

Lemma infix_skip (c : ascii) (m s : string) : infix m s -> infix m (String c s).
Proof. intros (a & b & ->). by exists (String c a), b. Qed.

Lemma infix_prefix (m rest : string) : infix m (m +:+ rest).
Proof. by exists "", rest. Qed.

Lemma match_here_prefix (r : regex) (prev : option ascii) (s m : string) :
  match_here r prev s = Some m ->
  (exists rest, s = m +:+ rest) /\ matches r m.
Proof.
  unfold match_here.
  destruct (run r prev s _) as [rest|] eqn:E; [|done].
  apply run_sound in E as (m' & _ & s' & -> & Hm & [= ->]).
  rewrite take_str_append. intros [= <-]. split; [by exists rest | done].
Qed.

Lemma search_from_infix (r : regex) (s m : string) :
  forall prev : option ascii,
    search_from r prev s = Some m -> infix m s /\ matches r m.
Proof.
  induction s as [|c s IH]; intros prev; cbn [search_from];
    destruct (match_here r prev _) as [m'|] eqn:E.
  - intros [= <-]. apply match_here_prefix in E as [[rest ->] Hm].
    split; [apply infix_prefix | done].
  - done.
  - intros [= <-]. apply match_here_prefix in E as [[rest ->] Hm].
    split; [apply infix_prefix | done].
  - intros H. apply IH in H as [Hin Hm]. split; [by apply infix_skip | done].
Qed.

Lemma findall_from_infix (r : regex) (m s : string) :
  forall (skip : nat) (prev : option ascii),
    In m (findall_from r skip prev s) -> infix m s.
Proof.
  induction s as [|c s IH]; intros skip prev; cbn [findall_from].
  - destruct skip; [|done].
    destruct (match_here r prev "") as [m'|] eqn:E; [|done].
    intros [<-|[]]. apply match_here_prefix in E as [[rest ->] _].
    apply infix_prefix.
  - destruct skip as [|n]; [|intros H; apply infix_skip; by apply IH in H].
    destruct (match_here r prev (String c s)) as [m'|] eqn:E;
      [|intros H; apply infix_skip; by apply IH in H].
    intros [<-|Hin].
    + apply match_here_prefix in E as [[rest ->] _]. apply infix_prefix.
    + apply infix_skip. by apply IH in Hin.
Qed.

Lemma all_str_append (p : ascii -> bool) (a b : string) :
  Py.all_str p (a +:+ b) = Py.all_str p a && Py.all_str p b.
Proof.
  induction a as [|c a IH]; simpl; [reflexivity|].
  by rewrite IH, andb_assoc.
Qed.

Lemma length_append (a b : string) :
  String.length (a +:+ b) = String.length a + String.length b.
Proof. induction a as [|c a IH]; simpl; [reflexivity | by rewrite IH]. Qed.

(** A match is made of characters of the classes of its pattern. *)
Lemma matches_classes (allowed : ascii -> bool) (r : regex) :
  classes_in allowed r ->
  forall m, matches r m -> Py.all_str allowed m = true.
Proof.
  induction r as [|p| |r1 IH1 r2 IH2|r1 IH1 r2 IH2|body IH lo hi];
    intros Hc m Hm; inversion Hm; subst; cbn [classes_in] in Hc.
  - reflexivity.
  - simpl. by rewrite (Hc c).
  - reflexivity.
  - destruct Hc as [Hc1 Hc2]. rewrite all_str_append.
    by rewrite (IH1 Hc1), (IH2 Hc2).
  - destruct Hc as [Hc1 _]. by apply IH1.
  - destruct Hc as [_ Hc2]. by apply IH2.
  - match goal with H : repeats body ?n m |- _ =>
      revert H; clear -IH Hc; revert m; induction n as [|n IHn];
      intros m H; inversion H; subst end; [reflexivity|].
    rewrite all_str_append. rewrite IHn by done. by rewrite IH.
Qed.

Lemma all_not_space (s : string) :
  Py.all_str not_space s = true -> Py.any_str Py.isspace s = false.
Proof.
  induction s as [|c s IH]; simpl; [done|]. unfold not_space at 1.
  rewrite andb_true_iff, negb_true_iff. intros [-> Hs]. by apply IH.
Qed.

Lemma token_strip (s : string) : token s -> Py.strip s = s.
Proof.
  intros Ht. unfold Py.strip. rewrite <- (append_nil_r s) at 1.
  rewrite lstrip_token, append_nil_r by exact Ht. by apply rstrip_token.
Qed.

Lemma matches_rep_cls (p : ascii -> bool) (lo : nat) (hi : option nat)
    (m : string) :
  matches (Rep (Cls p) lo hi) m ->
  lo <= String.length m /\ Py.all_str p m = true
  /\ match hi with Some h => String.length m <= h | None => True end.
Proof.
  intros H. inversion H as [| | | | | |? ? ? n ? Hrep Hlo Hhi]; subst.
  apply repeats_cls in Hrep as [<- Hall]. by repeat split.
Qed.

Lemma matches_chr (c : ascii) (m : string) :
  matches (chr c) m -> m = String c "".
Proof.
  unfold chr. intros H. inversion H as [|? ? Heq| | | | |]; subst.
  apply Ascii.eqb_eq in Heq. by subst.
Qed.

Lemma matches_lit (s m : string) : matches (lit s) m -> m = s.
Proof.
  revert m. induction s as [|c s IH]; intros m H; cbn [lit] in H;
    inversion H; subst; [reflexivity|].
  match goal with
  | H1 : matches (chr c) _, H2 : matches (lit s) _ |- _ =>
      apply matches_chr in H1; apply IH in H2; subst
  end. reflexivity.
Qed.

Ltac split_seq :=
  repeat match goal with
         | H : matches (Cat _ _) _ |- _ => inversion H; clear H; subst
         | H : matches WordB _ |- _ => inversion H; clear H; subst
         | H : matches Eps _ |- _ => inversion H; clear H; subst
         end.

Local Ltac by_all_chars :=
  let c := fresh "c" in
  intros c; destruct c as [[] [] [] [] [] [] [] []]; vm_compute; congruence.

Lemma email_pattern_classes : classes_in not_space email_pattern.
Proof.
  unfold email_pattern, seq, plus, chr. cbn [fold_right classes_in].
  repeat split; by_all_chars.
Qed.

Lemma email_pattern_shape (m : string) :
  matches email_pattern m -> email_shaped m.
Proof.
  unfold email_pattern, seq, plus. cbn [fold_right]. intros H. split_seq.
  repeat match goal with
         | H : matches (chr _) _ |- _ => apply matches_chr in H; subst
         | H : matches (Rep (Cls _) _ _) _ |- _ =>
             apply matches_rep_cls in H as (? & ? & _)
         end.
  match goal with
  | |- email_shaped ("" +:+ ?l +:+ _ +:+ ?d +:+ _ +:+ ?t +:+ _) =>
      exists l, d, t
  end.
  cbn [String.append]. rewrite !append_nil_r.
  split; [reflexivity|].
  split; [intros ->; simpl in *; lia|].
  split; [intros ->; simpl in *; lia|]. by repeat split.
Qed.

(** X3. The email is empty or a piece of the text of the form
    [local@domain.tld] without whitespace, as the pattern spells it. *)
Theorem email_is_empty_or_email_shaped (text : string) :
  _extract_email text = ""
  \/ (infix (_extract_email text) text
      /\ email_shaped (_extract_email text)
      /\ Py.any_str Py.isspace (_extract_email text) = false).
Proof.
  unfold _extract_email.
  destruct (search email_pattern text) as [m|] eqn:E; [right | by left].
  apply search_from_infix in E as [Hin Hm].
  pose proof (email_pattern_shape m Hm) as Hshape.
  pose proof (all_not_space m
                (matches_classes not_space _ email_pattern_classes m Hm)) as Hws.
  assert (token m) as Ht.
  { split; [|exact Hws].
    destruct Hshape as (l & d & t & -> & Hl & _). by destruct l. }
  by rewrite (token_strip m Ht).
Qed.

Lemma website_pattern_classes : classes_in not_space website_pattern.
Proof.
  unfold website_pattern, seq, plus, star, opt, times, chr.
  cbn [fold_right classes_in lit]. unfold chr.
  repeat split; by_all_chars.
Qed.

Lemma repeats_nonempty (r : regex) (n : nat) (m : string) :
  (forall x, matches r x -> x <> "") ->
  repeats r (S n) m -> m <> "".
Proof.
  intros Hbody H. inversion H as [|? ? a b Ha Hb]; subst.
  apply Hbody in Hb. destruct a; [by destruct b | done].
Qed.

Lemma website_pattern_shape (m : string) :
  matches website_pattern m ->
  exists rest : string,
    (m = "http://" +:+ rest \/ m = "https://" +:+ rest) /\ rest <> "".
Proof.
  unfold website_pattern, seq, plus, star, opt. cbn [fold_right].
  intros H.
  inversion H as [| | |? ? pre m1 Hpre H1| | |]; clear H; subst.
  apply (matches_lit "http") in Hpre. subst pre.
  inversion H1 as [| | |? ? s m2 Hs H2| | |]; clear H1; subst.
  inversion H2 as [| | |? ? sep m3 Hsep H3| | |]; clear H2; subst.
  apply (matches_lit "://") in Hsep. subst sep.
  inversion H3 as [| | |? ? host m4 Hhost _| | |]; clear H3; subst.
  apply matches_rep_cls in Hs as (_ & Hs & Hlen).
  assert (host <> "") as Hne.
  { inversion Hhost as [| | | | | |? ? ? n ? Hrep Hlo _]; subst.
    destruct n as [|n]; [lia|].
    eapply repeats_nonempty; [|exact Hrep].
    intros x Hx. inversion Hx as [| | | |? ? ? Hl|? ? ? Hr|]; subst.
    - inversion Hl; subst. done.
    - inversion Hr as [| | |? ? ? ? Hp _| | |]; subst.
      apply matches_chr in Hp. by subst. }
  exists (host +:+ m4). split.
  - destruct s as [|c [|c' s']]; simpl in Hlen; [by left| |lia].
    cbn [Py.all_str] in Hs. rewrite andb_true_r in Hs.
    apply Ascii.eqb_eq in Hs. subst. by right.
  - destruct host; [done | by simpl].
Qed.

Lemma first_external_cases (matches : list string) :
  first_external matches = ""
  \/ exists m, In m matches
               /\ Py.contains "myagedcare.gov.au" m = false
               /\ Py.contains "bot.sannysoft.com" m = false
               /\ first_external matches = Py.strip m.
Proof.
  induction matches as [|m rest IH]; cbn [first_external]; [by left|].
  destruct (negb (Py.contains "myagedcare.gov.au" m)
            && negb (Py.contains "bot.sannysoft.com" m)) eqn:E.
  - right. exists m. apply andb_true_iff in E as [E1 E2].
    apply negb_true_iff in E1, E2. repeat split; [by left | done | done].
  - destruct IH as [->|(m' & Hin & H1 & H2 & ->)]; [by left|].
    right. exists m'. repeat split; [by right | done | done].
Qed.

(** X4. The website is empty or a piece of the text that starts with
    [http://] or [https://], holds no whitespace and names neither the
    directory itself nor the bot-detection site. *)
Theorem website_is_empty_or_external_url (text : string) :
  _extract_website text = ""
  \/ (infix (_extract_website text) text
      /\ website_shaped (_extract_website text)
      /\ Py.contains "myagedcare.gov.au" (_extract_website text) = false
      /\ Py.contains "bot.sannysoft.com" (_extract_website text) = false).
Proof.
  unfold _extract_website.
  destruct (first_external_cases (findall website_pattern text))
    as [->|(m & Hin & H1 & H2 & ->)]; [by left | right].
  pose proof (findall_from_infix _ _ _ _ _ Hin) as Hinfix.
  apply findall_sound in Hin.
  pose proof (all_not_space m
                (matches_classes not_space _ website_pattern_classes m Hin))
    as Hws.
  destruct (website_pattern_shape m Hin) as (rest & Hm & Hrest).
  assert (token m) as Ht.
  { split; [|exact Hws]. by destruct Hm as [-> | ->]. }
  rewrite (token_strip m Ht). repeat split; try done.
  by exists rest.
Qed.

Lemma matches_states (m : string) : matches states m -> In m state_codes.
Proof.
  unfold states, alt. cbn [fold_left]. intros H.
  repeat match goal with
         | H : matches (Or _ _) _ |- _ => inversion H; clear H; subst
         end;
    match goal with
    | H : matches _ m |- _ =>
        first [ apply (matches_lit "ACT") in H | apply (matches_lit "NSW") in H
              | apply (matches_lit "NT") in H | apply (matches_lit "QLD") in H
              | apply (matches_lit "SA") in H | apply (matches_lit "TAS") in H
              | apply (matches_lit "VIC") in H | apply (matches_lit "WA") in H ]
    end; subst; unfold state_codes; cbn [In]; auto 10.
Qed.

Lemma address_pattern_shape (m : string) :
  matches address_pattern m -> address_shaped m /\ Py.strip m = m.
Proof.
  unfold address_pattern, seq, plus, opt, space, digit. cbn [fold_right].
  intros H.
  inversion H as [| | |? ? num r1 Hnum H1| | |]; clear H; subst.
  inversion H1 as [| | |? ? street r2 _ H2| | |]; clear H1; subst.
  inversion H2 as [| | |? ? comma r3 _ H3| | |]; clear H2; subst.
  inversion H3 as [| | |? ? sp1 r4 _ H4| | |]; clear H3; subst.
  inversion H4 as [| | |? ? suburb r5 _ H5| | |]; clear H4; subst.
  inversion H5 as [| | |? ? sp2 r6 _ H6| | |]; clear H5; subst.
  inversion H6 as [| | |? ? pc r7 Hpc H7| | |]; clear H6; subst.
  inversion H7 as [| | |? ? gap r8 Hgap H8| | |]; clear H7; subst.
  inversion H8 as [| | |? ? code e Hcode He| | |]; clear H8; subst.
  inversion He; subst. rewrite append_nil_r.
  apply matches_rep_cls in Hnum as (Hn & Hdig & _).
  apply (matches_digits 4) in Hpc.
  apply matches_rep_cls in Hgap as (Hg & Hws & _).
  apply matches_states in Hcode.
  destruct num as [|d num]; [simpl in Hn; lia|].
  cbn [Py.all_str] in Hdig. apply andb_true_iff in Hdig as [Hd _].
  assert (Htok : token code).
  { unfold state_codes in Hcode. cbn [In] in Hcode.
    repeat (destruct Hcode as [<-|Hcode]; [by vm_compute|]). destruct Hcode. }
  split.
  - exists d, (num +:+ street +:+ comma +:+ sp1 +:+ suburb +:+ sp2), pc, gap,
      code.
    split; [cbn [String.append]; by rewrite !append_assoc|].
    split; [exact Hd|]. split; [exact Hpc|]. split; [|by split].
    intros ->. simpl in Hg. lia.
  - unfold Py.strip.
    assert (Hd' : Py.isspace d = false)
      by (destruct d as [[] [] [] [] [] [] [] []]; vm_compute in Hd |- *;
          congruence).
    cbn [String.append Py.lstrip]. rewrite Hd'.
    change (String d (num +:+ street +:+ comma +:+ sp1 +:+ suburb +:+ sp2
                      +:+ pc +:+ gap +:+ code))
      with (String d num +:+ street +:+ comma +:+ sp1 +:+ suburb +:+ sp2
            +:+ pc +:+ gap +:+ code).
    rewrite <- !append_assoc. by rewrite rstrip_append_token.
Qed.

(** Success of the matcher grows with the success of what follows. *)
Lemma run_mono (r : regex) :
  forall (prev : option ascii) (s : string)
         (k k' : option ascii -> string -> option string),
    (forall p x, is_Some (k p x) -> is_Some (k' p x)) ->
    is_Some (run r prev s k) -> is_Some (run r prev s k').
Proof.
  induction r as [|p| |r1 IH1 r2 IH2|r1 IH1 r2 IH2|body IH lo hi];
    intros prev s k k' Hk; cbn [run].
  - apply Hk.
  - destruct s as [|c s]; [done|]. destruct (p c); [apply Hk | done].
  - destruct (at_boundary prev s); [apply Hk | done].
  - apply IH1. intros p x. by apply IH2.
  - intros H. destruct (run r1 prev s k) as [out|] eqn:E.
    + assert (is_Some (run r1 prev s k')) as [out' ->]
        by (apply (IH1 prev s k k' Hk); by rewrite E).
      by eexists.
    + apply (IH2 prev s k k' Hk) in H.
      destruct (run r1 prev s k'); [by eexists | exact H].
  - generalize (String.length s) as fuel. generalize 0 as n. revert prev s.
    intros prev s n fuel. revert n prev s.
    induction fuel as [|fuel IHf]; intros n prev s;
      cbv fix beta iota zeta.
    + destruct (lo <=? n); [apply Hk | done].
    + intros H.
      assert (Hstop : is_Some (if lo <=? n then k prev s else None) ->
                      is_Some (if lo <=? n then k' prev s else None))
        by (destruct (lo <=? n); [apply Hk | done]).
      destruct (below n hi); [|by apply Hstop].
      match type of H with
      | is_Some (match ?e with _ => _ end) => destruct e as [out|] eqn:E
      end.
      * match goal with
        | |- is_Some (match ?e' with _ => _ end) =>
            assert (is_Some e') as [out' ->]; [|by eexists]
        end.
        match type of E with
        | run body prev s ?kk = _ => apply (IH prev s kk); [|by rewrite E]
        end.
        intros p x. destruct (String.length x <? String.length s); [|done].
        apply IHf.
      * match goal with
        | |- is_Some (match ?e' with _ => _ end) =>
            destruct e'; [by eexists | by apply Hstop]
        end.
Qed.

Lemma opt_passes (r : regex) (prev : option ascii) (s : string)
    (k : option ascii -> string -> option string) :
  is_Some (k prev s) -> is_Some (run (opt r) prev s k).
Proof.
  intros H. unfold opt. cbn [run]. generalize (String.length s) as fuel.
  intros [|fuel]; cbv fix beta iota zeta; cbn [Nat.leb]; [exact H|].
  match goal with
  | |- is_Some (match ?e with _ => _ end) =>
      destruct e; [by eexists | exact H]
  end.
Qed.

(** Where the pattern without the optional part matches, the pattern
    with it matches as well. *)
Lemma optional_part (a b o rest : regex) (prev : option ascii) (s : string) :
  is_Some (match_here (Cat a (Cat b rest)) prev s) ->
  is_Some (match_here (Cat a (Cat b (Cat (opt o) rest))) prev s).
Proof.
  unfold match_here.
  set (k := fun (_ : option ascii) (x : string) => Some x).
  intros H.
  assert (is_Some (run (Cat a (Cat b rest)) prev s k)) as H'
    by (destruct (run (Cat a (Cat b rest)) prev s k); [by eexists|];
        by destruct H).
  assert (is_Some (run (Cat a (Cat b (Cat (opt o) rest))) prev s k))
    as [out ->]; [|by eexists].
  revert H'. cbn [run]. apply run_mono. intros p x. apply run_mono.
  intros p' x'. apply (opt_passes o p' x' (fun p0 x0 => run rest p0 x0 k)).
Qed.

Lemma search_from_optional (a b o rest : regex) (s : string) :
  forall prev : option ascii,
    search_from (Cat a (Cat b (Cat (opt o) rest))) prev s = None ->
    search_from (Cat a (Cat b rest)) prev s = None.
Proof.
  induction s as [|c s IH]; intros prev; cbn [search_from]; intros H.
  - destruct (match_here (Cat a (Cat b rest)) prev "") eqn:E; [|done].
    assert (is_Some (match_here (Cat a (Cat b (Cat (opt o) rest))) prev ""))
      as [m Hm] by (apply optional_part; by rewrite E).
    by rewrite Hm in H.
  - destruct (match_here (Cat a (Cat b rest)) prev (String c s)) eqn:E.
    + assert (is_Some (match_here (Cat a (Cat b (Cat (opt o) rest))) prev
                         (String c s)))
        as [m Hm] by (apply optional_part; by rewrite E).
      by rewrite Hm in H.
    + destruct (match_here (Cat a (Cat b (Cat (opt o) rest))) prev
                  (String c s)); [done|]. by apply IH.
Qed.

(** X5. The address is the leftmost match of the first pattern in the
    uppercased text, unchanged by the strip, and the empty string when
    that pattern finds nothing: where the pattern with the optional
    comma fails the pattern without it fails too, so the second search
    never supplies an address.  An address starts with a digit and ends
    with four digits, whitespace and a state code. *)
Theorem address_comes_from_the_first_pattern (text : string) :
  _extract_address text
  = match search address_pattern (Py.upper text) with
    | Some m => m
    | None => ""
    end
  /\ (search address_pattern (Py.upper text) = None ->
      search address_pattern2 (Py.upper text) = None)
  /\ (_extract_address text = ""
      \/ (infix (_extract_address text) (Py.upper text)
          /\ address_shaped (_extract_address text))).
Proof.
  assert (Hdead : search address_pattern (Py.upper text) = None ->
                  search address_pattern2 (Py.upper text) = None)
    by apply search_from_optional.
  unfold _extract_address.
  destruct (search address_pattern (Py.upper text)) as [m|] eqn:E.
  - apply search_from_infix in E as [Hin Hm].
    destruct (address_pattern_shape m Hm) as [Hshape ->].
    split; [reflexivity|]. split; [done|]. by right.
  - rewrite (Hdead eq_refl). split; [reflexivity|]. split; [done | by left].
Qed.

Lemma address_comes_from_the_first_pattern_witness :
  search address_pattern (Py.upper "High St, Kew VIC 3101") = None
  /\ search address_pattern2 (Py.upper "High St, Kew VIC 3101") = None.
Proof.
  assert (H : search address_pattern (Py.upper "High St, Kew VIC 3101")
              = None) by (vm_compute; reflexivity).
  split; [exact H|].
  exact (proj1 (proj2 (address_comes_from_the_first_pattern
                         "High St, Kew VIC 3101")) H).
Defined.

Lemma digits_clean (n : nat) (s : string) :
  digits n s -> clean_telephone s = s.
Proof.
  intros [_ Hall]. rewrite clean_telephone_filter. apply remove_chars_id.
  induction s as [|c s IH]; simpl in *; [reflexivity|].
  apply andb_true_iff in Hall as [Hc Hs]. rewrite (IH Hs), orb_false_r.
  destruct c as [[] [] [] [] [] [] [] []]; vm_compute in Hc |- *; congruence.
Qed.

Lemma digits_append (a b : nat) (x y : string) :
  digits a x -> digits b y -> digits (a + b) (x +:+ y).
Proof.
  intros [<- Hx] [<- Hy]. split; [apply length_append|].
  by rewrite all_str_append, Hx, Hy.
Qed.

Lemma grouped_clean (a b c : nat) (sep : ascii) (m : string) :
  separator sep = true -> grouped a b c sep m ->
  digits (a + b + c) (clean_telephone m).
Proof.
  intros Hsep (x & y & z & Hx & Hy & Hz & ->).
  change (x +:+ String sep (y +:+ String sep z))
    with (x +:+ String sep "" +:+ y +:+ String sep "" +:+ z).
  rewrite !clean_telephone_append.
  rewrite (digits_clean a x), (digits_clean b y), (digits_clean c z) by done.
  assert (clean_telephone (String sep "") = "") as ->
    by (rewrite clean_telephone_filter; simpl; by rewrite Hsep).
  cbn [String.append]. rewrite <- Nat.add_assoc.
  by repeat apply digits_append.
Qed.

Lemma tel_match_key (text : string) (p : regex) (m : string) :
  In p tel_patterns -> In m (findall p text) ->
  digits 8 (clean_telephone m) \/ digits 10 (clean_telephone m).
Proof.
  intros Hp Hm. apply findall_sound in Hm.
  unfold tel_patterns in Hp. cbn [In] in Hp.
  destruct Hp as [<-|[<-|[<-|[<-|[<-|[<-|[]]]]]]].
  1-4: right; apply matches_grouped in Hm;
       by apply (grouped_clean _ _ _ _ m) in Hm.
  - left. apply matches_bare in Hm. by rewrite (digits_clean 8 m).
  - right. apply matches_bare in Hm. by rewrite (digits_clean 10 m).
Qed.

(** X6. A telephone that is not empty is a piece of the text, does not
    start with 2024 or 2025, and has a key of eight or ten digits: it
    always takes part in the duplicate check. *)
Theorem telephone_is_empty_or_has_a_digit_key (text : string) :
  _extract_telephone text = ""
  \/ (infix (_extract_telephone text) text
      /\ not_a_year (_extract_telephone text) = true
      /\ (digits 8 (clean_telephone (_extract_telephone text))
          \/ digits 10 (clean_telephone (_extract_telephone text)))).
Proof.
  unfold _extract_telephone. rewrite telephone_loop_find.
  destruct (List.find not_a_year _) as [m|] eqn:E; [right | by left].
  apply find_some in E as [Hin Hyear].
  apply in_concat in Hin as (ms & Hms & Hin).
  apply in_map_iff in Hms as (p & <- & Hp).
  rewrite (tel_match_strip text p m Hp Hin).
  split; [by apply findall_from_infix in Hin|]. split; [exact Hyear|].
  by apply (tel_match_key text p).
Qed.

End ExtractorResults.
(* ================================================================== *)
(** ** Further properties: a run and the file it writes *)
(* ================================================================== *)

Section RunRecords.

Implicit Types (self : Scraper) (pair : Pair).

Lemma keys_app (a b : list string) : keys (a ++ b) = keys a ++ keys b.
Proof. unfold keys. by rewrite List.filter_app, map_app. Qed.

Lemma in_keys (key : string) (telephones : list string) :
  In key (keys telephones)
  <-> exists t, In t telephones /\ has_key t = true /\ key = clean_telephone t.
Proof.
  unfold keys. rewrite in_map_iff. split.
  - intros (t & <- & Hin). apply filter_In in Hin as [Hin Hk]. by exists t.
  - intros (t & Hin & Hk & ->). exists t. split; [reflexivity|].
    by apply filter_In.
Qed.

Lemma csv_row_telephone (row : gmap string string) :
  telephone_cell (csv_row row) = get row "telephone"
  /\ length (csv_row row) = 8.
Proof. rewrite csv_row_cells. by split. Qed.

Lemma written_telephones (rows : list (gmap string string)) :
  map telephone_cell (map csv_row rows) = map (fun row => get row "telephone") rows
  /\ Forall (fun row => length row = 8) (map csv_row rows).
Proof.
  induction rows as [|row rows [IH1 IH2]]; [by split|]. cbn [map].
  destruct (csv_row_telephone row) as [-> Hlen]. rewrite IH1.
  split; [reflexivity | by constructor].
Qed.

Lemma appended_nil (file : option (list Row)) : appended file [] = file.
Proof. destruct file as [old|]; cbn [appended]; [by rewrite app_nil_r | done]. Qed.

Lemma appended_more (file : option (list Row)) (rows more : list Row) :
  more <> [] ->
  Some (match appended file rows with
        | Some lines => lines
        | None => [fieldnames]
        end ++ more)
  = appended file (rows ++ more).
Proof.
  intros Hmore. destruct file as [old|]; cbn [appended].
  - by rewrite <- app_assoc.
  - destruct rows as [|r rows]; cbn [app].
    + by destruct more.
    + reflexivity.
Qed.

Lemma progress_start self :
  results self = [] ->
  progress (existing_telephones self) (output_csv self) 0 self.
Proof.
  intros Hres. exists []. unfold pending. rewrite Hres, appended_nil.
  cbn [map app keys List.filter length].
  repeat split;
    [constructor | symmetry; apply (right_id_L ∅ (∪)) | constructor
    | by intros ? []].
Qed.

Lemma progress_save (seen : gset string) (file : option (list Row)) (n : nat)
    self :
  progress seen file n self ->
  progress seen file n (save_to_csv self) /\ results (save_to_csv self) = [].
Proof.
  intros (rows & Hout & Hlen8 & Hn & Hset & Hnd & Hnew).
  unfold save_to_csv. destruct (results self) as [|r rs] eqn:Hres.
  - split; [|exact Hres]. exists rows. unfold pending. rewrite Hres.
    unfold pending in *. rewrite Hres in *. by repeat split.
  - split; [|reflexivity].
    destruct (written_telephones (r :: rs)) as [Hcells Hlen].
    exists (rows ++ map csv_row (r :: rs)).
    cbn [output_csv results existing_telephones]. unfold pending in *.
    cbn [results]. rewrite Hres in *. rewrite Hout.
    rewrite map_app, Hcells. cbn [map app] in *. rewrite app_nil_r.
    split; [by apply appended_more|].
    split; [by apply Forall_app|].
    split; [rewrite length_app; cbn [length] in *;
            rewrite length_map; lia|].
    by repeat split.
Qed.

Lemma keys_one (t : string) :
  keys [t] = if has_key t then [clean_telephone t] else [].
Proof. unfold keys. cbn [List.filter]. by destruct (has_key t). Qed.

Lemma add_telephone_set self (t : string) :
  existing_telephones (add_telephone_to_memory self t)
  = if has_key t then {[clean_telephone t]} ∪ existing_telephones self
    else existing_telephones self.
Proof.
  unfold add_telephone_to_memory, has_key.
  destruct (Py.truthy (clean_telephone t)) eqn:Hkey.
  - by rewrite (clean_nonempty_truthy _ Hkey).
  - by destruct (Py.truthy t).
Qed.

Lemma progress_accept (seen : gset string) (file : option (list Row)) (n : nat)
    self pair (search_type search_query link : string) :
  progress seen file n self ->
  let after := scrape_link self pair search_type search_query link in
  progress seen file (if snd after then S n else n) (fst after).
Proof.
  intros Hp after. subst after. unfold scrape_link.
  destruct (scrape_detail_page self (detail_page pair link) link search_type
              search_query) as [record|] eqn:Hscrape; cbn [fst snd];
    [|exact Hp].
  assert (Hgate : Py.truthy (telephone record) = true ->
                  clean_telephone (telephone record) ∉ existing_telephones self).
  { unfold scrape_detail_page in Hscrape.
    destruct (detail_page pair link) as [page|]; [|done].
    destruct (candidate page) as [c|]; [|done].
    destruct (Py.truthy (c_telephone c)
              && is_duplicate_telephone self (c_telephone c)) eqn:Hdup;
      [done|].
    destruct (_parse_search_location search_query) as [[? ?] ?].
    injection Hscrape as <-. cbn [telephone]. intros Ht.
    rewrite Ht in Hdup. cbn [andb] in Hdup.
    unfold is_duplicate_telephone in Hdup. rewrite Ht in Hdup.
    cbn [negb] in Hdup. by apply bool_decide_eq_false in Hdup. }
  destruct Hp as (rows & Hout & Hlen8 & Hn & Hset & Hnd & Hnew).
  destruct (add_telephone_keeps_rest self (telephone record)) as [Hres Hfile].
  exists rows. cbn [output_csv results].
  rewrite Hres, Hfile. unfold pending in *. cbn [results existing_telephones].
  rewrite map_app. cbn [map].
  destruct (asdict_fields record) as (_ & _ & _ & _ & _ & -> & _).
  rewrite app_assoc, keys_app, keys_one, add_telephone_set.
  set (old := keys (map telephone_cell rows
                    ++ map (fun row => get row "telephone") (results self))) in *.
  split; [exact Hout|]. split; [exact Hlen8|].
  split; [rewrite length_app; cbn [length]; lia|].
  destruct (has_key (telephone record)) eqn:Hkey.
  - pose proof (clean_nonempty_truthy _ Hkey) as Ht.
    specialize (Hgate Ht).
    assert (Hfresh : ~ In (clean_telephone (telephone record)) old).
    { intros Hin. apply Hgate. rewrite Hset. apply elem_of_union. right.
      apply elem_of_list_to_set. by apply list_elem_of_In. }
    split; [|split].
    + rewrite Hset, list_to_set_app_L. cbn [list_to_set].
      rewrite (right_id_L ∅ (∪)).
      rewrite (assoc_L (∪)), (comm_L (∪) {[_]} seen), <- (assoc_L (∪)).
      f_equal. apply (comm_L (∪)).
    + apply nodup_snoc; [exact Hnd | exact Hfresh].
    + intros key Hin. apply in_app_or in Hin as [Hin|[<-|[]]]; [by apply Hnew|].
      intros Hseen. apply Hgate. rewrite Hset. by apply elem_of_union_l.
  - rewrite app_nil_r. by repeat split.
Qed.

Lemma progress_links (seen : gset string) (file : option (list Row)) pair
    (search_type search_query : string) (links : list string) :
  forall self (n k : nat),
    progress seen file n self ->
    let after := scrape_links self pair search_type search_query links k in
    k <= snd after /\ progress seen file (n + (snd after - k)) (fst after).
Proof.
  induction links as [|link rest IH]; intros self n k Hp; cbn [scrape_links].
  - cbn [fst snd]. split; [lia|]. by replace (n + (k - k)) with n by lia.
  - pose proof (progress_accept seen file n self pair search_type search_query
                  link Hp) as Hstep.
    destruct (scrape_link self pair search_type search_query link)
      as [self1 ok]. cbn [fst snd] in Hstep.
    destruct ok.
    + destruct (IH self1 (S n) (S k) Hstep) as [Hle Hrest].
      split; [lia|].
      by replace (n + (snd (scrape_links self1 pair search_type search_query
                              rest (S k)) - k))
        with (S n + (snd (scrape_links self1 pair search_type search_query
                            rest (S k)) - S k)) by lia.
    + by apply IH.
Qed.

Lemma progress_pair (seen : gset string) (file : option (list Row)) (n : nat)
    self pair (search_type search_query : string) :
  progress seen file n self ->
  progress seen file (n + snd (scrape_pair self pair search_type search_query))
    (fst (scrape_pair self pair search_type search_query)).
Proof.
  intros Hp. unfold scrape_pair.
  destruct (negb (reachable pair));
    [cbn [fst snd]; by rewrite Nat.add_0_r|].
  destruct (negb (wait_for_results (timeline pair)));
    [cbn [fst snd]; by rewrite Nat.add_0_r|].
  destruct (extract_all_links_from_cards (results_page pair)) as [|l ls];
    [cbn [fst snd]; by rewrite Nat.add_0_r|].
  destruct (progress_links seen file pair search_type search_query (l :: ls)
              self n 0 Hp) as [_ H].
  by rewrite Nat.sub_0_r in H.
Qed.

Lemma progress_types (seen : gset string) (file : option (list Row))
    (site : string -> Pair) (search_query : string) (types : list string) :
  forall self (n : nat),
    progress seen file n self ->
    progress seen file (n + snd (scrape_types self site search_query types))
      (fst (scrape_types self site search_query types)).
Proof.
  induction types as [|t rest IH]; intros self n Hp; cbn [scrape_types].
  - cbn [fst snd]. by rewrite Nat.add_0_r.
  - pose proof (progress_pair seen file n self (site t) t search_query Hp) as H.
    destruct (scrape_pair self (site t) t search_query) as [self1 a].
    cbn [fst snd] in H. specialize (IH self1 (n + a) H).
    destruct (scrape_types self1 site search_query rest) as [self2 b].
    cbn [fst snd] in *. by rewrite Nat.add_assoc.
Qed.

Lemma progress_locations (seen : gset string) (file : option (list Row))
    (site : nat -> string -> Pair) (locations : list (gmap string string)) :
  forall self (index n : nat),
    progress seen file n self -> results self = [] ->
    progress seen file
      (n + snd (scrape_locations self site index locations))
      (fst (scrape_locations self site index locations))
    /\ results (fst (scrape_locations self site index locations)) = [].
Proof.
  induction locations as [|location rest IH]; intros self index n Hp Hres;
    cbn [scrape_locations].
  - cbn [fst snd]. by rewrite Nat.add_0_r.
  - pose proof (progress_types seen file (site index)
                  (construct_search_query location) SEARCH_TYPES self n Hp)
      as H.
    destruct (scrape_types self (site index) _ SEARCH_TYPES) as [self1 a].
    cbn [fst snd] in H. apply progress_save in H as [H Hclear].
    specialize (IH (save_to_csv self1) (S index) (n + a) H Hclear).
    destruct (scrape_locations (save_to_csv self1) site (S index) rest)
      as [self2 b].
    cbn [fst snd] in *. by rewrite Nat.add_assoc.
Qed.

Lemma progress_run self (site : nat -> string -> Pair)
    (locations : list (gmap string string)) :
  results self = [] ->
  exists rows : list Row,
    output_csv (fst (run self site locations))
    = appended (output_csv self) rows
    /\ Forall (fun row => length row = 8) rows
    /\ length rows = snd (run self site locations)
    /\ results (fst (run self site locations)) = []
    /\ existing_telephones (fst (run self site locations))
       = existing_telephones self ∪ list_to_set (keys (map telephone_cell rows))
    /\ List.NoDup (keys (map telephone_cell rows))
    /\ (forall key, In key (keys (map telephone_cell rows)) ->
                    key ∉ existing_telephones self).
Proof.
  intros Hres. unfold run.
  destruct (progress_locations (existing_telephones self) (output_csv self)
              site locations self 0 0 (progress_start self Hres) Hres)
    as [(rows & Hout & Hlen8 & Hn & Hset & Hnd & Hnew) Hclear].
  exists rows. unfold pending in *. rewrite Hclear in *.
  cbn [map length] in *. rewrite app_nil_r in *.
  repeat split; try done. lia.
Qed.

(** X7. A run that starts with an empty batch only appends to the file:
    the lines found are kept in front, the header is written once and
    only for a new file, one row of eight cells follows for every record
    accepted, and no record is left in the batch at the end. *)
Theorem run_persists_every_accepted_record self
    (site : nat -> string -> Pair) (locations : list (gmap string string)) :
  results self = [] ->
  exists rows : list Row,
    output_csv (fst (run self site locations))
    = match output_csv self, rows with
      | None, [] => None
      | None, _ => Some (fieldnames :: rows)
      | Some old, _ => Some (old ++ rows)
      end
    /\ Forall (fun row => length row = 8) rows
    /\ length rows = snd (run self site locations)
    /\ results (fst (run self site locations)) = [].
Proof.
  intros Hres.
  destruct (progress_run self site locations Hres)
    as (rows & Hout & Hlen8 & Hn & Hclear & _).
  exists rows. by repeat split.
Qed.

Lemma run_persists_every_accepted_record_witness :
  results fresh = []
  /\ exists rows : list Row,
       output_csv (fst (run fresh dead_site [location_of "Sydney" "NSW" "2000"]))
       = match output_csv fresh, rows with
         | None, [] => None
         | None, _ => Some (fieldnames :: rows)
         | Some old, _ => Some (old ++ rows)
         end
       /\ length rows
          = snd (run fresh dead_site [location_of "Sydney" "NSW" "2000"]).
Proof.
  assert (H : results fresh = []) by reflexivity.
  split; [exact H|].
  destruct (run_persists_every_accepted_record fresh dead_site
              [location_of "Sydney" "NSW" "2000"] H)
    as (rows & Hout & _ & Hn & _).
  exists rows. split; [exact Hout | exact Hn].
Defined.

(** X8. In the rows a run appends no telephone key occurs twice, and
    none was in the telephone set at the start; the set at the end is
    the set at the start together with these keys. *)
Theorem run_writes_no_key_twice self
    (site : nat -> string -> Pair) (locations : list (gmap string string)) :
  results self = [] ->
  exists rows : list Row,
    output_csv (fst (run self site locations))
    = appended (output_csv self) rows
    /\ List.NoDup (keys (map telephone_cell rows))
    /\ (forall key, In key (keys (map telephone_cell rows)) ->
                    key ∉ existing_telephones self)
    /\ existing_telephones (fst (run self site locations))
       = existing_telephones self ∪ list_to_set (keys (map telephone_cell rows)).
Proof.
  intros Hres.
  destruct (progress_run self site locations Hres)
    as (rows & Hout & _ & _ & _ & Hset & Hnd & Hnew).
  exists rows. by repeat split.
Qed.

Lemma run_writes_no_key_twice_witness :
  results fresh = []
  /\ exists rows : list Row,
       output_csv (fst (run fresh dead_site [location_of "Sydney" "NSW" "2000"]))
       = appended (output_csv fresh) rows
       /\ List.NoDup (keys (map telephone_cell rows)).
Proof.
  assert (H : results fresh = []) by reflexivity.
  split; [exact H|].
  destruct (run_writes_no_key_twice fresh dead_site
              [location_of "Sydney" "NSW" "2000"] H)
    as (rows & Hout & Hnd & _).
  exists rows. split; [exact Hout | exact Hnd].
Defined.

Lemma has_key_strip (t : string) :
  has_key t = true -> Py.truthy t && Py.truthy (Py.strip t) = true.
Proof.
  unfold has_key, clean_telephone. destruct t as [|c t]; [done|].
  cbn [Py.truthy negb andb]. by destruct (Py.strip (String c t)).
Qed.

Lemma load_row_eight (seen : gset string) (row : Row) :
  length row = 8 ->
  load_row fieldnames seen row
  = if has_key (telephone_cell row)
    then {[clean_telephone (telephone_cell row)]} ∪ seen else seen.
Proof.
  intros Hlen.
  destruct row as [|c0 [|c1 [|c2 [|c3 [|c4 [|c5 [|c6 [|c7 [|]]]]]]]]];
    try discriminate Hlen.
  unfold load_row, dict_of_row, fieldnames, telephone_cell.
  cbn [combine length skipn fold_left fst snd nth].
  assert (forall d : gmap string (option string),
            <["website":=Some c7]> (<["email":=Some c6]>
              (<["telephone":=Some c5]> d)) !! "telephone" = Some (Some c5))
    as -> by (intros d; by simplify_map_eq).
  destruct (has_key c5) eqn:Hkey.
  - rewrite (has_key_strip c5 Hkey). unfold has_key in Hkey. by rewrite Hkey.
  - unfold has_key in Hkey. rewrite Hkey.
    by destruct (Py.truthy c5 && Py.truthy (Py.strip c5)).
Qed.

Lemma load_rows_eight (rows : list Row) :
  Forall (fun row => length row = 8) rows ->
  forall seen : gset string,
    fold_left (load_row fieldnames) rows seen
    = seen ∪ list_to_set (keys (map telephone_cell rows)).
Proof.
  induction 1 as [|row rows Hrow _ IH]; intros seen; cbn [fold_left map].
  - cbn [keys List.filter map list_to_set]. by rewrite (right_id_L ∅ (∪)).
  - rewrite IH, load_row_eight by done.
    change (telephone_cell row :: map telephone_cell rows)
      with ([telephone_cell row] ++ map telephone_cell rows).
    rewrite keys_app, keys_one, list_to_set_app_L.
    destruct (has_key (telephone_cell row)).
    + cbn [list_to_set]. rewrite (right_id_L ∅ (∪)).
      rewrite (comm_L (∪) {[_]} seen). by rewrite (assoc_L (∪)).
    + cbn [list_to_set]. by rewrite (left_id_L ∅ (∪)).
Qed.

Lemma load_appended (file : option (list Row)) (rows : list Row) :
  scraper_file file ->
  Forall (fun row => length row = 8) rows ->
  load_existing_telephones (appended file rows)
  = load_existing_telephones file
    ∪ list_to_set (keys (map telephone_cell rows))
  /\ scraper_file (appended file rows).
Proof.
  intros Hfile Hrows. destruct file as [[|header old]|]; cbn [scraper_file] in Hfile.
  - done.
  - destruct Hfile as [-> Hold]. cbn [appended app load_existing_telephones].
    split; [|split; [reflexivity | by apply Forall_app]].
    rewrite fold_left_app. rewrite (load_rows_eight old Hold).
    by rewrite (load_rows_eight rows Hrows).
  - destruct rows as [|row rows]; cbn [appended load_existing_telephones].
    + cbn [map keys List.filter list_to_set]. split; [|done].
      by rewrite (right_id_L ∅ (∪)).
    + split; [|by split]. apply load_rows_eight. exact Hrows.
Qed.

(** X9. When the file at start-up is absent or was written by the
    scraper, reading the file left by a run gives exactly the telephone
    set the run ended with, so that every telephone with a key in that
    file is a duplicate for the next run. *)
Theorem reload_gives_the_final_set (file : option (list Row))
    (site : nat -> string -> Pair) (locations : list (gmap string string)) :
  scraper_file file ->
  let final := fst (run (init file) site locations) in
  load_existing_telephones (output_csv final) = existing_telephones final
  /\ scraper_file (output_csv final)
  /\ (forall (header : Row) (rows : list Row) (row : Row),
        output_csv final = Some (header :: rows) -> In row rows ->
        has_key (telephone_cell row) = true ->
        is_duplicate_telephone (init (output_csv final)) (telephone_cell row)
        = true).
Proof.
  intros Hfile final.
  destruct (progress_run (init file) site locations eq_refl)
    as (rows & Hout & Hlen8 & _ & _ & Hset & _). fold final in Hout, Hset.
  cbn [init output_csv existing_telephones] in Hout, Hset.
  destruct (load_appended file rows Hfile Hlen8) as [Hload Hwf].
  rewrite <- Hout in Hload, Hwf.
  assert (Hsame : load_existing_telephones (output_csv final)
                  = existing_telephones final) by (by rewrite Hload, Hset).
  split; [exact Hsame|]. split; [exact Hwf|].
  intros header all row Hall Hin Hkey.
  unfold is_duplicate_telephone. cbn [init existing_telephones].
  assert (Py.truthy (telephone_cell row) = true) as ->
    by (by apply clean_nonempty_truthy).
  cbn [negb]. apply bool_decide_eq_true.
  rewrite Hall in Hwf |- *. cbn [scraper_file] in Hwf. destruct Hwf as [-> Hall8].
  cbn [load_existing_telephones]. rewrite (load_rows_eight all Hall8).
  apply elem_of_union_r, elem_of_list_to_set, list_elem_of_In, in_keys.
  exists (telephone_cell row). split; [by apply in_map|]. by split.
Qed.

Lemma reload_gives_the_final_set_witness :
  scraper_file None
  /\ load_existing_telephones
       (output_csv (fst (run (init None) dead_site
                           [location_of "Sydney" "NSW" "2000"])))
     = existing_telephones
         (fst (run (init None) dead_site [location_of "Sydney" "NSW" "2000"])).
Proof.
  assert (H : scraper_file None) by exact I.
  split; [exact H|].
  exact (proj1 (reload_gives_the_final_set None dead_site
                  [location_of "Sydney" "NSW" "2000"] H)).
Defined.

Lemma normalized_union (a b : gset string) :
  normalized a -> normalized b -> normalized (a ∪ b).
Proof.
  intros Ha Hb key Hin. apply elem_of_union in Hin as [Hin|Hin]; auto.
Qed.

Lemma normalized_keys (telephones : list string) :
  normalized (list_to_set (keys telephones)).
Proof.
  intros key Hin.
  apply elem_of_list_to_set, list_elem_of_In, in_keys in Hin
    as (t & _ & Hkey & ->).
  split.
  - intros Heq. unfold has_key in Hkey. by rewrite Heq in Hkey.
  - apply clean_telephone_idem.
Qed.

Lemma load_row_normalized (header : list string) (seen : gset string)
    (row : Row) :
  normalized seen -> normalized (load_row header seen row).
Proof.
  intros Hseen. unfold load_row. destruct row as [|cell row]; [exact Hseen|].
  destruct (dict_of_row header (cell :: row) !! "telephone")
    as [[t|]|]; try exact Hseen.
  destruct (Py.truthy t && Py.truthy (Py.strip t)); [|exact Hseen].
  destruct (Py.truthy (clean_telephone t)) eqn:Hkey; [|exact Hseen].
  intros key Hin. apply elem_of_union in Hin as [Hin|Hin]; [|by apply Hseen].
  apply elem_of_singleton in Hin as ->. split.
  - intros Heq. by rewrite Heq in Hkey.
  - apply clean_telephone_idem.
Qed.

Lemma load_normalized (file : option (list Row)) :
  normalized (load_existing_telephones file).
Proof.
  assert (Hempty : normalized ∅) by (intros key Hin; set_solver).
  destruct file as [[|header rows]|]; cbn [load_existing_telephones];
    try exact Hempty.
  revert Hempty. generalize (∅ : gset string) as seen.
  induction rows as [|row rows IH]; intros seen Hseen; cbn [fold_left];
    [exact Hseen|].
  apply IH. by apply load_row_normalized.
Qed.

(** X10. Whatever file is found at start-up, the telephone set holds
    keys only, at start-up and after a run: non-empty strings free of
    whitespace, hyphens and parentheses.  So a telephone made of such
    characters alone, whose key is empty, is never taken for a
    duplicate. *)
Theorem telephone_set_holds_keys_only (file : option (list Row))
    (site : nat -> string -> Pair) (locations : list (gmap string string))
    (telephone : string) :
  let final := fst (run (init file) site locations) in
  normalized (load_existing_telephones file)
  /\ normalized (existing_telephones final)
  /\ (forall key, key ∈ existing_telephones final ->
                  Py.any_str separator key = false)
  /\ (clean_telephone telephone = "" ->
      is_duplicate_telephone final telephone = false).
Proof.
  intros final.
  destruct (progress_run (init file) site locations eq_refl)
    as (rows & _ & _ & _ & _ & Hset & _). fold final in Hset.
  cbn [init existing_telephones] in Hset.
  assert (Hnorm : normalized (existing_telephones final)).
  { rewrite Hset. apply normalized_union;
      [apply load_normalized | apply normalized_keys]. }
  split; [apply load_normalized|]. split; [exact Hnorm|]. split.
  - intros key Hin. destruct (Hnorm key Hin) as [_ <-].
    apply clean_telephone_no_separator.
  - intros Hkey. unfold is_duplicate_telephone.
    destruct (Py.truthy telephone); [|reflexivity]. cbn [negb].
    apply bool_decide_eq_false. rewrite Hkey. intros Hin.
    by destruct (Hnorm "" Hin).
Qed.

Lemma telephone_set_holds_keys_only_witness :
  clean_telephone "(-) -" = ""
  /\ is_duplicate_telephone
       (fst (run (init None) dead_site [location_of "Sydney" "NSW" "2000"]))
       "(-) -" = false.
Proof.
  assert (H : clean_telephone "(-) -" = "") by (vm_compute; reflexivity).
  split; [exact H|].
  exact (proj2 (proj2 (proj2 (telephone_set_holds_keys_only None dead_site
                                [location_of "Sydney" "NSW" "2000"] "(-) -")))
           H).
Defined.

End RunRecords.
(* ================================================================== *)
(** ** Further properties: navigation and readiness *)
(* ================================================================== *)

Section Navigation.

Lemma poll_answer (page : Timeline) (attempts : nat) :
  forall c : Clock,
    match fst (poll attempts page c) with
    | Found =>
        no_results_signal (page (now (snd (poll attempts page c)))) = false
        /\ results_signal (page (now (snd (poll attempts page c)))) = true
    | NoResults =>
        no_results_signal (page (now (snd (poll attempts page c)))) = true
    | Unknown =>
        no_results_signal (page (now (snd (poll attempts page c)))) = false
        /\ polls (snd (poll attempts page c)) = polls c + attempts
    end.
Proof.
  induction attempts as [|n IH]; intros c.
  - cbn [poll check_no_results].
    destruct (no_results_signal (page (now c))) eqn:Hnone; cbn; [exact Hnone|].
    split; [exact Hnone | unfold polls; cbn [sleeps]; lia].
  - destruct (handle_popup_clock page c) as (Hpolls & _ & _).
    cbn [poll]. destruct (handle_popup page c) as [popup c1].
    cbn [snd] in Hpolls. cbn [check_no_results].
    destruct (no_results_signal (page (now c1))) eqn:Hnone; [exact Hnone|].
    cbn [now].
    destruct (results_signal (page (now c1))) eqn:Hres; [by split|].
    specialize (IH (wait_for_timeout 500
                      {| now := now c1; sleeps := sleeps c1;
                         checks := S (checks c1) |})).
    destruct (fst (poll n page _)); try exact IH.
    destruct IH as [Hlast ->]. split; [exact Hlast|].
    rewrite polls_wait. unfold polls in *. cbn [sleeps] in *.
    destruct (Nat.eq_dec 500 500); [lia | done].
Qed.

(** X11. The answer of the readiness detector is read off the page as
    it stands when the detector returns: results are reported only when
    a result element is visible and no "no results" signal is shown at
    that moment; "no results" is reported only when that signal is
    shown; and the detector gives up only after all thirty waits, with
    no "no results" signal at the last look. *)
Theorem readiness_answer_is_what_the_page_shows (page : Timeline) :
  let exit := fst (wait_for_results_from page start) in
  let last := page (now (snd (wait_for_results_from page start))) in
  match exit with
  | Found => no_results_signal last = false /\ results_signal last = true
  | NoResults => no_results_signal last = true
  | Unknown =>
      no_results_signal last = false
      /\ polls (snd (wait_for_results_from page start)) = 30
  end.
Proof.
  cbv zeta. destruct (handle_popup_clock page start) as (Hpolls & _ & _).
  unfold wait_for_results_from. destruct (handle_popup page start) as [popup c1].
  cbn [snd] in Hpolls. cbn [check_no_results].
  destruct (no_results_signal (page (now c1))) eqn:Hnone; [exact Hnone|].
  pose proof (poll_answer page 30
                {| now := now c1; sleeps := sleeps c1;
                   checks := S (checks c1) |}) as H.
  destruct (fst (poll 30 page _)); try exact H.
  destruct H as [Hlast ->]. split; [exact Hlast|].
  unfold polls in *. cbn [sleeps] in *. rewrite Hpolls. reflexivity.
Qed.

Lemma poll_constant (snap : Snapshot) (attempts : nat) :
  forall c : Clock,
    fst (poll (S attempts) (fun _ => snap) c)
    = (if no_results_signal snap then NoResults
       else if results_signal snap then Found else Unknown)
    /\ (results_signal snap = true \/ no_results_signal snap = true ->
        polls (snd (poll (S attempts) (fun _ => snap) c)) = polls c).
Proof.
  intros c. destruct (handle_popup_clock (fun _ => snap) c) as (Hpolls & _ & _).
  cbn [poll]. destruct (handle_popup (fun _ => snap) c) as [popup c1].
  cbn [snd] in Hpolls. cbn [check_no_results].
  destruct (no_results_signal snap) eqn:Hnone; [by split|].
  destruct (results_signal snap) eqn:Hres; [by split|].
  split; [|by intros [?|?]].
  apply poll_unresolved. intros t. by split.
Qed.

(** X12. On a page that does not change while the detector looks at it,
    the answer is settled by the page alone, and the "no results" signal
    wins over visible result elements: "no results" when the signal is
    shown, results when it is not and a result element is visible, and
    no answer otherwise.  In the first two cases the detector returns
    without a single 500 ms wait. *)
Theorem unchanging_page_is_decided_at_once (snap : Snapshot) :
  let exit := fst (wait_for_results_from (fun _ => snap) start) in
  let clock := snd (wait_for_results_from (fun _ => snap) start) in
  exit = (if no_results_signal snap then NoResults
          else if results_signal snap then Found else Unknown)
  /\ wait_for_results (fun _ => snap)
     = negb (no_results_signal snap) && results_signal snap
  /\ (exit <> Unknown -> polls clock = 0).
Proof.
  cbv zeta. unfold wait_for_results.
  destruct (handle_popup_clock (fun _ => snap) start) as (Hpolls & _ & _).
  unfold wait_for_results_from.
  destruct (handle_popup (fun _ => snap) start) as [popup c1].
  cbn [snd] in Hpolls. cbn [check_no_results].
  destruct (no_results_signal snap) eqn:Hnone; [by repeat split|].
  destruct (poll_constant snap 29
              {| now := now c1; sleeps := sleeps c1;
                 checks := S (checks c1) |}) as [Hexit Hzero].
  rewrite Hnone in Hexit, Hzero. rewrite Hexit.
  destruct (results_signal snap) eqn:Hres.
  - repeat split. intros _. rewrite Hzero by (by left). exact Hpolls.
  - repeat split. by intros [].
Qed.

Lemma unchanging_page_is_decided_at_once_witness :
  let snap :=
    {| shown := fun _ => false;
       first_visible := fun selector => String.eqb selector "article";
       clicked := fun _ => false;
       current_url := BASE_URL |} in
  fst (wait_for_results_from (fun _ => snap) start) <> Unknown
  /\ polls (snd (wait_for_results_from (fun _ => snap) start)) = 0.
Proof.
  cbv zeta.
  assert (H : fst (wait_for_results_from
                     (fun _ => {| shown := fun _ => false;
                                  first_visible :=
                                    fun selector => String.eqb selector "article";
                                  clicked := fun _ => false;
                                  current_url := BASE_URL |}) start)
              <> Unknown) by (vm_compute; discriminate).
  split; [exact H|].
  exact (proj2 (proj2 (unchanging_page_is_decided_at_once _)) H).
Defined.

Lemma sleeps_backoff (c : Clock) (failed : nat) :
  sleeps (fold_left (fun c ms => wait_for_timeout ms c) (backoff failed) c)
  = sleeps c ++ backoff failed.
Proof.
  unfold backoff. generalize (map (fun attempt => 1000 * (attempt + 1))
                                (seq 0 failed)) as waits.
  intros waits. revert c.
  induction waits as [|ms waits IH]; intros c; cbn [fold_left].
  - by rewrite app_nil_r.
  - rewrite IH. cbn [wait_for_timeout sleeps]. by rewrite <- app_assoc.
Qed.

Lemma goto_success (page : Timeline) (c : Clock) :
  sleeps (snd (handle_popup page (wait_for_timeout 2000 c)))
  = sleeps c ++ [2000]
  \/ sleeps (snd (handle_popup page (wait_for_timeout 2000 c)))
     = sleeps c ++ [2000; 1500].
Proof.
  unfold handle_popup.
  destruct (popup_loop_clock page popup_selectors (wait_for_timeout 2000 c))
    as [-> | ->]; cbn [wait_for_timeout sleeps]; [by left|].
  right. by rewrite <- app_assoc.
Qed.

(** X13. Navigation is tried at most three times.  It raises exactly
    when all three attempts fail; otherwise it returns [True], never
    [False], at the first attempt that gets through, having waited
    1000 ms after the first failure and 2000 ms after the second, then
    2000 ms on the loaded page and 1500 ms more when a pop-up was
    closed. *)
Theorem navigation_gives_up_after_three_failures (loads : nat -> bool)
    (page : Timeline) (c : Clock) :
  (goto_with_retry loads page c = None
   <-> loads 0 = false /\ loads 1 = false /\ loads 2 = false)
  /\ (forall (outcome : bool) (c' : Clock),
        goto_with_retry loads page c = Some (outcome, c') ->
        outcome = true
        /\ exists failed : nat,
             failed < NAV_RETRIES
             /\ loads failed = true
             /\ (forall attempt, attempt < failed -> loads attempt = false)
             /\ (sleeps c' = sleeps c ++ backoff failed ++ [2000]
                 \/ sleeps c' = sleeps c ++ backoff failed ++ [2000; 1500])).
Proof.
  unfold goto_with_retry, NAV_RETRIES. cbn [goto_loop Nat.eqb Nat.sub].
  split.
  - destruct (loads 0), (loads 1), (loads 2);
      repeat match goal with
             | |- context [handle_popup ?p ?k] => destruct (handle_popup p k)
             end;
      split; try done; intros (? & ? & ?); done.
  - intros outcome c' H.
    assert (Hwaits : forall failed k,
               sleeps k = sleeps c ++ backoff failed ->
               (let '(_, k') := handle_popup page (wait_for_timeout 2000 k)
                in Some (true, k')) = Some (outcome, c') ->
               outcome = true
               /\ (sleeps c' = sleeps c ++ backoff failed ++ [2000]
                   \/ sleeps c' = sleeps c ++ backoff failed ++ [2000; 1500])).
    { intros failed k Hk Heq. pose proof (goto_success page k) as Hs.
      destruct (handle_popup page (wait_for_timeout 2000 k)) as [popup k'].
      injection Heq as <- <-. split; [done|]. cbn [snd] in Hs.
      rewrite Hk in Hs. rewrite <- !app_assoc in Hs. exact Hs. }
    destruct (loads 0) eqn:H0.
    { destruct (Hwaits 0 c) as [-> Hs]; [by rewrite app_nil_r | exact H|].
      split; [done|]. exists 0. repeat split; [lia | done | lia | exact Hs]. }
    destruct (loads 1) eqn:H1.
    { destruct (Hwaits 1 (wait_for_timeout (1000 * (0 + 1)) c)) as [-> Hs];
        [reflexivity | exact H|].
      split; [done|]. exists 1. repeat split; [lia | done | | exact Hs].
      intros [|attempt] Hlt; [done | lia]. }
    destruct (loads 2) eqn:H2; [|discriminate H].
    destruct (Hwaits 2 (wait_for_timeout (1000 * (1 + 1))
                          (wait_for_timeout (1000 * (0 + 1)) c))) as [-> Hs];
      [by cbn [wait_for_timeout sleeps backoff map seq]; rewrite <- app_assoc
      | exact H|].
    split; [done|]. exists 2. repeat split; [lia | done | | exact Hs].
    intros [|[|attempt]] Hlt; [done | done | lia].
Qed.

Lemma navigation_gives_up_after_three_failures_witness :
  goto_with_retry (fun attempt => 1 <=? attempt) (fun _ => blank) start
  = Some (true, wait_for_timeout 2000 (wait_for_timeout 1000 start))
  /\ exists failed : nat,
       failed < NAV_RETRIES
       /\ (forall attempt, attempt < failed -> (1 <=? attempt) = false).
Proof.
  assert (H : goto_with_retry (fun attempt => 1 <=? attempt) (fun _ => blank)
                start
              = Some (true, wait_for_timeout 2000 (wait_for_timeout 1000 start)))
    by (vm_compute; reflexivity).
  split; [exact H|].
  destruct (proj2 (navigation_gives_up_after_three_failures
                     (fun attempt => 1 <=? attempt) (fun _ => blank) start)
              true _ H) as (_ & failed & Hlt & _ & Hfailed & _).
  exists failed. split; [exact Hlt | exact Hfailed].
Defined.

End Navigation.

(* ================================================================== *)
(** ** Further properties: the search URL *)
(* ================================================================== *)

Section SearchUrl.

Lemma unquote_head_quote (c : ascii) (rest : string) :
  Urllib.unquote_head (Urllib.quote_char c +:+ rest) = Some (c, rest).
Proof.
  destruct c as [[] [] [] [] [] [] [] []]; vm_compute; reflexivity.
Qed.

Lemma quote_char_chars (c : ascii) :
  Py.all_str url_char (Urllib.quote_char c) = true.
Proof.
  destruct c as [[] [] [] [] [] [] [] []]; vm_compute; reflexivity.
Qed.

Lemma quote_plus_inj (a : string) :
  forall b : string, Urllib.quote_plus a = Urllib.quote_plus b -> a = b.
Proof.
  induction a as [|c a IH]; intros [|d b] H; cbn [Urllib.quote_plus] in H.
  - reflexivity.
  - apply (f_equal Urllib.unquote_head) in H.
    rewrite unquote_head_quote in H. discriminate H.
  - apply (f_equal Urllib.unquote_head) in H.
    rewrite unquote_head_quote in H. discriminate H.
  - apply (f_equal Urllib.unquote_head) in H.
    rewrite !unquote_head_quote in H. injection H as -> H.
    by rewrite (IH b H).
Qed.

Lemma quote_plus_chars (s : string) :
  Py.all_str url_char (Urllib.quote_plus s) = true.
Proof.
  induction s as [|c s IH]; [reflexivity|].
  cbn [Urllib.quote_plus]. by rewrite all_str_append, quote_char_chars, IH.
Qed.

Lemma append_inv_head (a x y : string) : a +:+ x = a +:+ y -> x = y.
Proof.
  induction a as [|c a IH]; cbn [String.append]; [done|].
  intros H. injection H as H. by apply IH.
Qed.

Lemma append_inv_length (a : string) :
  forall b x y : string,
    String.length a = String.length b -> a +:+ x = b +:+ y -> a = b /\ x = y.
Proof.
  induction a as [|c a IH]; intros [|d b] x y Hlen H;
    cbn [String.append String.length] in *; try done.
  injection H as -> H. injection Hlen as Hlen.
  destruct (IH b x y Hlen H) as [-> ->]. done.
Qed.

Lemma append_inv_tail (a b t : string) : a +:+ t = b +:+ t -> a = b.
Proof.
  intros H. refine (proj1 (append_inv_length a b t t _ H)).
  apply (f_equal String.length) in H. rewrite !length_append in H. lia.
Qed.

(** Two strings without [sep], each followed by [sep], are told apart by
    the first [sep]. *)
Lemma append_inv_sep (sep : ascii) (a : string) :
  forall b x y : string,
    Py.any_str (Ascii.eqb sep) a = false ->
    Py.any_str (Ascii.eqb sep) b = false ->
    a +:+ String sep x = b +:+ String sep y -> a = b /\ x = y.
Proof.
  induction a as [|c a IH]; intros [|d b] x y Ha Hb H;
    cbn [String.append Py.any_str] in *.
  - by injection H as ->.
  - injection H as <- _. by rewrite Ascii.eqb_refl in Hb.
  - injection H as -> _. by rewrite Ascii.eqb_refl in Ha.
  - injection H as -> H. apply orb_false_iff in Ha as [_ Ha].
    apply orb_false_iff in Hb as [_ Hb].
    destruct (IH b x y Ha Hb H) as [-> ->]. done.
Qed.

Lemma quote_plus_no_ampersand (s : string) :
  Py.any_str (Ascii.eqb "&") (Urllib.quote_plus s) = false.
Proof.
  pose proof (quote_plus_chars s) as H.
  induction (Urllib.quote_plus s) as [|c r IH]; [reflexivity|].
  cbn [Py.all_str Py.any_str] in *. apply andb_true_iff in H as [Hc Hs].
  rewrite (IH Hs), orb_false_r. clear -Hc.
  destruct c as [[] [] [] [] [] [] [] []]; try reflexivity;
    vm_compute in Hc; discriminate Hc.
Qed.

Lemma str_of_int_inj (n m : Z) :
  Urllib.str_of_int n = Urllib.str_of_int m -> n = m.
Proof.
  unfold Urllib.str_of_int. intros H. apply DecimalZ.to_int_inj.
  assert (Hisi : forall z,
             NilZero.int_of_string (NilZero.string_of_int (Z.to_int z))
             = Some (Z.to_int z)).
  { intros z. apply NilZero.isi.
    - destruct z as [|p|p]; cbn; try discriminate.
      intros E. injection E as E. by apply (DecimalPos.Unsigned.to_uint_nonnil p).
    - destruct z as [|p|p]; cbn; try discriminate.
      intros E. injection E as E. by apply (DecimalPos.Unsigned.to_uint_nonnil p). }
  apply (f_equal NilZero.int_of_string) in H. rewrite !Hisi in H.
  by injection H.
Qed.

(** X14. The search URL tells the query and the page number apart: for
    a given search type and distance filter, two URLs are equal only for
    the same query and the same page.  A distance filter that is empty
    or blank is left out of the URL altogether. *)
Theorem search_url_determines_query_and_page
    (distance search_type : string) (q1 q2 : string) (p1 p2 : Z) :
  (construct_search_url_with distance search_type q1 p1
   = construct_search_url_with distance search_type q2 p2
   <-> q1 = q2 /\ p1 = p2)
  /\ (Py.strip distance = "" ->
      construct_search_url_with distance search_type q1 p1
      = construct_search_url_with "" search_type q1 p1).
Proof.
  split.
  - split; [|by intros [-> ->]].
    unfold construct_search_url_with.
    set (middle := (if Py.truthy distance && Py.truthy (Py.strip distance)
                    then "&distance=" +:+ distance else "")
                   +:+ (if String.eqb search_type "help-at-home"
                        then "&services="
                             +:+ Urllib.quote_plus
                                   (Py.join "|" HELP_AT_HOME_SERVICES)
                        else "")).
    assert (Hshape : forall q p,
               (let base_url :=
                  BASE_URL +:+ "?searchType=" +:+ search_type +:+ "&location="
                  +:+ Urllib.quote_plus q +:+ "&sort=relevance" in
                let base_url0 :=
                  if Py.truthy distance && Py.truthy (Py.strip distance)
                  then base_url +:+ "&distance=" +:+ distance else base_url in
                let base_url1 :=
                  if String.eqb search_type "help-at-home"
                  then base_url0 +:+ "&services="
                       +:+ Urllib.quote_plus (Py.join "|" HELP_AT_HOME_SERVICES)
                  else base_url0 in
                base_url1 +:+ "&page=" +:+ Urllib.str_of_int p
                +:+ "&hasSearched=true")
               = (BASE_URL +:+ "?searchType=" +:+ search_type +:+ "&location=")
                 +:+ Urllib.quote_plus q
                 +:+ String "&" (("sort=relevance" +:+ middle +:+ "&page=")
                                 +:+ Urllib.str_of_int p
                                 +:+ "&hasSearched=true")).
    { intros q p. cbv zeta. unfold middle.
      destruct (Py.truthy distance && Py.truthy (Py.strip distance)),
        (String.eqb search_type "help-at-home");
        rewrite ?append_assoc; cbn [String.append]; rewrite ?append_assoc;
        cbn [String.append]; reflexivity. }
    rewrite !Hshape. intros H. apply append_inv_head in H.
    apply append_inv_sep in H as [Hq H]; try apply quote_plus_no_ampersand.
    apply append_inv_head in H. apply append_inv_tail in H.
    split; [by apply quote_plus_inj | by apply str_of_int_inj].
  - intros Hblank. unfold construct_search_url_with.
    rewrite Hblank. cbn [Py.truthy]. by rewrite andb_false_r.
Qed.

Lemma search_url_determines_query_and_page_witness :
  Py.strip "  " = ""
  /\ construct_search_url_with "  " "aged-care-homes" "SYDNEY NSW 2000" 1
     = construct_search_url_with "" "aged-care-homes" "SYDNEY NSW 2000" 1.
Proof.
  assert (H : Py.strip "  " = "") by (vm_compute; reflexivity).
  split; [exact H|].
  exact (proj2 (search_url_determines_query_and_page "  " "aged-care-homes"
                  "SYDNEY NSW 2000" "SYDNEY NSW 2000" 1 1) H).
Defined.

End SearchUrl.

(* ================================================================== *)
(** ** Further properties: link harvesting *)
(* ================================================================== *)

Section HarvestFallback.

Implicit Types (links : list string) (hrefs : list (option string)).

Lemma broad_loop_in hrefs (link : string) :
  forall links,
    In link (broad_loop hrefs links)
    <-> In link links
        \/ exists href, In (Some href) hrefs /\ Py.truthy href = true
                        /\ detail_shaped (full_url_of href) = true
                        /\ link = full_url_of href.
Proof.
  induction hrefs as [|[h|] rest IH]; intros links; cbn [broad_loop].
  - split; [by left | by intros [?|(? & [] & _)]].
  - unfold is_new_detail_link. fold (detail_shaped (full_url_of h)).
    destruct (Py.truthy h) eqn:Ht; cbn [andb];
      [destruct (detail_shaped (full_url_of h)) eqn:Hs; cbn [andb];
       [destruct (Py.in_list (full_url_of h) links) eqn:Hin; cbn [negb]|]|];
      rewrite IH; clear IH.
    + split.
      * intros [?|(href & Hhref & ?)]; [by left|]. right. exists href.
        split; [by right | done].
      * intros [?|(href & [[= <-]|Hhref] & ? & ? & ->)]; [by left | |].
        -- left. exact (proj1 (in_list_iff _ _) Hin).
        -- right. by exists href.
    + rewrite in_app_iff. cbn [In]. split.
      * intros [[?|[<-|[]]]|(href & Hhref & ?)]; [by left | |].
        -- right. exists h. split; [by left | done].
        -- right. exists href. split; [by right | done].
      * intros [?|(href & [[= <-]|Hhref] & ? & ? & ->)];
          [left; by left | left; right; by left |].
        right. by exists href.
    + split.
      * intros [?|(href & Hhref & ?)]; [by left|]. right. exists href.
        split; [by right | done].
      * intros [?|(href & [[= <-]|Hhref] & ? & Hs' & ?)]; [by left | |].
        -- by rewrite Hs in Hs'.
        -- right. by exists href.
    + split.
      * intros [?|(href & Hhref & ?)]; [by left|]. right. exists href.
        split; [by right | done].
      * intros [?|(href & [[= <-]|Hhref] & Ht' & ?)]; [by left | |].
        -- by rewrite Ht in Ht'.
        -- right. by exists href.
  - rewrite IH. split.
    + intros [?|(href & Hhref & ?)]; [by left|]. right. exists href.
      split; [by right | done].
    + intros [?|(href & [[=]|Hhref] & ?)]; [by left|]. right. by exists href.
Qed.

Lemma post_filter_keeps_all (page : ResultsPage) :
  List.filter (fun link => negb (Py.contains "results" link)) (harvested page)
  = harvested page.
Proof.
  destruct (harvested_collected page) as [_ Hall].
  apply forallb_filter_id. apply forallb_forall. intros link Hin.
  destruct (Hall link Hin) as (href & _ & _ & Hs & _).
  unfold detail_shaped in Hs. by apply andb_true_iff in Hs as [_ ->].
Qed.

(** X15. When the cards of a results page give no link, the harvester
    falls back on the page-wide provider anchors and then finds exactly
    the absolute forms of the non-empty anchors that hold the provider
    path and do not hold "results", each one once. *)
Theorem fallback_finds_every_detail_anchor (page : ResultsPage) :
  card_selector_loop card_selectors page [] = [] ->
  List.NoDup (harvested page)
  /\ forall link : string,
       In link (harvested page)
       <-> exists href : string,
             In (Some href) (provider_anchors page)
             /\ Py.truthy href = true
             /\ Py.contains "/find-a-provider/" (full_url_of href) = true
             /\ Py.contains "results" (full_url_of href) = false
             /\ link = full_url_of href.
Proof.
  intros Hcards. split; [apply harvested_collected|].
  intros link. unfold harvested. rewrite Hcards, broad_loop_in.
  unfold detail_shaped. split.
  - intros [[]|(href & Hin & Ht & Hs & ->)]. exists href.
    apply andb_true_iff in Hs as [Hs1 Hs2]. apply negb_true_iff in Hs2.
    by repeat split.
  - intros (href & Hin & Ht & Hs1 & Hs2 & ->). right. exists href.
    rewrite Hs1, Hs2. by repeat split.
Qed.

Lemma fallback_finds_every_detail_anchor_witness :
  let page :=
    {| cards_of := fun _ => None;
       provider_anchors := [Some href_a; None; Some ""; Some href_a;
                            Some "/find-a-provider/search/results"] |} in
  card_selector_loop card_selectors page [] = []
  /\ List.NoDup (harvested page)
  /\ harvested page = [full_url_of href_a].
Proof.
  cbv zeta.
  assert (H : card_selector_loop card_selectors
                {| cards_of := fun _ => None;
                   provider_anchors := [Some href_a; None; Some ""; Some href_a;
                                        Some "/find-a-provider/search/results"] |}
                [] = []) by (vm_compute; reflexivity).
  split; [exact H|]. split.
  - exact (proj1 (fallback_finds_every_detail_anchor _ H)).
  - vm_compute. reflexivity.
Defined.

(** X16. The cap on the number of links is a cap only when it is
    positive: with no cap configured, or a cap of zero or less, the
    harvester returns every link it found, in the order of discovery. *)
Theorem cap_of_zero_is_no_cap (cap : option Z) (page : ResultsPage) :
  cap = None \/ (exists c : Z, cap = Some c /\ (c <= 0)%Z) ->
  extract_all_links_from_cards_with cap page = harvested page.
Proof.
  intros Hcap. unfold extract_all_links_from_cards_with.
  rewrite post_filter_keeps_all. unfold apply_cap.
  destruct Hcap as [-> | (c & -> & Hc)]; [reflexivity|].
  by destruct (Z.ltb_spec 0 c) as [H|_]; [lia|].
Qed.

Lemma cap_of_zero_is_no_cap_witness :
  (Some 0%Z = None \/ (exists c : Z, Some 0%Z = Some c /\ (c <= 0)%Z))
  /\ extract_all_links_from_cards_with (Some 0%Z) page_two_selectors
     = harvested page_two_selectors.
Proof.
  assert (H : Some 0%Z = None \/ (exists c : Z, Some 0%Z = Some c /\ (c <= 0)%Z))
    by (right; exists 0%Z; split; [reflexivity | lia]).
  split; [exact H|].
  exact (cap_of_zero_is_no_cap (Some 0%Z) page_two_selectors H).
Defined.

End HarvestFallback.

(* ================================================================== *)
(** ** Further properties: the text and the name of a detail page *)
(* ================================================================== *)

Section DetailText.

Lemma any_str_append (p : ascii -> bool) (a b : string) :
  Py.any_str p (a +:+ b) = Py.any_str p a || Py.any_str p b.
Proof.
  induction a as [|c a IH]; cbn [String.append Py.any_str]; [reflexivity|].
  by rewrite IH, orb_assoc.
Qed.

Lemma any_str_lstrip (p : ascii -> bool) (s : string) :
  Py.any_str p s = false -> Py.any_str p (Py.lstrip s) = false.
Proof.
  induction s as [|c s IH]; cbn [Py.lstrip Py.any_str]; [done|].
  intros H. apply orb_false_iff in H as [Hc Hs].
  destruct (Py.isspace c); [by apply IH|].
  cbn [Py.any_str]. by rewrite Hc, Hs.
Qed.

Lemma any_str_rstrip (p : ascii -> bool) (s : string) :
  Py.any_str p s = false -> Py.any_str p (Py.rstrip s) = false.
Proof.
  induction s as [|c s IH]; cbn [Py.rstrip Py.any_str]; [done|].
  intros H. apply orb_false_iff in H as [Hc Hs]. specialize (IH Hs).
  destruct (Py.rstrip s) as [|d r].
  - destruct (Py.isspace c); [reflexivity|].
    cbn [Py.any_str]. by rewrite Hc.
  - cbn [Py.any_str] in *. by rewrite Hc, IH.
Qed.

Lemma any_str_strip (p : ascii -> bool) (s : string) :
  Py.any_str p s = false -> Py.any_str p (Py.strip s) = false.
Proof. intros H. unfold Py.strip. by apply any_str_rstrip, any_str_lstrip. Qed.

(** A stripped string is empty or begins with a character that is not
    whitespace. *)
Lemma strip_head (s : string) :
  match Py.strip s with
  | EmptyString => True
  | String c _ => Py.isspace c = false
  end.
Proof.
  unfold Py.strip.
  assert (Hl : match Py.lstrip s with
               | EmptyString => True
               | String c _ => Py.isspace c = false
               end).
  { induction s as [|c s IH]; cbn [Py.lstrip]; [done|].
    by destruct (Py.isspace c) eqn:E. }
  destruct (Py.lstrip s) as [|c r]; [done|]. cbn [Py.rstrip].
  destruct (Py.rstrip r); [by rewrite Hl | exact Hl].
Qed.

Lemma split_pieces_no_sep (sep : ascii) (s : string) :
  forall tok piece : string,
    Py.any_str (Ascii.eqb sep) tok = false ->
    In piece (Py.split_on_from sep tok s) ->
    Py.any_str (Ascii.eqb sep) piece = false.
Proof.
  induction s as [|c s IH]; intros tok piece Htok; cbn [Py.split_on_from].
  - by intros [<-|[]].
  - destruct (Ascii.eqb c sep) eqn:E.
    + intros [<-|Hin]; [exact Htok|]. by apply (IH "").
    + apply IH. rewrite any_str_append, Htok. cbn [Py.any_str].
      by rewrite Ascii.eqb_sym, E.
Qed.

Lemma name_loop_result (rows : list string) :
  name_loop rows = ""
  \/ (name_like (name_loop rows) = true
      /\ exists row, In row rows /\ name_loop rows = Py.strip row).
Proof.
  induction rows as [|row rows IH]; cbn [name_loop]; [by left|].
  destruct (name_like (Py.strip row)) eqn:E.
  - right. split; [exact E|]. exists row. split; [by left | done].
  - destruct IH as [IH|(Hlike & r & Hin & Heq)]; [by left|].
    right. split; [exact Hlike|]. exists r. split; [by right | done].
Qed.

Lemma text_name_one_line (text : string) :
  _extract_company_name_from_text text = ""
  \/ one_line_name (_extract_company_name_from_text text).
Proof.
  unfold _extract_company_name_from_text.
  destruct (name_loop_result (Py.split_on Py.newline text))
    as [H|(Hlike & row & Hin & Heq)]; [by left|]. right.
  unfold name_like in Hlike.
  apply andb_true_iff in Hlike as [Hlen _].
  apply andb_true_iff in Hlen as [Hlo Hhi].
  apply Nat.ltb_lt in Hlo, Hhi. unfold Py.len in *.
  split; [|split].
  - intros E. rewrite E in Hlo. cbn in Hlo. lia.
  - exact Hhi.
  - rewrite Heq, contains_char. apply any_str_strip.
    by apply (split_pieces_no_sep Py.newline text "" row).
Qed.

Lemma element_name_one_line (page : DetailPage) (selectors : list string) :
  element_name_loop selectors page = ""
  \/ one_line_name (element_name_loop selectors page).
Proof.
  induction selectors as [|selector rest IH]; cbn [element_name_loop];
    [by left|].
  destruct (first_inner_text page selector) as [text|msg]; [|exact IH].
  destruct (Py.truthy text && (0 <? Py.len (Py.strip text))) eqn:Htext;
    [|exact IH].
  destruct (Py.len (first_line (Py.strip text)) <? 100) eqn:Hlen; [|exact IH].
  right. apply andb_true_iff in Htext as [_ Hpos].
  apply Nat.ltb_lt in Hpos, Hlen. pose proof (strip_head text) as Hhead.
  unfold first_line, Py.split_on in *.
  destruct (Py.strip text) as [|c r]; [cbn in Hpos; lia|].
  assert (Hc : Ascii.eqb c Py.newline = false).
  { destruct (Ascii.eqb c Py.newline) eqn:E; [|reflexivity].
    apply Ascii.eqb_eq in E. subst c. vm_compute in Hhead. discriminate Hhead. }
  cbn [Py.split_on_from] in *. rewrite Hc in *. cbn [String.append] in *.
  destruct (split_on_from_first Py.newline r (String c ""))
    as (before & Hhd & Hno & _).
  rewrite Hhd in *. cbn [String.append] in *.
  split; [done|]. split; [exact Hlen|].
  rewrite contains_char. cbn [Py.any_str]. by rewrite Ascii.eqb_sym, Hc, Hno.
Qed.

(** X17. The company name of a page that passes the gates is a single
    line: it is not empty, has fewer than 100 characters, holds no line
    break and is not the copy of the search form.  So the flush, which
    cuts a name at its first line break, writes the name of every
    scraped record exactly as it was extracted. *)
Theorem accepted_name_is_one_line (page : DetailPage) (c : Candidate) :
  candidate page = Some c ->
  c_company_name c <> ""
  /\ Py.len (c_company_name c) < 100
  /\ Py.contains (String Py.newline "") (c_company_name c) = false
  /\ c_company_name c <> landing_copy
  /\ forall (self : Scraper) (link search_type search_location : string)
            (record : ProviderData),
       scrape_detail_page self (Some page) link search_type search_location
       = Some record ->
       company_name record = c_company_name c
       /\ nth 0 (csv_row (asdict record)) "" = c_company_name c.
Proof.
  intros Hc. destruct (candidate_fields page c Hc) as (Hname & _).
  assert (Hgate : Py.truthy (c_company_name c) = true
                  /\ String.eqb (c_company_name c) landing_copy = false).
  { unfold candidate in Hc.
    do 4 (match type of Hc with
          | (if ?b then None else _) = Some _ => destruct b; [discriminate Hc|]
          end).
    cbv zeta in Hc.
    match type of Hc with
    | (if negb (Py.truthy ?n) || String.eqb ?n _ then None else _) = Some _ =>
        destruct (Py.truthy n) eqn:Ht; cbn [negb orb] in Hc; [|discriminate Hc];
        destruct (String.eqb n landing_copy) eqn:He; [discriminate Hc|];
        injection Hc as <-; cbn [c_company_name]; by rewrite Ht, He
    end. }
  destruct Hgate as [Htruthy Hland].
  assert (Hone : one_line_name (c_company_name c)).
  { rewrite Hname in *. unfold derived_name in *.
    destruct (Py.truthy (_extract_company_name_from_elements page)) eqn:E.
    - destruct (element_name_one_line page name_selectors) as [H|H];
        [|exact H].
      unfold _extract_company_name_from_elements in E. by rewrite H in E.
    - destruct (text_name_one_line (extract_all_text_from_page page))
        as [H|H]; [|exact H].
      by rewrite H in Htruthy. }
  destruct Hone as (Hne & Hlen & Hnl).
  split; [exact Hne|]. split; [exact Hlen|]. split; [exact Hnl|]. split.
  - intros E. rewrite E in Hland. by rewrite String.eqb_refl in Hland.
  - intros self link search_type search_location record.
    unfold scrape_detail_page. rewrite Hc.
    destruct (_ && _); [discriminate|].
    destruct (_parse_search_location search_location) as [[? ?] ?].
    intros [= <-]. cbn [company_name]. split; [reflexivity|].
    rewrite csv_row_cells. cbn [nth].
    destruct (asdict_fields
                {| company_name := c_company_name c; address := c_address c;
                   suburb := s; state := s0; postcode := s1;
                   telephone := c_telephone c; email := c_email c;
                   website := c_website c; search_type := search_type;
                   search_location := search_location; result_url := link |})
      as (-> & _).
    cbn [company_name]. by apply written_name_cut.
Qed.

Lemma accepted_name_is_one_line_witness :
  candidate sunshine_page = Some sunshine_candidate
  /\ Py.contains (String Py.newline "") (c_company_name sunshine_candidate)
     = false.
Proof.
  assert (H : candidate sunshine_page = Some sunshine_candidate)
    by (vm_compute; reflexivity).
  split; [exact H|].
  exact (proj1 (proj2 (proj2 (accepted_name_is_one_line sunshine_page
                                sunshine_candidate H)))).
Defined.

Lemma rstrip_cons (c : ascii) (s : string) :
  Py.rstrip (String c s)
  = match Py.rstrip s with
    | EmptyString => if Py.isspace c then EmptyString else String c EmptyString
    | r => String c r
    end.
Proof. reflexivity. Qed.

Lemma rstrip_idem (s : string) : Py.rstrip (Py.rstrip s) = Py.rstrip s.
Proof.
  induction s as [|c s IH]; [reflexivity|]. rewrite rstrip_cons.
  destruct (Py.rstrip s) as [|d r] eqn:E.
  - destruct (Py.isspace c) eqn:Ec; [reflexivity|].
    rewrite rstrip_cons. cbn [Py.rstrip]. by rewrite Ec.
  - rewrite rstrip_cons, IH. reflexivity.
Qed.

Lemma strip_idem (s : string) : Py.strip (Py.strip s) = Py.strip s.
Proof.
  pose proof (strip_head s) as Hhead. unfold Py.strip at 1.
  destruct (Py.strip s) as [|c r] eqn:E; [reflexivity|].
  cbn [Py.lstrip]. rewrite Hhead. rewrite <- E. unfold Py.strip.
  apply rstrip_idem.
Qed.

Lemma text_loop_first (page : DetailPage) (selectors : list string) :
  (forall before selector after text,
      selectors = before ++ selector :: after ->
      Forall (too_short page) before ->
      inner_text page selector = Text text ->
      100 < Py.len (Py.strip text) ->
      text_loop selectors page = Some (Py.strip text))
  /\ (Forall (too_short page) selectors -> text_loop selectors page = None)
  /\ (forall found, text_loop selectors page = Some found ->
                    100 < Py.len found /\ Py.strip found = found).
Proof.
  induction selectors as [|s rest (IH1 & IH2 & IH3)].
  - split; [|split]; [|done|done].
    intros [|? ?] ? ? ? H; discriminate H.
  - assert (Hshort : too_short page s -> text_loop (s :: rest) page
                                         = text_loop rest page).
    { unfold too_short. cbn [text_loop].
      destruct (inner_text page s) as [text|msg]; [|done].
      intros H. destruct (Nat.ltb_spec 100 (Py.len (Py.strip text))); [lia|].
      by rewrite andb_false_r. }
    split; [|split].
    + intros [|b before] selector after text Heq Hbefore Htext Hlen.
      * injection Heq as <- <-. cbn [text_loop]. rewrite Htext.
        assert (Py.truthy text = true) as ->.
        { destruct text; [cbn in Hlen; lia | reflexivity]. }
        by destruct (Nat.ltb_spec 100 (Py.len (Py.strip text))); [|lia].
      * injection Heq as <- ->. apply Forall_cons_iff in Hbefore as [Hb Hbefore].
        rewrite (Hshort Hb). by apply (IH1 before selector after).
    + intros H. apply Forall_cons_iff in H as [Hs Hrest].
      rewrite (Hshort Hs). by apply IH2.
    + intros found. cbn [text_loop].
      destruct (inner_text page s) as [text|msg]; [|apply IH3].
      destruct (Py.truthy text && (100 <? Py.len (Py.strip text))) eqn:E;
        [|apply IH3].
      intros [= <-]. apply andb_true_iff in E as [_ E].
      apply Nat.ltb_lt in E. split; [exact E | apply strip_idem].
Qed.

(** X18. The text of a detail page is the stripped text of the first
    content selector that holds more than 100 characters once stripped.
    When no selector does, it is the stripped text of the body, which
    then has at most 100 characters, or the error message when the body
    cannot be read.  Text read from the page carries no surrounding
    whitespace. *)
Theorem page_text_is_first_long_content (page : DetailPage) :
  (forall before selector after text,
      content_selectors = before ++ selector :: after ->
      Forall (too_short page) before ->
      inner_text page selector = Text text ->
      100 < Py.len (Py.strip text) ->
      extract_all_text_from_page page = Py.strip text)
  /\ (Forall (too_short page) content_selectors ->
      match inner_text page "body" with
      | Text body_text =>
          extract_all_text_from_page page = Py.strip body_text
          /\ Py.len (extract_all_text_from_page page) <= 100
      | Raises msg =>
          extract_all_text_from_page page = "Error extracting text: " +:+ msg
      end)
  /\ (forall body_text,
        inner_text page "body" = Text body_text ->
        Py.strip (extract_all_text_from_page page)
        = extract_all_text_from_page page).
Proof.
  destruct (text_loop_first page content_selectors) as (H1 & H2 & H3).
  unfold extract_all_text_from_page. split; [|split].
  - intros before selector after text Heq Hbefore Htext Hlen.
    by rewrite (H1 before selector after text).
  - intros Hall. rewrite (H2 Hall).
    assert (Hbody : too_short page "body").
    { apply (proj1 (Forall_forall _ _) Hall). unfold content_selectors.
      cbn [In]. do 8 right. by left. }
    unfold too_short in Hbody.
    destruct (inner_text page "body") as [body_text|msg]; [|reflexivity].
    split; [reflexivity | exact Hbody].
  - intros body_text Hbody.
    destruct (text_loop content_selectors page) as [found|] eqn:E.
    + by apply H3.
    + rewrite Hbody. apply strip_idem.
Qed.

Lemma page_text_is_first_long_content_witness :
  content_selectors = [] ++ "main" :: tl content_selectors
  /\ extract_all_text_from_page sunshine_page = Py.strip sunshine_text.
Proof.
  assert (H : content_selectors = [] ++ "main" :: tl content_selectors)
    by reflexivity.
  split; [exact H|].
  apply (proj1 (page_text_is_first_long_content sunshine_page)
           [] "main" (tl content_selectors) sunshine_text H).
  - constructor.
  - reflexivity.
  - vm_compute. lia.
Defined.

End DetailText.

